(** * Lightning slideshow: ingestion, persistence and package codec

    A shallow embedding of the slide pipeline of [app.js]: the signature
    engine ([fileSignature]), registration ([registerEntry]), the content
    store ([saveSlideRecord], [getPersistedSlides], [clearPersistedSlides]),
    the document rasterizer loop ([addPdfFile]), the batch orchestrator
    ([addFiles]), the package codec ([buildExportPayload],
    [importSavedPackage], [arrayBufferToBase64], [base64ToArrayBuffer]),
    the delay setting ([applyDelay]) and the startup restore
    ([restorePersistedSlides]).

    The browser is modelled by what the code observes of it: a [Platform]
    record of capabilities and oracles (clock readings, random tokens,
    string/number conversions), and the views a [File] offers (its bytes,
    the JSON value its text parses to, the document PDF.js makes of it).
    [btoa] and [atob] are implemented.  Asynchronous functions are
    modelled by their sequential effect on the page state: every [await]
    in the pipeline resumes the same function before anything else in it
    runs, and the check-then-insert of [registerEntry] contains no
    suspension point.

    The handlers around the pipeline follow it: the collection of
    dropped files, the status messages and the status line, the delay
    controls, saving, the slideshow player with the browser's timers,
    and the service worker.

    Left out: failures of a database that did open (a transaction that
    is opened completes), the fullscreen state, the class lists of the
    loader and the stage, and the clipboard button's reading of the
    clipboard. *)

From Stdlib Require Import ZArith QArith String Ascii List Lia ZifyNat Permutation Sorted.
From Stdlib.Strings Require Import Byte.
From stdpp Require Import base option list gmap sets strings pretty.

Local Open Scope string_scope.
Local Open Scope list_scope.
Local Open Scope Z_scope.

(** ** JavaScript numbers

    A number is NaN, an infinity or a finite value.  The pipeline only
    compares numbers, tests them for truthiness and takes the sign of a
    difference; all of these are exact on the rationals, so a finite
    double is represented by its rational value (two representations of
    one rational denote the same number, and [-0] is [0]). *)

Inductive number : Type :=
  | NaN
  | NegInf
  | Fin (q : Q)
  | PosInf.

Definition num (z : Z) : number := Fin (inject_Z z).

(** [!x] for a number: NaN and zero are falsy. *)
Definition num_falsy (x : number) : bool :=
  match x with
  | NaN => true
  | Fin q => Qeq_bool q 0
  | NegInf | PosInf => false
  end.

(** [a <= b]; any comparison with NaN is false. *)
Definition num_leb (a b : number) : bool :=
  match a, b with
  | NaN, _ | _, NaN => false
  | NegInf, _ => true
  | _, PosInf => true
  | Fin x, Fin y => Qle_bool x y
  | Fin _, NegInf => false
  | PosInf, (NegInf | Fin _) => false
  end.

(** [a === b] on numbers. *)
Definition num_eqb (a b : number) : bool :=
  match a, b with
  | NegInf, NegInf | PosInf, PosInf => true
  | Fin x, Fin y => Qeq_bool x y
  | _, _ => false
  end.

Definition Math_max (a b : number) : number :=
  match a, b with
  | NaN, _ | _, NaN => NaN
  | _, _ => if num_leb a b then b else a
  end.

Definition Math_min (a b : number) : number :=
  match a, b with
  | NaN, _ | _, NaN => NaN
  | _, _ => if num_leb a b then a else b
  end.

(** [x || d] for numbers. *)
Definition num_or (x d : number) : number := if num_falsy x then d else x.

(** ** Binary strings and base64 ([btoa] / [atob])

    A binary string is a string whose code units are bytes.  [btoa] is
    RFC 4648 base64 with padding; [atob] is the forgiving decoder of the
    HTML standard: ASCII whitespace is dropped, up to two trailing [=] are
    removed when the length is a multiple of four, a remaining length of
    1 modulo 4 or a character outside the alphabet raises, and the unused
    low bits of a final partial group are discarded. *)

Module Base64.

Definition code (c : ascii) : Z := Z.of_N (N_of_ascii c).
Definition unit (z : Z) : ascii := ascii_of_N (Z.to_N z).

Definition alphabet : list ascii :=
  list_ascii_of_string
    "ABCDEFGHIJKLMNOPQRSTUVWXYZabcdefghijklmnopqrstuvwxyz0123456789+/".

Definition digit (s : Z) : ascii := nth (Z.to_nat s) alphabet "A"%char.

Definition between (lo c hi : ascii) : bool :=
  (code lo <=? code c) && (code c <=? code hi).

Definition value (c : ascii) : option Z :=
  if between "A" c "Z" then Some (code c - 65)
  else if between "a" c "z" then Some (code c - 97 + 26)
  else if between "0" c "9" then Some (code c - 48 + 52)
  else if Ascii.eqb c "+" then Some 62
  else if Ascii.eqb c "/" then Some 63
  else None.

(** The 6-bit groups of a byte sequence, without padding. *)
Fixpoint sextets (l : list ascii) : list Z :=
  match l with
  | [] => []
  | [a] => let n := code a in [n / 4; (n mod 4) * 16]
  | [a; b] =>
      let n := code a * 256 + code b in
      [n / 1024; (n / 16) mod 64; (n mod 16) * 4]
  | a :: b :: c :: rest =>
      let n := code a * 65536 + code b * 256 + code c in
      n / 262144 :: (n / 4096) mod 64 :: (n / 64) mod 64 :: n mod 64
        :: sextets rest
  end.

Fixpoint padding (l : list ascii) : list ascii :=
  match l with
  | [] => []
  | [_] => ["="; "="]%char
  | [_; _] => ["="]%char
  | _ :: _ :: _ :: rest => padding rest
  end.

Definition btoa (binary : string) : string :=
  let l := list_ascii_of_string binary in
  string_of_list_ascii (map digit (sextets l) ++ padding l).

Definition is_whitespace (c : ascii) : bool :=
  existsb (Ascii.eqb c) ["009"; "010"; "012"; "013"; " "]%char.

(** Drops a final [=]; applied to the reversed data. *)
Definition drop_pad (r : list ascii) : list ascii :=
  match r with
  | c :: r' => if Ascii.eqb c "=" then r' else r
  | [] => []
  end.

Definition strip_padding (data : list ascii) : list ascii :=
  if (length data mod 4 =? 0)%nat then rev (drop_pad (drop_pad (rev data)))
  else data.

Fixpoint values (data : list ascii) : option (list Z) :=
  match data with
  | [] => Some []
  | c :: data' =>
      match value c, values data' with
      | Some v, Some vs => Some (v :: vs)
      | _, _ => None
      end
  end.

Fixpoint octets (vs : list Z) : list ascii :=
  match vs with
  | s1 :: s2 :: s3 :: s4 :: rest =>
      let n := ((s1 * 64 + s2) * 64 + s3) * 64 + s4 in
      unit (n / 65536) :: unit ((n / 256) mod 256) :: unit (n mod 256)
        :: octets rest
  | [s1; s2; s3] =>
      let n := (s1 * 64 + s2) * 64 + s3 in
      [unit (n / 1024); unit ((n / 4) mod 256)]
  | [s1; s2] => [unit ((s1 * 64 + s2) / 16)]
  | _ => []
  end.

(** [None] is the [InvalidCharacterError] exception. *)
Definition atob (base64 : string) : option string :=
  let data := List.filter (fun c => negb (is_whitespace c)) (list_ascii_of_string base64) in
  let data := strip_padding data in
  if (length data mod 4 =? 1)%nat then None
  else match values data with
       | Some vs => Some (string_of_list_ascii (octets vs))
       | None => None
       end.

End Base64.

(** ** Strings

    A string is a sequence of code units, 8 bits wide in the model;
    [toLowerCase] folds the ASCII letters. *)

Definition to_lower (c : ascii) : ascii :=
  if Base64.between "A" c "Z" then Base64.unit (Base64.code c + 32) else c.

Fixpoint toLowerCase (s : string) : string :=
  match s with
  | EmptyString => EmptyString
  | String c s' => String (to_lower c) (toLowerCase s')
  end.

Definition startsWith (s p : string) : bool := String.prefix p s.

Definition endsWith (s suffix : string) : bool :=
  (String.length suffix <=? String.length s)%nat
  && String.eqb (String.substring (String.length s - String.length suffix)
                                  (String.length suffix) s) suffix.

(** [s || d] for strings: the empty string is falsy. *)
Definition str_or (s d : string) : string := if String.eqb s "" then d else s.

(** ** JSON values

    What [JSON.parse] returns.  An object is the list of its members. *)

#[warnings="-register-all"]
Inductive json : Type :=
  | JNull
  | JBool (b : bool)
  | JNum (n : number)
  | JStr (s : string)
  | JArr (items : list json)
  | JObj (members : list (string * json)).

(** [v.k]; [None] is [undefined].  Only the keys of the package format
    are ever read, and primitives and arrays have none of them. *)
Definition member (k : string) (v : json) : option json :=
  match v with
  | JObj members =>
      match List.find (fun kv => String.eqb (fst kv) k) members with
      | Some kv => Some (snd kv)
      | None => None
      end
  | _ => None
  end.

(** [!v] *)
Definition falsy (v : json) : bool :=
  match v with
  | JNull => true
  | JBool b => negb b
  | JNum n => num_falsy n
  | JStr s => String.eqb s ""
  | JArr _ | JObj _ => false
  end.

(** [typeof v === "object"] *)
Definition typeof_object (v : json) : bool :=
  match v with
  | JNull | JArr _ | JObj _ => true
  | _ => false
  end.

(** [Array.isArray(v)] for a possibly undefined [v]. *)
Definition isArray (v : option json) : bool :=
  match v with
  | Some (JArr _) => true
  | _ => false
  end.

Definition items_of (v : option json) : list json :=
  match v with
  | Some (JArr items) => items
  | _ => []
  end.

(** What [JSON.parse(JSON.stringify(v))] returns: numbers that are not
    finite are written as [null]; everything else is read back as it
    was written. *)
Fixpoint JSON_reparse (v : json) : json :=
  match v with
  | JNum (Fin q) => JNum (Fin q)
  | JNum _ => JNull
  | JArr items => JArr (map JSON_reparse items)
  | JObj members => JObj (map (fun kv => (fst kv, JSON_reparse (snd kv))) members)
  | _ => v
  end.

(** ** The platform

    Capabilities detected at load time and the oracles behind the calls
    whose results the page cannot determine. *)

Record Platform : Type := {
  (** [Boolean(window.pdfjsLib)] *)
  pdfSupported : bool;
  (** the n-th reading of [Date.now()] in the session *)
  Date_now : nat -> number;
  (** the n-th random token: [crypto.randomUUID()], or the
      timestamp-and-random fallback of [generateImportSignature] *)
  randomToken : nat -> string;
  (** [new Date(t).toISOString()] *)
  toISOString : number -> string;
  (** [Number(s)] for a string *)
  StringToNumber : string -> number;
  (** [String(n)] for a number *)
  NumberToString : number -> string
}.

(** ** Blobs, files, slides *)

Module Blob.
Record t : Type := {
  type : string;
  (** [await blob.arrayBuffer()]; [None] when the read is rejected *)
  arrayBuffer : option (list byte)
}.
End Blob.

(** The outcome of loading, rendering and encoding one page of a
    document: any of the three steps may fail. *)
Inductive PageOutcome : Type :=
  | PageLoadFails
  | PageRenderFails
  | PageEncodeFails
  | PageImage (png : Blob.t).

Module File.
Record t : Type := {
  name : string;
  type : string;
  size : Z;
  lastModified : Z;
  arrayBuffer : option (list byte);
  (** [JSON.parse(await file.text())]; [None] when either throws *)
  json_text : option json;
  (** the pages of [pdfjsLib.getDocument({data}).promise], in page
      order; [None] when reading or opening the document throws *)
  pdf : option (list PageOutcome)
}.
(** A file is a blob. *)
Definition blob (f : t) : Blob.t :=
  {| Blob.type := type f; Blob.arrayBuffer := arrayBuffer f |}.
End File.

(** A persisted record of the [slides] object store.  Records written
    by this version carry [bytes]; [restorePersistedSlides] also accepts
    records that carry a [blob]. *)
Module Slide.
Record t : Type := {
  signature : string;
  label : string;
  addedAt : number;
  bytes : option (list byte);
  type : string;
  blob : option Blob.t
}.
End Slide.

(** An element of [imageEntries]; the object URL stands for its blob. *)
Module Entry.
Record t : Type := {
  url : Blob.t;
  signature : string;
  label : string
}.
End Entry.

(** ** Page state *)

Record State : Type := {
  imageEntries : list Entry.t;
  imageSignatures : gset string;
  (** the [slides] object store keyed by [signature]; [None] when
      IndexedDB is unavailable ([openDatabase] resolves to [null]) *)
  db : option (gmap string Slide.t);
  (** [delayRange.value] and [delayInput.value] *)
  delayRange : number;
  delayInput : number;
  (** the stored delay; outer [None] when [localStorage] is undefined *)
  localStorage : option (option number);
  (** readings of the clock and random tokens taken so far *)
  clock : nat;
  entropy : nat
}.

(** Computations on the page state. *)
Definition M (A : Type) : Type := State -> A * State.

Definition ret {A} (a : A) : M A := fun st => (a, st).

Definition bind {A B} (m : M A) (k : A -> M B) : M B :=
  fun st => let (a, st') := m st in k a st'.

Definition gets {A} (f : State -> A) : M A := fun st => (f st, st).

Definition modify (f : State -> State) : M unit := fun st => (tt, f st).

Declare Scope js_scope.

Delimit Scope js_scope with js.

Notation "'let*' x ':=' m 'in' k" := (bind m (fun x => k))
  (at level 10, x name, m at level 100, k at level 200) : js_scope.

Notation "m ';;' k" := (bind m (fun _ => k))
  (at level 100, k at level 200, right associativity) : js_scope.

Local Open Scope js_scope.

Definition set_gallery (entries : list Entry.t) (signatures : gset string)
    (st : State) : State :=
  {| imageEntries := entries; imageSignatures := signatures; db := db st;
     delayRange := delayRange st; delayInput := delayInput st;
     localStorage := localStorage st; clock := clock st; entropy := entropy st |}.

Definition set_db (store : option (gmap string Slide.t)) (st : State) : State :=
  {| imageEntries := imageEntries st; imageSignatures := imageSignatures st;
     db := store;
     delayRange := delayRange st; delayInput := delayInput st;
     localStorage := localStorage st; clock := clock st; entropy := entropy st |}.

Definition set_delay (range input : number) (st : State) : State :=
  {| imageEntries := imageEntries st; imageSignatures := imageSignatures st;
     db := db st;
     delayRange := range; delayInput := input;
     localStorage := localStorage st; clock := clock st; entropy := entropy st |}.

Definition set_localStorage (ls : option (option number)) (st : State) : State :=
  {| imageEntries := imageEntries st; imageSignatures := imageSignatures st;
     db := db st;
     delayRange := delayRange st; delayInput := delayInput st;
     localStorage := ls; clock := clock st; entropy := entropy st |}.

Definition tick_clock (st : State) : State :=
  {| imageEntries := imageEntries st; imageSignatures := imageSignatures st;
     db := db st;
     delayRange := delayRange st; delayInput := delayInput st;
     localStorage := localStorage st; clock := S (clock st); entropy := entropy st |}.

Definition tick_entropy (st : State) : State :=
  {| imageEntries := imageEntries st; imageSignatures := imageSignatures st;
     db := db st;
     delayRange := delayRange st; delayInput := delayInput st;
     localStorage := localStorage st; clock := clock st; entropy := S (entropy st) |}.

(** ** Sorting

    [Array.prototype.sort] is stable.  For a comparator that is a total
    preorder the result is the one stable sorted arrangement, which
    insertion computes; [after x y] says that the comparator puts [x]
    after [y] (its result is positive). *)

Section Sort.
Context {A : Type} (after : A -> A -> bool).

Fixpoint insert_sorted (x : A) (l : list A) : list A :=
  match l with
  | [] => [x]
  | y :: l' => if after x y then y :: insert_sorted x l' else x :: y :: l'
  end.

Definition Array_sort (l : list A) : list A := foldr insert_sorted [] l.
End Sort.

(** ** Content store *)

(** Keys of an object store are kept in ascending order; string keys
    compare by code units. *)
Definition key_after (a b : Slide.t) : bool :=
  negb (String.leb (Slide.signature a) (Slide.signature b)).

(** [store.getAll()] *)
Definition getAll (store : gmap string Slide.t) : list Slide.t :=
  Array_sort key_after (map snd (map_to_list store)).

(** [store.put(record)] with key path [signature] *)
Definition put (record : Slide.t) (store : gmap string Slide.t) : gmap string Slide.t :=
  <[Slide.signature record := record]> store.

(** The comparator of [getPersistedSlides]:
    [(a.addedAt || 0) - (b.addedAt || 0)] is positive.  The difference
    of two equal infinities is NaN, which [sort] treats as zero. *)
Definition addedAt_after (a b : Slide.t) : bool :=
  negb (num_leb (num_or (Slide.addedAt a) (num 0)) (num_or (Slide.addedAt b) (num 0))).

(** [saveSlideRecord({ signature, label, blob, addedAt })]: nothing
    happens without a database or when the blob cannot be read;
    otherwise the record is put, and a transaction that was opened
    completes. *)
Definition saveSlideRecord (signature label : string) (blob : Blob.t)
    (addedAt : number) : M unit :=
  let* handle := gets db in
  match handle with
  | None => ret tt
  | Some store =>
      match Blob.arrayBuffer blob with
      | None => ret tt
      | Some bytes =>
          let record :=
            {| Slide.signature := signature;
               Slide.label := label;
               Slide.addedAt := addedAt;
               Slide.bytes := Some bytes;
               Slide.type := str_or (Blob.type blob) "application/octet-stream";
               Slide.blob := None |} in
          modify (set_db (Some (put record store)))
      end
  end.

(** [getPersistedSlides]: all records, sorted by [addedAt]; the empty
    array without a database. *)
Definition getPersistedSlides : M (list Slide.t) :=
  let* handle := gets db in
  match handle with
  | None => ret []
  | Some store => ret (Array_sort addedAt_after (getAll store))
  end.

Definition clearPersistedSlides : M unit :=
  let* handle := gets db in
  match handle with
  | None => ret tt
  | Some _ => modify (set_db (Some ∅))
  end.

Definition printable (c : ascii) : bool := Base64.between " " c "~".

(** The type a [Blob] keeps of the one it is given: a type with a
    character outside U+0020..U+007E becomes the empty string, any
    other type is lower-cased. *)
Definition normalizeType (t : string) : string :=
  if forallb printable (list_ascii_of_string t) then toLowerCase t else "".

(** [new Blob([buffer], { type })] *)
Definition new_Blob (buffer : list byte) (type : string) : Blob.t :=
  {| Blob.type := normalizeType type; Blob.arrayBuffer := Some buffer |}.

(** ** Signature engine *)

(** [[file.name, file.type, file.size, file.lastModified].join("::")] *)
Definition fileSignature (file : File.t) : string :=
  File.name file ++ "::" ++ File.type file ++ "::" ++ pretty (File.size file)
    ++ "::" ++ pretty (File.lastModified file).

(** [`${fileSignature(file)}::page${pageNumber}`] *)
Definition pageSignature (file : File.t) (pageNumber : N) : string :=
  fileSignature file ++ "::page" ++ pretty pageNumber.

(** ** Delay setting *)

Definition DEFAULT_DELAY : number := num 200.

(** [storeDelay(value)]; the stored string is kept as the number it
    spells. *)
Definition storeDelay (value : number) : M unit :=
  let* storage := gets localStorage in
  match storage with
  | None => ret tt
  | Some _ => modify (set_localStorage (Some (Some value)))
  end.

(** [Math.min(2000, Math.max(0, Number(value) || 0))] *)
Definition clampDelay (value : number) : number :=
  Math_min (num 2000) (Math_max (num 0) (num_or value (num 0))).

(** [applyDelay(value, { persist })] *)
Definition applyDelay (value : number) (persist : bool) : M unit :=
  let clamped := clampDelay value in
  modify (set_delay clamped clamped) ;;
  if persist then storeDelay clamped else ret tt.

Definition getStoredDelay : M (option number) :=
  let* storage := gets localStorage in
  match storage with
  | Some (Some parsed) =>
      match parsed with
      | Fin _ =>
          if num_leb (num 0) parsed && num_leb parsed (num 2000)
          then ret (Some parsed) else ret None
      | _ => ret None
      end
  | _ => ret None
  end.

Definition restoreDelaySetting : M unit :=
  let* stored := getStoredDelay in
  match stored with
  | None => applyDelay DEFAULT_DELAY false
  | Some stored => applyDelay stored false
  end.

(** ** Package codec: payload encoding *)

Definition chunkSize : nat := Z.to_nat 0x8000.

(** [view.subarray(i, j)] *)
Definition subarray (view : list byte) (i j : nat) : list byte :=
  firstn (j - i) (skipn i view).

(** The loop [for (i = 0; i < view.length; i += chunkSize)] that
    appends [String.fromCharCode(...chunk)] to [binary]; every round
    advances [i], so [length view] rounds of fuel are enough. *)
Fixpoint fromCharCode_chunks (fuel : nat) (view : list byte) (i : nat)
    (binary : string) : string :=
  match fuel with
  | O => binary
  | S fuel' =>
      if (i <? length view)%nat then
        let chunk := subarray view i (Nat.min (length view) (i + chunkSize)) in
        fromCharCode_chunks fuel' view (i + chunkSize)%nat
          (binary ++ string_of_list_byte chunk)
      else binary
  end.

Definition arrayBufferToBase64 (buffer : list byte) : string :=
  match buffer with
  | [] => ""
  | _ => Base64.btoa (fromCharCode_chunks (length buffer) buffer 0 "")
  end.

(** [None] when [atob] throws. *)
Definition base64ToArrayBuffer (base64 : string) : option (list byte) :=
  match Base64.atob base64 with
  | Some binary => Some (list_byte_of_string binary)
  | None => None
  end.

Definition SAVE_PACKAGE_VERSION : number := num 1.

(** The entry [buildExportPayload] pushes for a record; a record
    without [bytes] is passed over. *)
Definition exportSlide (slide : Slide.t) : option json :=
  match Slide.bytes slide with
  | None => None
  | Some bytes =>
      Some (JObj [("signature", JStr (Slide.signature slide));
                  ("label", JStr (Slide.label slide));
                  ("type", JStr (Slide.type slide));
                  ("addedAt", JNum (Slide.addedAt slide));
                  ("bytes", JStr (arrayBufferToBase64 bytes))])
  end.

Module Package.
(** [{ added, total }] or [{ added: 0, total: 0, error: true }] *)
Record result : Type := { added : nat; total : nat; error : bool }.
Definition failure : result := {| added := 0; total := 0; error := true |}.
End Package.

Module Batch.
Record result : Type := {
  added : nat;
  supported : nat;
  unsupported : nat;
  pdfUnsupported : nat;
  packageSlidesAdded : nat;
  packagesProcessed : nat;
  packageErrors : nat;
  packageSlidesTotal : nat
}.
Definition zero : result :=
  {| added := 0; supported := 0; unsupported := 0; pdfUnsupported := 0;
     packageSlidesAdded := 0; packagesProcessed := 0; packageErrors := 0;
     packageSlidesTotal := 0 |}.
End Batch.

Section Pipeline.
Context (pf : Platform).

(** [Date.now()] *)
Definition now : M number :=
  let* n := gets clock in
  modify tick_clock ;;
  ret (Date_now pf n).

(** [String(v)], as [Array.prototype.join] and [Number] use it. *)
Fixpoint ToString (v : json) : string :=
  match v with
  | JNull => "null"
  | JBool true => "true"
  | JBool false => "false"
  | JNum n => NumberToString pf n
  | JStr s => s
  | JArr items =>
      String.concat ","
        (map (fun x => match x with JNull => "" | _ => ToString x end) items)
  | JObj _ => "[object Object]"
  end.

(** [Number(v)] for a possibly undefined [v]. *)
Definition ToNumber (v : option json) : number :=
  match v with
  | None => NaN
  | Some JNull => num 0
  | Some (JBool b) => if b then num 1 else num 0
  | Some (JNum n) => n
  | Some (JStr s) => StringToNumber pf s
  | Some (JArr items) => StringToNumber pf (ToString (JArr items))
  | Some (JObj members) => StringToNumber pf (ToString (JObj members))
  end.

(** ** Registration *)

(** [registerEntry({ blob, label, signature, persist, addedAt })];
    an omitted [addedAt] defaults to [Date.now()], read at the call. *)
Definition registerEntry (blob : Blob.t) (label signature : string)
    (persist : bool) (addedAt : option number) : M bool :=
  let* addedAt := match addedAt with Some t => ret t | None => now end in
  let* signatures := gets imageSignatures in
  if decide (signature ∈ signatures) then ret false
  else
    modify (fun st =>
      set_gallery
        (imageEntries st ++ [{| Entry.url := blob; Entry.signature := signature;
                                Entry.label := label |}])
        ({[signature]} ∪ imageSignatures st) st) ;;
    (if persist then saveSlideRecord signature label blob addedAt else ret tt) ;;
    ret true.

(** [`import-${crypto.randomUUID()}`], or the fallback built from the
    clock and [Math.random()]; either way a random token. *)
Definition generateImportSignature : M string :=
  let* n := gets entropy in
  modify tick_entropy ;;
  ret ("import-" ++ randomToken pf n)%string.

(** [buildExportPayload] *)
Definition buildExportPayload : M json :=
  let* persistedSlides := getPersistedSlides in
  let slides := omap exportSlide persistedSlides in
  let* range := gets delayRange in
  let* generatedAt := now in
  ret (JObj [("version", JNum SAVE_PACKAGE_VERSION);
             ("delay", JNum range);
             ("generatedAt", JStr (toISOString pf generatedAt));
             ("slides", JArr slides)]).

(** The text [handleSaveClick] writes, as a package file sees it. *)
Definition exportPackage : M (option json) :=
  let* payload := buildExportPayload in
  ret (Some (JSON_reparse payload)).

(** The fields of a slide entry.  The package format has strings in
    [type], [label] and [signature] and a number in [addedAt]; a
    member of another JSON type is read as if it were absent. *)
Definition string_member (k : string) (slide : json) : string :=
  match member k slide with
  | Some (JStr s) => s
  | _ => ""
  end.

Definition number_member (k : string) (slide : json) : number :=
  match member k slide with
  | Some (JNum n) => n
  | _ => NaN
  end.

(** One round of the loop over [data.slides]; the result tells
    whether the slide was registered. *)
Definition importSlide (slide : json) : M bool :=
  match member "bytes" slide with
  | Some (JStr bytes) =>
      match base64ToArrayBuffer bytes with
      | None => ret false
      | Some buffer =>
          let blob := new_Blob buffer
                        (str_or (string_member "type" slide) "application/octet-stream") in
          let label := str_or (string_member "label" slide) "Image" in
          let* signature :=
            (let s := string_member "signature" slide in
             if String.eqb s "" then generateImportSignature else ret s) in
          let* addedAt :=
            (let t := number_member "addedAt" slide in
             if num_falsy t then now else ret t) in
          registerEntry blob label signature true (Some addedAt)
      end
  | _ => ret false
  end.

Fixpoint importSlides (slides : list json) (added : nat) : M nat :=
  match slides with
  | [] => ret added
  | slide :: rest =>
      let* registered := importSlide slide in
      importSlides rest (if registered then S added else added)
  end.

(** The shape test of [importSavedPackage]; [true] when it throws. *)
Definition unsupportedFormat (data : json) : bool :=
  falsy data
  || negb (typeof_object data)
  || negb (num_eqb (ToNumber (member "version" data)) SAVE_PACKAGE_VERSION)
  || negb (isArray (member "slides" data)).

Definition importSavedPackage (file : File.t) : M Package.result :=
  match File.json_text file with
  | None => ret Package.failure
  | Some data =>
      if unsupportedFormat data then ret Package.failure
      else
        (match member "delay" data with
         | Some (JNum delay) => applyDelay delay true
         | _ => ret tt
         end) ;;
        let slides := items_of (member "slides" data) in
        let* added := importSlides slides 0 in
        ret {| Package.added := added; Package.total := length slides;
               Package.error := false |}
  end.

(** ** Ingestion *)

Definition addImageFile (file : File.t) : M nat :=
  let signature := fileSignature file in
  let* signatures := gets imageSignatures in
  if decide (signature ∈ signatures) then ret 0%nat
  else
    let* added :=
      registerEntry (File.blob file) (str_or (File.name file) "Image")
                    signature true None in
    ret (if added then 1%nat else 0%nat).

(** One round of the page loop of [addPdfFile]. *)
Definition addPdfPage (file : File.t) (pageNumber : N) (page : PageOutcome) : M bool :=
  let pageSignature := pageSignature file pageNumber in
  let* signatures := gets imageSignatures in
  if decide (pageSignature ∈ signatures) then ret false
  else
    match page with
    | PageLoadFails | PageRenderFails | PageEncodeFails => ret false
    | PageImage blob =>
        registerEntry blob
          (str_or (File.name file) "PDF" ++ " - page " ++ pretty pageNumber)%string
          pageSignature true None
    end.

Fixpoint addPdfPages (file : File.t) (pages : list PageOutcome)
    (pageNumber : N) (added : nat) : M nat :=
  match pages with
  | [] => ret added
  | page :: rest =>
      let* registered := addPdfPage file pageNumber page in
      addPdfPages file rest (pageNumber + 1)%N
                  (if registered then S added else added)
  end.

(** [addPdfFile]: [Some (added, total)], or [None] when reading or
    opening the document throws. *)
Definition addPdfFile (file : File.t) : M (option (nat * nat)) :=
  if negb (pdfSupported pf) then ret (Some (0%nat, 0%nat))
  else
    match File.pdf file with
    | None => ret None
    | Some pages =>
        let total := length pages in
        let* added := addPdfPages file pages 1%N 0%nat in
        ret (Some (added, total))
    end.

Definition isPackageCandidate (file : File.t) : bool :=
  let name := toLowerCase (str_or (File.name file) "") in
  String.eqb (File.type file) "application/json"
  || endsWith name ".json" || endsWith name ".lss" || endsWith name ".slideshow".

Definition isImage (file : File.t) : bool := startsWith (File.type file) "image/".

Definition isPdf (file : File.t) : bool := String.eqb (File.type file) "application/pdf".

(** One round of the loop of [addFiles] over the incoming files. *)
Definition addFile (file : File.t) (r : Batch.result) : M Batch.result :=
  if isPackageCandidate file then
    let* packageResult := importSavedPackage file in
    if Package.error packageResult then
      ret {| Batch.added := Batch.added r;
             Batch.supported := Batch.supported r;
             Batch.unsupported := S (Batch.unsupported r);
             Batch.pdfUnsupported := Batch.pdfUnsupported r;
             Batch.packageSlidesAdded := Batch.packageSlidesAdded r;
             Batch.packagesProcessed := Batch.packagesProcessed r;
             Batch.packageErrors := S (Batch.packageErrors r);
             Batch.packageSlidesTotal := Batch.packageSlidesTotal r |}
    else
      let totalSlides := Package.total packageResult in
      let addedSlides := Package.added packageResult in
      ret {| Batch.added := (Batch.added r + addedSlides)%nat;
             Batch.supported := (Batch.supported r + totalSlides)%nat;
             Batch.unsupported := Batch.unsupported r;
             Batch.pdfUnsupported := Batch.pdfUnsupported r;
             Batch.packageSlidesAdded := (Batch.packageSlidesAdded r + addedSlides)%nat;
             Batch.packagesProcessed := S (Batch.packagesProcessed r);
             Batch.packageErrors := Batch.packageErrors r;
             Batch.packageSlidesTotal := (Batch.packageSlidesTotal r + totalSlides)%nat |}
  else if isImage file then
    let* n := addImageFile file in
    ret {| Batch.added := (Batch.added r + n)%nat;
           Batch.supported := S (Batch.supported r);
           Batch.unsupported := Batch.unsupported r;
           Batch.pdfUnsupported := Batch.pdfUnsupported r;
           Batch.packageSlidesAdded := Batch.packageSlidesAdded r;
           Batch.packagesProcessed := Batch.packagesProcessed r;
           Batch.packageErrors := Batch.packageErrors r;
           Batch.packageSlidesTotal := Batch.packageSlidesTotal r |}
  else if isPdf file then
    if negb (pdfSupported pf) then
      ret {| Batch.added := Batch.added r;
             Batch.supported := S (Batch.supported r);
             Batch.unsupported := Batch.unsupported r;
             Batch.pdfUnsupported := S (Batch.pdfUnsupported r);
             Batch.packageSlidesAdded := Batch.packageSlidesAdded r;
             Batch.packagesProcessed := Batch.packagesProcessed r;
             Batch.packageErrors := Batch.packageErrors r;
             Batch.packageSlidesTotal := Batch.packageSlidesTotal r |}
    else
      let* pages := addPdfFile file in
      let pagesAdded := match pages with Some (n, _) => n | None => 0%nat end in
      ret {| Batch.added := (Batch.added r + pagesAdded)%nat;
             Batch.supported := S (Batch.supported r);
             Batch.unsupported := Batch.unsupported r;
             Batch.pdfUnsupported := Batch.pdfUnsupported r;
             Batch.packageSlidesAdded := Batch.packageSlidesAdded r;
             Batch.packagesProcessed := Batch.packagesProcessed r;
             Batch.packageErrors := Batch.packageErrors r;
             Batch.packageSlidesTotal := Batch.packageSlidesTotal r |}
  else
    ret {| Batch.added := Batch.added r;
           Batch.supported := Batch.supported r;
           Batch.unsupported := S (Batch.unsupported r);
           Batch.pdfUnsupported := Batch.pdfUnsupported r;
           Batch.packageSlidesAdded := Batch.packageSlidesAdded r;
           Batch.packagesProcessed := Batch.packagesProcessed r;
           Batch.packageErrors := Batch.packageErrors r;
           Batch.packageSlidesTotal := Batch.packageSlidesTotal r |}.

Fixpoint addFiles_loop (incoming : list File.t) (r : Batch.result) : M Batch.result :=
  match incoming with
  | [] => ret r
  | file :: rest =>
      let* r' := addFile file r in
      addFiles_loop rest r'
  end.

(** [addFiles(files)]; an empty batch returns the zero counts at once. *)
Definition addFiles (files : list File.t) : M Batch.result :=
  addFiles_loop files Batch.zero.

(** One round of the loop of [restorePersistedSlides]. *)
Definition restoreSlide (slide : Slide.t) : M unit :=
  if String.eqb (Slide.signature slide) "" then ret tt
  else
    let blob :=
      match Slide.blob slide with
      | Some blob => Some blob
      | None =>
          match Slide.bytes slide with
          | Some bytes =>
              Some (new_Blob bytes (str_or (Slide.type slide) "application/octet-stream"))
          | None => None
          end
      end in
    match blob with
    | None => ret tt
    | Some blob =>
        let* addedAt :=
          (if num_falsy (Slide.addedAt slide) then now else ret (Slide.addedAt slide)) in
        registerEntry blob (str_or (Slide.label slide) "Image")
                      (Slide.signature slide) false (Some addedAt) ;;
        ret tt
    end.

Fixpoint restoreSlides (storedSlides : list Slide.t) : M unit :=
  match storedSlides with
  | [] => ret tt
  | slide :: rest => restoreSlide slide ;; restoreSlides rest
  end.

Definition restorePersistedSlides : M unit :=
  let* storedSlides := getPersistedSlides in
  restoreSlides storedSlides.

Definition resetGallery : M unit :=
  modify (set_gallery [] ∅) ;;
  clearPersistedSlides ;;
  applyDelay DEFAULT_DELAY true.

(** The [beforeunload] handler. *)
Definition beforeunload : M unit := modify (set_gallery [] ∅).

End Pipeline.

(** * Vocabulary of the properties, and samples *)

(** ** Signatures *)

Definition is_digit (c : ascii) : bool := Base64.between "0" c "9".

Definition digits_only (s : string) : Prop :=
  Forall (fun c => is_digit c = true) (list_ascii_of_string s).

(** ** Reasoning about page-state computations *)

(** [preserves P m]: running [m] keeps the state inside [P]. *)
Definition preserves {A} (P : State -> Prop) (m : M A) : Prop :=
  forall st, P st -> P (snd (m st)).

(** ** The uniqueness invariant *)

(** The object store keeps every record under the key its key path
    [signature] extracts. *)
Definition store_keyed (store : gmap string Slide.t) : Prop :=
  forall k r, store !! k = Some r -> Slide.signature r = k.

Record invariant (st : State) : Prop := {
  inv_entries : List.NoDup (map Entry.signature (imageEntries st));
  inv_signatures :
    forall e, In e (imageEntries st) -> Entry.signature e ∈ imageSignatures st;
  inv_store : forall store, db st = Some store -> store_keyed store
}.

(** What [saveSlideRecord] does to the store. *)
Definition saved (signature label : string) (blob : Blob.t) (addedAt : number)
    (store : option (gmap string Slide.t)) : option (gmap string Slide.t) :=
  match store, Blob.arrayBuffer blob with
  | Some store, Some bytes =>
      Some (put {| Slide.signature := signature; Slide.label := label;
                   Slide.addedAt := addedAt; Slide.bytes := Some bytes;
                   Slide.type := str_or (Blob.type blob) "application/octet-stream";
                   Slide.blob := None |} store)
  | _, _ => store
  end.

(** The state [registerEntry] leaves when the signature is new. *)
Definition registered (blob : Blob.t) (label signature : string)
    (persist : bool) (addedAt : number) (st : State) : State :=
  let st1 :=
    set_gallery
      (imageEntries st ++ [{| Entry.url := blob; Entry.signature := signature;
                              Entry.label := label |}])
      ({[signature]} ∪ imageSignatures st) st in
  if persist then set_db (saved signature label blob addedAt (db st1)) st1 else st1.

(** ** Reachable states *)

(** The entry points of the pipeline.  [RegisterEntry] is the
    registration step on its own: the asynchronous pipelines interleave
    only between such steps. *)
Inductive operation : Type :=
  | AddFiles (files : list File.t)
  | AddImageFile (file : File.t)
  | AddPdfFile (file : File.t)
  | ImportSavedPackage (file : File.t)
  | RegisterEntry (blob : Blob.t) (label signature : string) (persist : bool)
                  (addedAt : option number)
  | RestorePersistedSlides
  | ResetGallery
  | BuildExportPayload
  | ApplyDelay (value : number) (persist : bool)
  | RestoreDelaySetting
  | BeforeUnload.

Definition perform (pf : Platform) (op : operation) (st : State) : State :=
  match op with
  | AddFiles files => snd (addFiles pf files st)
  | AddImageFile file => snd (addImageFile pf file st)
  | AddPdfFile file => snd (addPdfFile pf file st)
  | ImportSavedPackage file => snd (importSavedPackage pf file st)
  | RegisterEntry blob label signature persist addedAt =>
      snd (registerEntry pf blob label signature persist addedAt st)
  | RestorePersistedSlides => snd (restorePersistedSlides pf st)
  | ResetGallery => snd (resetGallery st)
  | BuildExportPayload => snd (buildExportPayload pf st)
  | ApplyDelay value persist => snd (applyDelay value persist st)
  | RestoreDelaySetting => snd (restoreDelaySetting st)
  | BeforeUnload => snd (beforeunload st)
  end.

(** Every record of the store sits under its own signature. *)
Definition keyed (store : gmap string Slide.t) : bool :=
  forallb (fun kr => String.eqb (fst kr) (Slide.signature (snd kr))) (map_to_list store).

(** A page starts with an empty gallery over whatever an earlier
    session left in the store. *)
Definition loaded (st : State) : bool :=
  match imageEntries st with [] => true | _ => false end
  && bool_decide (imageSignatures st = ∅)
  && match db st with Some store => keyed store | None => true end.

Inductive reachable (pf : Platform) : State -> Prop :=
  | reachable_load st : loaded st = true -> reachable pf st
  | reachable_step st op : reachable pf st -> reachable pf (perform pf op st).

(** No two gallery entries and no two records of the store share a
    signature, and the signature set holds the signature of every
    gallery entry. *)
Definition signaturesUnique (st : State) : Prop :=
  List.NoDup (map Entry.signature (imageEntries st))
  /\ (forall store, db st = Some store ->
        List.NoDup (map Slide.signature (getAll store)))
  /\ (forall e, In e (imageEntries st) -> Entry.signature e ∈ imageSignatures st).

(** ** Sample platform, files and states *)

(** A browser with PDF.js loaded.  The string/number conversions are
    not exercised by the samples. *)
Definition demoPlatform : Platform :=
  {| pdfSupported := true;
     Date_now := fun n => num (1700000000000 + Z.of_nat n);
     randomToken := fun n => pretty n;
     toISOString := fun _ => "2024-01-01T00:00:00.000Z";
     StringToNumber := fun _ => NaN;
     NumberToString := fun _ => "" |}.

(** The same browser when PDF.js failed to load. *)
Definition noPdfPlatform : Platform :=
  {| pdfSupported := false;
     Date_now := Date_now demoPlatform;
     randomToken := randomToken demoPlatform;
     toISOString := toISOString demoPlatform;
     StringToNumber := StringToNumber demoPlatform;
     NumberToString := NumberToString demoPlatform |}.

(** A freshly loaded page over an empty store. *)
Definition freshPage : State :=
  {| imageEntries := []; imageSignatures := ∅; db := Some ∅;
     delayRange := num 200; delayInput := num 200;
     localStorage := Some None; clock := 0; entropy := 0 |}.

Definition photo : File.t :=
  {| File.name := "cat.png"; File.type := "image/png"; File.size := 3;
     File.lastModified := 1699999999000;
     File.arrayBuffer := Some [x89; x50; x4e]%byte;
     File.json_text := None; File.pdf := None |}.

(** Other bytes under the same name, type, size and time. *)
Definition photoTwin : File.t :=
  {| File.name := "cat.png"; File.type := "image/png"; File.size := 3;
     File.lastModified := 1699999999000;
     File.arrayBuffer := Some [x00; x01; x02]%byte;
     File.json_text := None; File.pdf := None |}.

(** Two files whose names and types differ and whose signatures are
    both ["a::image/x::image/y::1::2"]. *)
Definition shiftedLeft : File.t :=
  {| File.name := "a"; File.type := "image/x::image/y"; File.size := 1;
     File.lastModified := 2; File.arrayBuffer := Some [x01]%byte;
     File.json_text := None; File.pdf := None |}.

Definition shiftedRight : File.t :=
  {| File.name := "a::image/x"; File.type := "image/y"; File.size := 1;
     File.lastModified := 2; File.arrayBuffer := Some [x02]%byte;
     File.json_text := None; File.pdf := None |}.

(** ** Page signatures *)

(** Two documents that differ in their pages and share name, type, size
    and last-modified time. *)
Definition reportA : File.t :=
  {| File.name := "report.pdf"; File.type := "application/pdf"; File.size := 4;
     File.lastModified := 1699999999000;
     File.arrayBuffer := Some [x25; x50; x44; x46]%byte;
     File.json_text := None;
     File.pdf := Some [PageImage {| Blob.type := "image/png";
                                    Blob.arrayBuffer := Some [x0a]%byte |}] |}.

Definition reportB : File.t :=
  {| File.name := "report.pdf"; File.type := "application/pdf"; File.size := 4;
     File.lastModified := 1699999999000;
     File.arrayBuffer := Some [x25; x50; x44; x47]%byte;
     File.json_text := None;
     File.pdf := Some [PageImage {| Blob.type := "image/png";
                                    Blob.arrayBuffer := Some [x0b]%byte |}] |}.

(** ** Documents without the rasterization capability *)

(** The files [addFiles] routes to the document branch. *)
Definition routedAsPdf (file : File.t) : bool :=
  negb (isPackageCandidate file) && negb (isImage file) && isPdf file.

(** [n] more files counted under [supported] and under [pdfUnsupported]. *)
Definition countPdfUnsupported (n : nat) (r : Batch.result) : Batch.result :=
  {| Batch.added := Batch.added r;
     Batch.supported := (n + Batch.supported r)%nat;
     Batch.unsupported := Batch.unsupported r;
     Batch.pdfUnsupported := (n + Batch.pdfUnsupported r)%nat;
     Batch.packageSlidesAdded := Batch.packageSlidesAdded r;
     Batch.packagesProcessed := Batch.packagesProcessed r;
     Batch.packageErrors := Batch.packageErrors r;
     Batch.packageSlidesTotal := Batch.packageSlidesTotal r |}.

(** A batch of a document, an image and a second document. *)
Definition mixedBatch : list File.t := [reportA; photo; reportB].

(** ** The format gate of the package codec *)

Definition package (name : string) (data : json) : File.t :=
  {| File.name := name; File.type := "application/json"; File.size := 0;
     File.lastModified := 0; File.arrayBuffer := None;
     File.json_text := Some data; File.pdf := None |}.

(** One slide entry: the bytes [01 02] under signature ["s1"]. *)
Definition slideOne : json :=
  JObj [("signature", JStr "s1"); ("label", JStr "one"); ("type", JStr "image/png");
        ("addedAt", JNum (num 1700000000001)); ("bytes", JStr "AQI=")].

Definition versionTwoData : json :=
  JObj [("version", JNum (num 2)); ("delay", JNum (num 50)); ("slides", JArr [slideOne])].

(** A package whose [version] is [true], not the number 1. *)
Definition looseVersionData : json :=
  JObj [("version", JBool true); ("delay", JNum (num 50)); ("slides", JArr [slideOne])].

(** ** The delay of an imported package *)

(** The delay setting: both controls and the stored value. *)
Definition delaySetting (st : State) : number * number * option (option number) :=
  (delayRange st, delayInput st, localStorage st).

(** A version-1 package whose only entry is corrupt. *)
Definition corruptOnlyData : json :=
  JObj [("version", JNum (num 1)); ("delay", JNum (num 5000));
        ("slides", JArr [JObj [("signature", JStr "bad"); ("bytes", JStr "!!!")]])].

(** [a] is not added later than [b]: [(a.addedAt || 0) <= (b.addedAt || 0)]. *)
Definition addedAt_le (a b : Slide.t) : Prop :=
  num_leb (num_or (Slide.addedAt a) (num 0)) (num_or (Slide.addedAt b) (num 0)) = true.

(** ** Restore *)

(** The blob [restorePersistedSlides] rebuilds for a record. *)
Definition restoredBlob (slide : Slide.t) : option Blob.t :=
  match Slide.blob slide with
  | Some blob => Some blob
  | None =>
      match Slide.bytes slide with
      | Some bytes =>
          Some (new_Blob bytes (str_or (Slide.type slide) "application/octet-stream"))
      | None => None
      end
  end.

(** A record the restore loop does not skip: it has a signature and a
    payload. *)
Definition restorable (slide : Slide.t) : bool :=
  negb (String.eqb (Slide.signature slide) "")
  && match restoredBlob slide with Some _ => true | None => false end.

(** A record the restore loop registers on a page that knows the
    signatures [known]. *)
Definition restores (known : gset string) (slide : Slide.t) : bool :=
  restorable slide && bool_decide (Slide.signature slide ∉ known).

(** The gallery entry of a restored record. *)
Definition restoredEntry (slide : Slide.t) : Entry.t :=
  {| Entry.url := match restoredBlob slide with
                  | Some blob => blob
                  | None => new_Blob [] ""
                  end;
     Entry.signature := Slide.signature slide;
     Entry.label := str_or (Slide.label slide) "Image" |}.

Definition storedSlide (signature : string) (addedAt : Z) (bytes : list byte) : Slide.t :=
  {| Slide.signature := signature; Slide.label := signature;
     Slide.addedAt := num addedAt; Slide.bytes := Some bytes;
     Slide.type := "image/png"; Slide.blob := None |}.

(** Three records whose key order differs from their [addedAt] order. *)
Definition threeSlides : gmap string Slide.t :=
  put (storedSlide "a.png" 30 [x01]%byte)
    (put (storedSlide "b.png" 10 [x02; x03]%byte)
       (put (storedSlide "c.png" 20 []%byte) ∅)).

(** A page that has just loaded over [threeSlides]. *)
Definition startupPage : State :=
  {| imageEntries := []; imageSignatures := ∅; db := Some threeSlides;
     delayRange := num 200; delayInput := num 200;
     localStorage := Some None; clock := 0; entropy := 0 |}.

(** A session: restore at startup, a batch with a repeated image and a
    document, then a reset and the image again. *)
Definition demoSession : list operation :=
  [RestorePersistedSlides; AddFiles [photo; photoTwin; reportA]; ResetGallery;
   AddImageFile photo; AddImageFile photoTwin].

Definition demoSessionEnd : State :=
  fold_left (fun st op => perform demoPlatform op st) demoSession startupPage.

(** ** The slide loop of the package decoder *)

(** The payload of a slide entry, when its [bytes] is a string that
    [atob] accepts. *)
Definition decodeSlide (slide : json) : option (list byte) :=
  match member "bytes" slide with
  | Some (JStr bytes) => base64ToArrayBuffer bytes
  | _ => None
  end.

Definition decodable (slide : json) : bool :=
  match decodeSlide slide with Some _ => true | None => false end.

Definition slideSignature (slide : json) : string := string_member "signature" slide.

Definition importedBlob (slide : json) (buffer : list byte) : Blob.t :=
  new_Blob buffer (str_or (string_member "type" slide) "application/octet-stream").



(** The state after a decodable entry with a new signature of its own. *)
Definition importedState (pf : Platform) (slide : json) (buffer : list byte)
    (st : State) : State :=
  let t := number_member "addedAt" slide in
  registered (importedBlob slide buffer) (str_or (string_member "label" slide) "Image")
             (slideSignature slide) true
             (if num_falsy t then Date_now pf (clock st) else t)
             (if num_falsy t then tick_clock st else st).






Definition slideEntry (signature bytes : string) : json :=
  JObj [("signature", JStr signature); ("label", JStr signature);
        ("type", JStr "image/png"); ("addedAt", JNum (num 1700000000000));
        ("bytes", JStr bytes)].

(** Five decodable entries around one whose [bytes] is not base64. *)
Definition fiveOfSixSlides : list json :=
  [slideEntry "s1" "AQ=="; slideEntry "s2" "AQI="; slideEntry "s3" "@@@";
   slideEntry "s4" "AQID"; slideEntry "s5" ""; slideEntry "s6" "/w=="].

Definition fiveOfSixData : json :=
  JObj [("version", JNum (num 1)); ("slides", JArr fiveOfSixSlides)].

(** ** Round trip of the package codec *)

(** A record as [saveSlideRecord] writes it: a signature, a label and a
    blob type that are not empty (the type as [Blob] normalizes it), a
    finite non-zero [addedAt], its bytes and no [blob]. *)
Definition wellFormed (r : Slide.t) : bool :=
  negb (String.eqb (Slide.signature r) "")
  && negb (String.eqb (Slide.label r) "")
  && negb (String.eqb (Slide.type r) "")
  && String.eqb (normalizeType (Slide.type r)) (Slide.type r)
  && match Slide.addedAt r with Fin q => negb (Qeq_bool q 0) | _ => false end
  && match Slide.bytes r with Some _ => true | None => false end
  && match Slide.blob r with None => true | Some _ => false end.


(** A document of two pages, the second of which fails to render. *)
Definition brochure : File.t :=
  {| File.name := "brochure.pdf"; File.type := "application/pdf"; File.size := 9;
     File.lastModified := 1699999990000;
     File.arrayBuffer := Some [x25; x50; x44; x46]%byte;
     File.json_text := None;
     File.pdf := Some [PageImage {| Blob.type := "image/png";
                                    Blob.arrayBuffer := Some [x89; x01]%byte |};
                       PageRenderFails;
                       PageImage {| Blob.type := "image/png";
                                    Blob.arrayBuffer := Some []%byte |}] |}.

(** The page after a session ingested a document and two images. *)
Definition ingestedPage : State :=
  snd (addFiles demoPlatform [brochure; shiftedLeft; photo; photoTwin] freshPage).

(** The package exported from [startupPage]. *)
Definition exportedFile : File.t :=
  {| File.name := "lightning-slideshow-export.json"; File.type := "application/json";
     File.size := 0; File.lastModified := 0; File.arrayBuffer := None;
     File.json_text := fst (exportPackage demoPlatform startupPage);
     File.pdf := None |}.

(** * The handlers around the pipeline *)

(** ** Dropped and pasted data *)

(** A [DataTransfer]: its [files], and its [items] with their [kind]
    and what [getAsFile()] returns ([None] is [null]).  A missing list
    is the empty one. *)
Module DataTransfer.
Record item : Type := {
  kind : string;
  getAsFile : option File.t
}.
Record t : Type := {
  files : list File.t;
  items : list item
}.
End DataTransfer.

(** [collectFilesFromDataTransfer(data)]; [None] is a missing [data]. *)
Definition collectFilesFromDataTransfer (data : option DataTransfer.t) : list File.t :=
  match data with
  | None => []
  | Some data =>
      DataTransfer.files data
      ++ omap DataTransfer.getAsFile
           (List.filter (fun item => String.eqb (DataTransfer.kind item) "file")
                        (DataTransfer.items data))
  end.

(** ** Status messages

    The four handlers that call [addFiles] (drop, file input, paste and
    the clipboard button) build the status from the counts with the same
    sequence of tests; they differ in wording, the clipboard button does
    not tell an empty package from a known one, and the two clipboard
    handlers fall back on a fixed text. *)

Inductive origin : Type :=
  | Dropped
  | Selected
  | Pasted
  | ClipboardRead.

Definition fromClipboard (o : origin) : bool :=
  match o with
  | Pasted | ClipboardRead => true
  | Dropped | Selected => false
  end.

(** [n === 1 ? "" : "s"] *)
Definition plural (n : nat) : string := if (n =? 1)%nat then "" else "s".

(** The array [messages] of a handler. *)
Definition messages (o : origin) (result : Batch.result) : list string :=
  (if (0 <? Batch.added result)%nat then
     [("Added " ++ pretty (Batch.added result) ++ " slide" ++ plural (Batch.added result)
       ++ (if fromClipboard o then " from the clipboard." else ".")
       ++ (if (0 <? Batch.packageSlidesAdded result)%nat then
             " (" ++ pretty (Batch.packageSlidesAdded result) ++ " from saved package"
             ++ plural (Batch.packageSlidesAdded result) ++ ".)"
           else ""))%string]
   else [])
  ++ (if (0 <? Batch.supported result)%nat && (Batch.added result =? 0)%nat
         && (Batch.pdfUnsupported result =? 0)%nat then
        [match o with
         | Dropped => "Everything was already added."
         | Selected => "No new slides to add."
         | Pasted | ClipboardRead => "Everything from the clipboard is already added."
         end]
      else [])
  ++ (if (0 <? Batch.packageErrors result)%nat then
        ["Some saved packages could not be read."]
      else [])
  ++ (if (0 <? Batch.packagesProcessed result)%nat
         && (Batch.packageSlidesAdded result =? 0)%nat then
        [match o with
         | ClipboardRead => "Saved package already loaded."
         | Dropped | Selected | Pasted =>
             if (0 <? Batch.packageSlidesTotal result)%nat
             then "Saved package already loaded."
             else "Saved package contained no slides."
         end]
      else [])
  ++ (if (0 <? Batch.pdfUnsupported result)%nat then
        ["PDF support is not available in this browser."]
      else [])
  ++ (if (0 <? Batch.unsupported result)%nat then
        [((if fromClipboard o then "The clipboard held " else "Skipped ")
          ++ pretty (Batch.unsupported result) ++ " unsupported file"
          ++ plural (Batch.unsupported result) ++ ".")%string]
      else []).

(** What the handler passes to [showStatus]; [None] when it calls
    [updateDropZoneMessage] instead. *)
Definition status (o : origin) (result : Batch.result) : option string :=
  let text := String.concat " " (messages o result) in
  if fromClipboard o then
    Some (if String.eqb text "" then "Found no supported files in the clipboard." else text)
  else
    match messages o result with
    | [] => None
    | _ :: _ => Some text
    end.

(** ** Delay controls *)

(** The [input] listener of the slider. *)
Definition syncDelayFromRange : M unit :=
  let* value := gets delayRange in
  applyDelay value true.

(** The [input] listener of the number field; [delayInput] holds what
    [Number(delayInput.value)] gives for the text typed. *)
Definition syncDelayFromInput : M unit :=
  let* value := gets delayInput in
  match value with
  | NaN =>
      let* range := gets delayRange in
      applyDelay range false
  | _ =>
      let clamped := Math_min (num 2000) (Math_max (num 0) value) in
      applyDelay clamped true
  end.


(** A page load: the gallery starts empty over the store and the
    stored delay the last session left; the controls show what the
    document gives them. *)
Definition reloaded (st st' : State) : Prop :=
  imageEntries st' = [] /\ imageSignatures st' = ∅
  /\ db st' = db st /\ localStorage st' = localStorage st.

(** Both controls show one delay between 0 and 2000. *)
Definition validDelay (st : State) : Prop :=
  delayInput st = delayRange st
  /\ num_leb (num 0) (delayRange st) = true
  /\ num_leb (delayRange st) (num 2000) = true.

(** ** Saving *)

(** [s.replace(/[:]/g, "-")] *)
Fixpoint replaceColons (s : string) : string :=
  match s with
  | EmptyString => EmptyString
  | String c s' => String (if Ascii.eqb c ":" then "-"%char else c) (replaceColons s')
  end.

(** [`lightning-slideshow-${timestamp}.json`] *)
Definition suggestedName (isoString : string) : string :=
  ("lightning-slideshow-" ++ replaceColons isoString ++ ".json")%string.

(** What becomes of [window.showSaveFilePicker]: it is missing, the
    user picks a file that is then written, the user cancels
    ([AbortError]), or the picker or the write fails otherwise. *)
Inductive SavePicker : Type :=
  | NoPicker
  | PickerWrites (name : string)
  | PickerAborts
  | PickerFails.

Section Saving.
Context (pf : Platform).

(** [handleSaveClick]: the name and contents of the file written, if
    one is, and the status shown.  The contents are given as the value
    their text parses to. *)
Definition handleSaveClick (picker : SavePicker) : M (option (string * json) * string) :=
  let* payload := buildExportPayload pf in
  let fileContents := JSON_reparse payload in
  let* timestamp := now pf in
  let suggested := suggestedName (toISOString pf timestamp) in
  let messageCount := length (items_of (member "slides" payload)) in
  let saved :=
    ("Saved " ++ pretty messageCount ++ " slide" ++ plural messageCount ++ ".")%string in
  match picker with
  | PickerWrites name => ret (Some (name, fileContents), saved)
  | PickerAborts => ret (None, "Save cancelled.")
  | PickerFails | NoPicker => ret (Some (suggested, fileContents), saved)
  end.

End Saving.

(** ** Vocabulary: how a computation changes the gallery *)

(** From [st] to [st'] the gallery gained [n] entries at its end and
    lost none, no signature was forgotten, and when nothing was gained
    the signature set and the store are as they were. *)
Definition grows (n : nat) (st st' : State) : Prop :=
  (exists new, imageEntries st' = imageEntries st ++ new /\ length new = n)
  /\ imageSignatures st ⊆ imageSignatures st'
  /\ (n = 0%nat -> imageSignatures st' = imageSignatures st /\ db st' = db st).

(** The counts of a batch of [n] files add up. *)
Record accounted (n : nat) (r : Batch.result) : Prop := {
  acc_files :
    (Batch.unsupported r + Batch.packagesProcessed r + Batch.supported r
     = n + Batch.packageSlidesTotal r)%nat;
  acc_packages : (Batch.packageErrors r + Batch.packagesProcessed r <= n)%nat;
  acc_errors : (Batch.packageErrors r <= Batch.unsupported r)%nat;
  acc_total : (Batch.pdfUnsupported r + Batch.packageSlidesTotal r <= Batch.supported r)%nat;
  acc_package_added : (Batch.packageSlidesAdded r <= Batch.packageSlidesTotal r)%nat;
  acc_added : (Batch.packageSlidesAdded r <= Batch.added r)%nat
}.

(** The files [addFiles] routes to [addImageFile]. *)
Definition routedAsImage (file : File.t) : bool :=
  negb (isPackageCandidate file) && isImage file.

(** The item a browser lists for a dropped file. *)
Definition fileItem (file : File.t) : DataTransfer.item :=
  {| DataTransfer.kind := "file"; DataTransfer.getAsFile := Some file |}.

(** The gallery entries of the pages of a document that come out as
    images, numbered from [pageNumber]. *)
Fixpoint pageEntries (file : File.t) (pages : list PageOutcome) (pageNumber : N)
    : list Entry.t :=
  match pages with
  | [] => []
  | page :: rest =>
      match page with
      | PageImage blob =>
          [{| Entry.url := blob;
              Entry.signature := pageSignature file pageNumber;
              Entry.label :=
                (str_or (File.name file) "PDF" ++ " - page " ++ pretty pageNumber)%string |}]
      | _ => []
      end ++ pageEntries file rest (pageNumber + 1)%N
  end.

(** [counting f m]: the result of [m] tells, through [f], how many
    entries it added. *)
Definition counting {A} (f : A -> nat) (m : M A) : Prop :=
  forall st, grows (f (fst (m st))) st (snd (m st)).

(** The count of a registration: one entry when it succeeded. *)
Definition one (b : bool) : nat := if b then 1%nat else 0%nat.

(** The pages a call of [addPdfFile] reports as added. *)
Definition pagesAdded (r : option (nat * nat)) : nat :=
  match r with Some (n, _) => n | None => 0%nat end.

(** [n] more files counted under [supported] and nowhere else. *)
Definition countSupported (n : nat) (r : Batch.result) : Batch.result :=
  {| Batch.added := Batch.added r;
     Batch.supported := (n + Batch.supported r)%nat;
     Batch.unsupported := Batch.unsupported r;
     Batch.pdfUnsupported := Batch.pdfUnsupported r;
     Batch.packageSlidesAdded := Batch.packageSlidesAdded r;
     Batch.packagesProcessed := Batch.packagesProcessed r;
     Batch.packageErrors := Batch.packageErrors r;
     Batch.packageSlidesTotal := Batch.packageSlidesTotal r |}.

(** A drop of two images, as a browser reports it. *)
Definition twoImagesDropped : DataTransfer.t :=
  {| DataTransfer.files := [photo; shiftedLeft];
     DataTransfer.items := map fileItem [photo; shiftedLeft] |}.

(** Every entry that decodes brings a signature. *)
Definition signedSlides (slides : list json) : bool :=
  forallb (fun slide => negb (decodable slide)
                        || negb (String.eqb (slideSignature slide) "")) slides.

(** [slide.bytes] is there. *)
Definition hasBytes (slide : Slide.t) : bool :=
  match Slide.bytes slide with Some _ => true | None => false end.

(** A file with the given name and contents. *)
Definition savedAs (name : string) (contents : json) : File.t :=
  {| File.name := name; File.type := ""; File.size := 0; File.lastModified := 0;
     File.arrayBuffer := None; File.json_text := Some contents; File.pdf := None |}.

(** The name and contents [handleSaveClick] writes from [startupPage]
    in a browser without a save picker. *)
Definition savedName : string :=
  suggestedName (toISOString demoPlatform (Date_now demoPlatform 1)).

Definition savedContents : json :=
  JSON_reparse (fst (buildExportPayload demoPlatform startupPage)).

(** The record [saveSlideRecord] writes. *)
Definition slideRecord (signature label : string) (blob : Blob.t) (addedAt : number)
    (bytes : list byte) : Slide.t :=
  {| Slide.signature := signature;
     Slide.label := label;
     Slide.addedAt := addedAt;
     Slide.bytes := Some bytes;
     Slide.type := str_or (Blob.type blob) "application/octet-stream";
     Slide.blob := None |}.

(** A page loaded after a reset: nothing stored, the delay stored at
    its default, the controls at zero. *)
Definition pageAfterReset : State :=
  {| imageEntries := []; imageSignatures := ∅; db := Some ∅;
     delayRange := num 0; delayInput := num 0;
     localStorage := Some (Some (num 200)); clock := 0; entropy := 0 |}.

(** A page loaded after [photo] was added to [freshPage]. *)
Definition pageAfterPhoto : State :=
  {| imageEntries := []; imageSignatures := ∅;
     db := Some (put (slideRecord (fileSignature photo) "cat.png" (File.blob photo)
                                  (num 1700000000000) [x89; x50; x4e]%byte) ∅);
     delayRange := num 200; delayInput := num 200;
     localStorage := Some None; clock := 0; entropy := 0 |}.

(** A page loaded after the delay was set to 750. *)
Definition pageAfterDelay : State :=
  {| imageEntries := []; imageSignatures := ∅; db := Some ∅;
     delayRange := num 0; delayInput := num 0;
     localStorage := Some (Some (num 750)); clock := 0; entropy := 0 |}.

(** * The slideshow

    The player of [app.js]: [startSlideshow], [showNextImage],
    [scheduleNextFrame], [clearTimers], [stopSlideshow], and what
    [resetGallery], [addFiles] and [restorePersistedSlides] do to it.
    The browser's timers are modelled by the callbacks it still holds;
    a call of [startSlideshow] that waits for the fullscreen request is
    a suspended continuation.  Left out: the fullscreen state itself
    and the class lists of the loader and the stage. *)

Module Timers.
Record t : Type := {
  (** [slideshowTimeout] and [slideshowRaf]; [None] is [null] *)
  slideshowTimeout : option positive;
  slideshowRaf : option positive;
  (** the callbacks of [showNextImage] that the browser holds: the
      timeouts with their delays, and the animation frames *)
  timeouts : list (positive * number);
  animationFrames : list positive;
  (** the number of handles issued so far (one sequence for both
      kinds: no handle is issued twice) *)
  handles : N
}.

Definition none : t :=
  {| slideshowTimeout := None; slideshowRaf := None;
     timeouts := []; animationFrames := []; handles := 0 |}.

(** [slideshowTimeout = setTimeout(showNextImage, delay)] *)
Definition setTimeout (delay : number) (tm : t) : t :=
  let id := N.succ_pos (handles tm) in
  {| slideshowTimeout := Some id; slideshowRaf := slideshowRaf tm;
     timeouts := timeouts tm ++ [(id, delay)];
     animationFrames := animationFrames tm;
     handles := N.succ (handles tm) |}.

(** [slideshowRaf = requestAnimationFrame(showNextImage)] *)
Definition requestAnimationFrame (tm : t) : t :=
  let id := N.succ_pos (handles tm) in
  {| slideshowTimeout := slideshowTimeout tm; slideshowRaf := Some id;
     timeouts := timeouts tm;
     animationFrames := animationFrames tm ++ [id];
     handles := N.succ (handles tm) |}.

(** [clearTimers] *)
Definition clearTimers (tm : t) : t :=
  let tm1 :=
    match slideshowTimeout tm with
    | Some id =>
        {| slideshowTimeout := None; slideshowRaf := slideshowRaf tm;
           timeouts := List.filter (fun t => negb (Pos.eqb (fst t) id)) (timeouts tm);
           animationFrames := animationFrames tm;
           handles := handles tm |}
    | None => tm
    end in
  match slideshowRaf tm1 with
  | Some id =>
      {| slideshowTimeout := slideshowTimeout tm1; slideshowRaf := None;
         timeouts := timeouts tm1;
         animationFrames := List.filter (fun f => negb (Pos.eqb f id)) (animationFrames tm1);
         handles := handles tm1 |}
  | None => tm1
  end.

(** The browser takes a timeout, or an animation frame, off its list
    when it runs the callback. *)
Definition fireTimeout (id : positive) (tm : t) : t :=
  {| slideshowTimeout := slideshowTimeout tm; slideshowRaf := slideshowRaf tm;
     timeouts := List.filter (fun t => negb (Pos.eqb (fst t) id)) (timeouts tm);
     animationFrames := animationFrames tm;
     handles := handles tm |}.

Definition fireFrame (id : positive) (tm : t) : t :=
  {| slideshowTimeout := slideshowTimeout tm; slideshowRaf := slideshowRaf tm;
     timeouts := timeouts tm;
     animationFrames := List.filter (fun f => negb (Pos.eqb f id)) (animationFrames tm);
     handles := handles tm |}.

(** The number of callbacks the browser holds. *)
Definition pending (tm : t) : nat :=
  (length (timeouts tm) + length (animationFrames tm))%nat.
End Timers.

Module Show.
Record t : Type := {
  page : State;
  isRunning : bool;
  currentIndex : nat;
  timers : Timers.t;
  (** calls of [startSlideshow] that wait for the fullscreen request *)
  suspended : nat;
  (** [startBtn.disabled] *)
  startDisabled : bool;
  (** [stageImage.src] (the object URL stands for its blob) and
      [stageImage.alt]; [None] when the attribute is removed *)
  stageSrc : option Blob.t;
  stageAlt : option string
}.
End Show.

Definition set_timers (tm : Timers.t) (sh : Show.t) : Show.t :=
  {| Show.page := Show.page sh; Show.isRunning := Show.isRunning sh;
     Show.currentIndex := Show.currentIndex sh; Show.timers := tm;
     Show.suspended := Show.suspended sh; Show.startDisabled := Show.startDisabled sh;
     Show.stageSrc := Show.stageSrc sh; Show.stageAlt := Show.stageAlt sh |}.

Definition set_page (st : State) (sh : Show.t) : Show.t :=
  {| Show.page := st; Show.isRunning := Show.isRunning sh;
     Show.currentIndex := Show.currentIndex sh; Show.timers := Show.timers sh;
     Show.suspended := Show.suspended sh; Show.startDisabled := Show.startDisabled sh;
     Show.stageSrc := Show.stageSrc sh; Show.stageAlt := Show.stageAlt sh |}.

Definition set_startDisabled (disabled : bool) (sh : Show.t) : Show.t :=
  {| Show.page := Show.page sh; Show.isRunning := Show.isRunning sh;
     Show.currentIndex := Show.currentIndex sh; Show.timers := Show.timers sh;
     Show.suspended := Show.suspended sh; Show.startDisabled := disabled;
     Show.stageSrc := Show.stageSrc sh; Show.stageAlt := Show.stageAlt sh |}.

Definition set_suspended (n : nat) (sh : Show.t) : Show.t :=
  {| Show.page := Show.page sh; Show.isRunning := Show.isRunning sh;
     Show.currentIndex := Show.currentIndex sh; Show.timers := Show.timers sh;
     Show.suspended := n; Show.startDisabled := Show.startDisabled sh;
     Show.stageSrc := Show.stageSrc sh; Show.stageAlt := Show.stageAlt sh |}.

(** [imageEntries.length === 0] *)
Definition galleryEmpty (st : State) : bool :=
  match imageEntries st with [] => true | _ :: _ => false end.

(** [scheduleNextFrame] *)
Definition scheduleNextFrame (sh : Show.t) : Show.t :=
  let delay := delayRange (Show.page sh) in
  if num_leb delay (num 0)
  then set_timers (Timers.requestAnimationFrame (Show.timers sh)) sh
  else set_timers (Timers.setTimeout delay (Show.timers sh)) sh.

(** [stopSlideshow] *)
Definition stopSlideshow (sh : Show.t) : Show.t :=
  if negb (Show.isRunning sh) then sh
  else
    {| Show.page := Show.page sh; Show.isRunning := false;
       Show.currentIndex := Show.currentIndex sh;
       Show.timers := Timers.clearTimers (Show.timers sh);
       Show.suspended := Show.suspended sh;
       Show.startDisabled := galleryEmpty (Show.page sh);
       Show.stageSrc := None; Show.stageAlt := None |}.

(** [showNextImage]; [None] when it throws, which it does when
    [imageEntries[currentIndex]] is [undefined]. *)
Definition showNextImage (sh : Show.t) : option Show.t :=
  if negb (Show.isRunning sh) then Some sh
  else if galleryEmpty (Show.page sh) then Some (stopSlideshow sh)
  else
    match imageEntries (Show.page sh) !! Show.currentIndex sh with
    | None => None
    | Some entry =>
        Some (scheduleNextFrame
                {| Show.page := Show.page sh; Show.isRunning := Show.isRunning sh;
                   Show.currentIndex :=
                     ((Show.currentIndex sh + 1)
                      mod length (imageEntries (Show.page sh)))%nat;
                   Show.timers := Show.timers sh;
                   Show.suspended := Show.suspended sh;
                   Show.startDisabled := Show.startDisabled sh;
                   Show.stageSrc := Some (Entry.url entry);
                   Show.stageAlt := Some (str_or (Entry.label entry) "Slideshow image") |})
    end.

(** [startSlideshow] up to its [await]: nothing happens when the show
    runs or the gallery is empty; otherwise the call is suspended until
    the fullscreen request settles. *)
Definition startSlideshow_begin (sh : Show.t) : Show.t :=
  if Show.isRunning sh || galleryEmpty (Show.page sh) then sh
  else
    {| Show.page := Show.page sh; Show.isRunning := true;
       Show.currentIndex := 0;
       Show.timers := Show.timers sh;
       Show.suspended := S (Show.suspended sh);
       Show.startDisabled := true;
       Show.stageSrc := Show.stageSrc sh; Show.stageAlt := Show.stageAlt sh |}.

(** The rest of [startSlideshow], once the request has settled either
    way. *)
Definition startSlideshow_resume (sh : Show.t) : option Show.t :=
  showNextImage (set_suspended (pred (Show.suspended sh)) sh).

(** [startSlideshow] when nothing else happens while it waits, or when
    it has nothing to wait for. *)
Definition startSlideshow (sh : Show.t) : option Show.t :=
  if Show.isRunning sh || galleryEmpty (Show.page sh) then Some sh
  else startSlideshow_resume (startSlideshow_begin sh).

(** [resetGallery], with what it does to the player; what follows its
    [await] touches the store and the delay only. *)
Definition resetGallery_show (sh : Show.t) : Show.t :=
  let sh1 := stopSlideshow sh in
  {| Show.page := snd (resetGallery (Show.page sh1));
     Show.isRunning := Show.isRunning sh1;
     Show.currentIndex := 0;
     Show.timers := Timers.clearTimers (Show.timers sh1);
     Show.suspended := Show.suspended sh1;
     Show.startDisabled := true;
     Show.stageSrc := Show.stageSrc sh1; Show.stageAlt := Show.stageAlt sh1 |}.

(** [addFiles], with its last step: the start button follows the
    gallery, unless the show runs. *)
Definition addFiles_show (pf : Platform) (files : list File.t) (sh : Show.t)
    : Batch.result * Show.t :=
  match files with
  | [] => (Batch.zero, sh)
  | _ :: _ =>
      let (result, st) := addFiles pf files (Show.page sh) in
      let sh1 := set_page st sh in
      (result,
       if (0 <? Batch.added result)%nat then
         if negb (Show.isRunning sh1)
         then set_startDisabled (galleryEmpty st) sh1
         else sh1
       else if galleryEmpty st then set_startDisabled true sh1
       else sh1)
  end.

(** [restorePersistedSlides], with its last step. *)
Definition restorePersistedSlides_show (pf : Platform) (sh : Show.t) : Show.t :=
  let st := snd (restorePersistedSlides pf (Show.page sh)) in
  set_startDisabled (galleryEmpty st) (set_page st sh).

(** What happens to a page. *)
Inductive event : Type :=
  | StartClicked
  | FullscreenSettled
  | TimeoutFired (id : positive)
  | FrameFired (id : positive)
  | EscapePressed
  | ResetClicked
  | FilesAdded (files : list File.t)
  (** a step of the pipeline on its own, between two steps of the
      player *)
  | PipelineStep (op : operation).

(** The handler of an event; [None] when it throws. *)
Definition handle (pf : Platform) (ev : event) (sh : Show.t) : option Show.t :=
  match ev with
  | StartClicked => Some (startSlideshow_begin sh)
  | FullscreenSettled => startSlideshow_resume sh
  | TimeoutFired id => showNextImage (set_timers (Timers.fireTimeout id (Show.timers sh)) sh)
  | FrameFired id => showNextImage (set_timers (Timers.fireFrame id (Show.timers sh)) sh)
  | EscapePressed => Some (stopSlideshow sh)
  | ResetClicked => Some (resetGallery_show sh)
  | FilesAdded files => Some (snd (addFiles_show pf files sh))
  | PipelineStep op => Some (set_page (perform pf op (Show.page sh)) sh)
  end.

(** The pipeline operations that leave the gallery alone, or only add
    to it. *)
Definition additive (op : operation) : bool :=
  match op with
  | ResetGallery | BeforeUnload => false
  | _ => true
  end.

Definition galleryNeutral (op : operation) : bool :=
  match op with
  | BuildExportPayload | ApplyDelay _ _ | RestoreDelaySetting => true
  | _ => false
  end.

(** Two ways of running a page.  [Interleaved]: events come in any
    order the browser allows, also between the steps of an asynchronous
    function.  [Settled]: every asynchronous function has finished when
    the next event is handled. *)
Inductive mode : Type :=
  | Interleaved
  | Settled.

(** The events that can happen in a state: a callback fires only
    while the browser holds it, a fullscreen request settles only
    while a call waits for it, and the page is never used after
    [beforeunload]. *)
Definition enabled (m : mode) (ev : event) (sh : Show.t) : bool :=
  match m, ev with
  | _, FullscreenSettled => (0 <? Show.suspended sh)%nat
  | Settled, _ =>
      (Show.suspended sh =? 0)%nat
      && match ev with
         | TimeoutFired id =>
             existsb (fun t => Pos.eqb (fst t) id) (Timers.timeouts (Show.timers sh))
         | FrameFired id =>
             existsb (Pos.eqb id) (Timers.animationFrames (Show.timers sh))
         | PipelineStep op => galleryNeutral op
         | _ => true
         end
  | Interleaved, TimeoutFired id =>
      existsb (fun t => Pos.eqb (fst t) id) (Timers.timeouts (Show.timers sh))
  | Interleaved, FrameFired id =>
      existsb (Pos.eqb id) (Timers.animationFrames (Show.timers sh))
  | Interleaved, PipelineStep op => additive op
  | Interleaved, _ => true
  end.

(** A page after its startup: the slides are restored, the show does
    not run, and the browser holds no callback. *)
Definition started (sh : Show.t) : bool :=
  negb (Show.isRunning sh)
  && (Show.currentIndex sh =? 0)%nat
  && (Timers.pending (Show.timers sh) =? 0)%nat
  && (Show.suspended sh =? 0)%nat
  && Bool.eqb (Show.startDisabled sh) (galleryEmpty (Show.page sh)).

(** The states a page passes through. *)
Inductive plays (pf : Platform) (m : mode) : Show.t -> Prop :=
  | plays_started sh : started sh = true -> plays pf m sh
  | plays_event sh ev sh' :
      plays pf m sh -> enabled m ev sh = true -> handle pf ev sh = Some sh' ->
      plays pf m sh'.

(** The callback the browser runs next, when it holds one. *)
Definition tick (pf : Platform) (sh : Show.t) : option Show.t :=
  match Timers.timeouts (Show.timers sh), Timers.animationFrames (Show.timers sh) with
  | (id, _) :: _, _ => handle pf (TimeoutFired id) sh
  | [], id :: _ => handle pf (FrameFired id) sh
  | [], [] => None
  end.

Fixpoint ticks (pf : Platform) (n : nat) (sh : Show.t) : option Show.t :=
  match n with
  | O => Some sh
  | S n' =>
      match ticks pf n' sh with
      | Some sh' => tick pf sh'
      | None => None
      end
  end.

(** The index is inside the gallery, or at its start. *)
Definition indexed (sh : Show.t) : Prop :=
  Show.currentIndex sh = 0%nat
  \/ (Show.currentIndex sh < length (imageEntries (Show.page sh)))%nat.

(** A page that shows two slides, not running. *)
Definition galleryOfTwo : State :=
  {| imageEntries :=
       [{| Entry.url := new_Blob [x01]%byte "image/png"; Entry.signature := "one";
           Entry.label := "first" |};
        {| Entry.url := new_Blob [x02]%byte "image/png"; Entry.signature := "two";
           Entry.label := "" |}];
     imageSignatures := {[ "one" ]} ∪ {[ "two" ]}; db := None;
     delayRange := num 200; delayInput := num 200;
     localStorage := None; clock := 0; entropy := 0 |}.

Definition showOfTwo : Show.t :=
  {| Show.page := galleryOfTwo;
     Show.isRunning := false; Show.currentIndex := 0;
     Show.timers := Timers.none; Show.suspended := 0;
     Show.startDisabled := false; Show.stageSrc := None; Show.stageAlt := None |}.

(** The page when its scripts have run: the delay and the slides are
    restored over what the document and the last session left. *)
Definition startup (pf : Platform) (st : State) (disabled : bool) : Show.t :=
  restorePersistedSlides_show pf
    {| Show.page := snd (restoreDelaySetting st);
       Show.isRunning := false; Show.currentIndex := 0;
       Show.timers := Timers.none; Show.suspended := 0;
       Show.startDisabled := disabled; Show.stageSrc := None; Show.stageAlt := None |}.

(** The browser holds no callback. *)
Definition idle (tm : Timers.t) : Prop :=
  Timers.timeouts tm = [] /\ Timers.animationFrames tm = [].

(** The browser holds one callback, and it is the one the page
    remembers. *)
Definition chained (tm : Timers.t) : Prop :=
  (exists id delay,
     Timers.timeouts tm = [(id, delay)] /\ Timers.animationFrames tm = []
     /\ Timers.slideshowTimeout tm = Some id)
  \/ (exists id,
        Timers.timeouts tm = [] /\ Timers.animationFrames tm = [id]
        /\ Timers.slideshowRaf tm = Some id).

(** What holds of a page whose asynchronous functions have finished. *)
Record settled (sh : Show.t) : Prop := {
  settled_suspended : (Show.suspended sh <= 1)%nat;
  settled_waiting :
    Show.suspended sh = 1%nat -> Show.isRunning sh = true /\ idle (Show.timers sh);
  settled_running :
    Show.suspended sh = 0%nat -> Show.isRunning sh = true -> chained (Show.timers sh);
  settled_stopped : Show.isRunning sh = false -> idle (Show.timers sh);
  settled_button :
    Show.startDisabled sh = Show.isRunning sh || galleryEmpty (Show.page sh)
}.

(** * The service worker

    The three listeners of [service-worker.js].  A cache maps request
    URLs to responses; the cache storage is the list of its named
    caches in the order of their creation, which is the order in which
    [caches.match] searches them.  A request is named by its URL as the
    asset list spells it.  The network is what [fetch] gives for a
    URL ([None] when it rejects). *)

Module Response.
Record t : Type := {
  ok : bool;
  body : string
}.
End Response.

Module Caches.
Definition cache : Type := gmap string Response.t.

Definition t : Type := list (string * cache).

(** [caches.open(name)]: the cache of that name, created when there is
    none. *)
Definition open (name : string) (cs : t) : t :=
  if existsb (fun c => String.eqb (fst c) name) cs then cs else cs ++ [(name, ∅)].

(** [caches.keys()] *)
Definition keys (cs : t) : list string := map fst cs.

(** [caches.delete(name)] *)
Definition delete (name : string) (cs : t) : t :=
  List.filter (fun c => negb (String.eqb (fst c) name)) cs.

(** The cache of a name. *)
Definition lookup (name : string) (cs : t) : option cache :=
  match List.find (fun c => String.eqb (fst c) name) cs with
  | Some c => Some (snd c)
  | None => None
  end.

(** The cache of a name gets new contents. *)
Definition store (name : string) (contents : cache) (cs : t) : t :=
  map (fun c => if String.eqb (fst c) name then (fst c, contents) else c) cs.

(** [caches.match(request)]: the response of the first cache that
    holds the request. *)
Fixpoint match_ (url : string) (cs : t) : option Response.t :=
  match cs with
  | [] => None
  | c :: rest =>
      match snd c !! url with
      | Some response => Some response
      | None => match_ url rest
      end
  end.
End Caches.

Module ServiceWorker.

Definition CACHE_NAME : string := "lightning-slideshow-v6".

Definition ASSETS : list string :=
  ["./"; "./index.html"; "./style.css"; "./app.js"; "./manifest.webmanifest";
   "./icons/icon.svg"; "./icons/icon-192.png"; "./icons/icon-512.png";
   "./vendor/pdfjs/pdf.min.js"; "./vendor/pdfjs/pdf.worker.min.js"].

Section Worker.
Context (network : string -> option Response.t).

(** What [cache.addAll] fetches: every response, or nothing when a
    request fails or a response is not [ok]. *)
Fixpoint fetchAll (urls : list string) : option (list (string * Response.t)) :=
  match urls with
  | [] => Some []
  | url :: rest =>
      match network url with
      | Some response =>
          if Response.ok response then
            match fetchAll rest with
            | Some responses => Some ((url, response) :: responses)
            | None => None
            end
          else None
      | None => None
      end
  end.

(** [cache.addAll(urls)]; [None] when it rejects, and then the cache is
    as it was. *)
Definition addAll (urls : list string) (c : Caches.cache) : option Caches.cache :=
  match fetchAll urls with
  | Some responses =>
      Some (fold_left (fun c r => <[fst r := snd r]> c) responses c)
  | None => None
  end.

(** The [install] listener: the cache storage it leaves, and whether
    the promise given to [waitUntil] is fulfilled. *)
Definition install (cs : Caches.t) : Caches.t * bool :=
  let cs1 := Caches.open CACHE_NAME cs in
  match Caches.lookup CACHE_NAME cs1 with
  | Some c =>
      match addAll ASSETS c with
      | Some c' => (Caches.store CACHE_NAME c' cs1, true)
      | None => (cs1, false)
      end
  | None => (cs1, false)
  end.

(** The [activate] listener: every cache of another name is deleted. *)
Definition activate (cs : Caches.t) : Caches.t :=
  fold_left (fun cs key => Caches.delete key cs)
            (List.filter (fun key => negb (String.eqb key CACHE_NAME)) (Caches.keys cs))
            cs.

(** The [fetch] listener: [None] when it leaves the request to the
    browser; otherwise what it responds with, [Some None] being a
    rejected promise. *)
Definition fetch (method url : string) (cs : Caches.t) : option (option Response.t) :=
  if negb (String.eqb method "GET") then None
  else
    Some (match Caches.match_ url cs with
          | Some cached => Some cached
          | None => network url
          end).

End Worker.
End ServiceWorker.

(** A network that serves every asset, and one that is down. *)
Definition online (url : string) : option Response.t :=
  Some {| Response.ok := true; Response.body := url |}.

Definition offline (url : string) : option Response.t := None.

(** The caches an older version of the worker left. *)
Definition oldCaches : Caches.t :=
  [("lightning-slideshow-v5",
    {[ "./app.js" := {| Response.ok := true; Response.body := "old" |} ]})].

(** * The status line

    [dropZoneMessage.textContent] and the timer that puts the count of
    the gallery back after a status. *)

Module StatusLine.
Record t : Type := {
  textContent : string;
  (** [statusTimeout]; [None] is [null] *)
  statusTimeout : option positive;
  (** the revert callbacks the browser holds *)
  reverts : list positive;
  handles : N
}.
End StatusLine.

Section Status.
(** The text of the drop zone in the document. *)
Context (defaultDropText : string).

(** [if (statusTimeout) { clearTimeout(statusTimeout); statusTimeout = null; }] *)
Definition clearStatusTimeout (sl : StatusLine.t) : StatusLine.t :=
  match StatusLine.statusTimeout sl with
  | Some id =>
      {| StatusLine.textContent := StatusLine.textContent sl;
         StatusLine.statusTimeout := None;
         StatusLine.reverts :=
           List.filter (fun r => negb (Pos.eqb r id)) (StatusLine.reverts sl);
         StatusLine.handles := StatusLine.handles sl |}
  | None => sl
  end.

(** The text [updateDropZoneMessage] writes for a gallery of [n]
    entries. *)
Definition readyText (n : nat) : string :=
  if (n =? 0)%nat then defaultDropText
  else (pretty n ++ " image" ++ plural n ++ " ready.")%string.

(** [updateDropZoneMessage()] over a gallery of [n] entries. *)
Definition updateDropZoneMessage (n : nat) (sl : StatusLine.t) : StatusLine.t :=
  let sl1 := clearStatusTimeout sl in
  {| StatusLine.textContent := readyText n;
     StatusLine.statusTimeout := StatusLine.statusTimeout sl1;
     StatusLine.reverts := StatusLine.reverts sl1;
     StatusLine.handles := StatusLine.handles sl1 |}.

(** [showStatus(message, revert, duration)] *)
Definition showStatus (message : string) (revert : bool) (sl : StatusLine.t)
    : StatusLine.t :=
  let sl1 := clearStatusTimeout sl in
  if revert then
    let id := N.succ_pos (StatusLine.handles sl1) in
    {| StatusLine.textContent := message;
       StatusLine.statusTimeout := Some id;
       StatusLine.reverts := StatusLine.reverts sl1 ++ [id];
       StatusLine.handles := N.succ (StatusLine.handles sl1) |}
  else
    {| StatusLine.textContent := message;
       StatusLine.statusTimeout := StatusLine.statusTimeout sl1;
       StatusLine.reverts := StatusLine.reverts sl1;
       StatusLine.handles := StatusLine.handles sl1 |}.

(** The callback [showStatus] leaves with the browser, run over a
    gallery of [n] entries. *)
Definition revertStatus (id : positive) (n : nat) (sl : StatusLine.t) : StatusLine.t :=
  updateDropZoneMessage n
    {| StatusLine.textContent := StatusLine.textContent sl;
       StatusLine.statusTimeout := None;
       StatusLine.reverts :=
         List.filter (fun r => negb (Pos.eqb r id)) (StatusLine.reverts sl);
       StatusLine.handles := StatusLine.handles sl |}.

(** What happens to the status line; [n] is the size of the gallery at
    that time. *)
Inductive statusEvent : Type :=
  | UpdateDropZoneMessage (n : nat)
  | ShowStatus (message : string) (revert : bool)
  | RevertFired (id : positive) (n : nat)
  | StatusUnload.

Definition statusEnabled (ev : statusEvent) (sl : StatusLine.t) : bool :=
  match ev with
  | RevertFired id _ => existsb (Pos.eqb id) (StatusLine.reverts sl)
  | _ => true
  end.

Definition statusHandle (ev : statusEvent) (sl : StatusLine.t) : StatusLine.t :=
  match ev with
  | UpdateDropZoneMessage n => updateDropZoneMessage n sl
  | ShowStatus message revert => showStatus message revert sl
  | RevertFired id n => revertStatus id n sl
  | StatusUnload => clearStatusTimeout sl
  end.

(** The states of the status line, from a document that has no
    callback waiting. *)
Inductive statusReachable : StatusLine.t -> Prop :=
  | status_initial sl : StatusLine.reverts sl = [] -> statusReachable sl
  | status_event sl ev :
      statusReachable sl -> statusEnabled ev sl = true ->
      statusReachable (statusHandle ev sl).

(** The browser holds no revert callback, or the one the page
    remembers. *)
Definition remembered (sl : StatusLine.t) : Prop :=
  StatusLine.reverts sl = []
  \/ exists id, StatusLine.reverts sl = [id] /\ StatusLine.statusTimeout sl = Some id.

End Status.

(** A status line in the middle of a session. *)
Definition statusDemo : StatusLine.t :=
  showStatus "Added 2 slides." true
    (showStatus "Processing a.pdf ..." false
       {| StatusLine.textContent := "Drop images here";
          StatusLine.statusTimeout := None; StatusLine.reverts := [];
          StatusLine.handles := 0 |}).

(** * Properties *)

(** ** Base64 round trip *)

Example btoa_samples :
  Base64.btoa "Man" = "TWFu" /\ Base64.btoa "Ma" = "TWE=" /\ Base64.btoa "M" = "TQ==".
Proof. repeat split; reflexivity. Qed.

Example atob_samples :
  Base64.atob "TWFu" = Some "Man" /\ Base64.atob "TWE=" = Some "Ma"
  /\ Base64.atob " T Q = = " = Some "M" /\ Base64.atob "TWE" = Some "Ma"
  /\ Base64.atob "T" = None /\ Base64.atob "TW!u" = None /\ Base64.atob "" = Some "".
Proof. repeat split; vm_compute; reflexivity. Qed.

Example fileSignature_sample :
  fileSignature photo = "cat.png::image/png::3::1699999999000"
  /\ pageSignature reportA 12 = "report.pdf::application/pdf::4::1699999999000::page12".
Proof. split; vm_compute; reflexivity. Qed.

Lemma list_ind3 {A} (P : list A -> Prop) :
  P [] -> (forall a, P [a]) -> (forall a b, P [a; b]) ->
  (forall a b c l, P l -> P (a :: b :: c :: l)) ->
  forall l, P l.
Proof.
  intros H0 H1 H2 H3. fix IH 1.
  intros [|a [|b [|c l]]];
    [exact H0 | apply H1 | apply H2 | apply H3, IH].
Qed.

Lemma code_bound c : 0 <= Base64.code c < 256.
Proof.
  unfold Base64.code. pose proof (N_ascii_bounded c). lia.
Qed.

Lemma unit_code c : Base64.unit (Base64.code c) = c.
Proof.
  unfold Base64.unit, Base64.code. rewrite N2Z.id. apply ascii_N_embedding.
Qed.

Lemma value_digit s : 0 <= s < 64 -> Base64.value (Base64.digit s) = Some s.
Proof.
  intros Hs.
  assert (Hall : forallb (fun i => match Base64.value (Base64.digit (Z.of_nat i)) with
                                   | Some v => v =? Z.of_nat i
                                   | None => false
                                   end) (seq 0 64) = true) by (vm_compute; reflexivity).
  rewrite forallb_forall in Hall.
  specialize (Hall (Z.to_nat s)).
  rewrite Z2Nat.id in Hall by lia.
  destruct (Base64.value (Base64.digit s)) as [v|].
  - f_equal. apply Z.eqb_eq, Hall, in_seq. lia.
  - discriminate Hall. apply in_seq. lia.
Qed.

Lemma digit_plain s :
  Ascii.eqb (Base64.digit s) "=" = false /\ Base64.is_whitespace (Base64.digit s) = false.
Proof.
  assert (Hall : forallb (fun c => negb (Ascii.eqb c "=") && negb (Base64.is_whitespace c))
                         ("A"%char :: Base64.alphabet) = true) by (vm_compute; reflexivity).
  rewrite forallb_forall in Hall.
  assert (Hin : In (Base64.digit s) ("A"%char :: Base64.alphabet)).
  { unfold Base64.digit.
    destruct (nth_in_or_default (Z.to_nat s) Base64.alphabet "A"%char) as [H| ->].
    - right; exact H.
    - left; reflexivity. }
  apply Hall in Hin. apply andb_prop in Hin as [H1 H2].
  split; [destruct (Ascii.eqb _ _) | destruct (Base64.is_whitespace _)]; easy.
Qed.

Lemma sextets_range l : Forall (fun s => 0 <= s < 64) (Base64.sextets l).
Proof.
  induction l as [|a|a b|a b c l IH] using list_ind3; cbn [Base64.sextets].
  - constructor.
  - pose proof (code_bound a).
    repeat constructor; Z.div_mod_to_equations; lia.
  - pose proof (code_bound a). pose proof (code_bound b).
    repeat constructor; Z.div_mod_to_equations; lia.
  - pose proof (code_bound a). pose proof (code_bound b). pose proof (code_bound c).
    repeat (constructor; [Z.div_mod_to_equations; lia|]). exact IH.
Qed.

Lemma octets_sextets l : Base64.octets (Base64.sextets l) = l.
Proof.
  induction l as [|a|a b|a b c l IH] using list_ind3;
    cbn [Base64.sextets Base64.octets].
  - reflexivity.
  - pose proof (code_bound a).
    replace ((Base64.code a / 4 * 64 + Base64.code a mod 4 * 16) / 16)
      with (Base64.code a) by (Z.div_mod_to_equations; lia).
    now rewrite unit_code.
  - pose proof (code_bound a). pose proof (code_bound b).
    set (n := Base64.code a * 256 + Base64.code b).
    set (m := (n / 1024 * 64 + (n / 16) mod 64) * 64 + n mod 16 * 4).
    replace (m / 1024) with (Base64.code a)
      by (subst m n; Z.div_mod_to_equations; lia).
    replace ((m / 4) mod 256) with (Base64.code b)
      by (subst m n; Z.div_mod_to_equations; lia).
    now rewrite !unit_code.
  - pose proof (code_bound a). pose proof (code_bound b). pose proof (code_bound c).
    set (n := Base64.code a * 65536 + Base64.code b * 256 + Base64.code c).
    set (m := ((n / 262144 * 64 + (n / 4096) mod 64) * 64 + (n / 64) mod 64) * 64
              + n mod 64).
    destruct (Base64.sextets l) as [|s1 [|s2 r]] eqn:Hs;
      rewrite <- ?Hs;
      replace (m / 65536) with (Base64.code a)
        by (subst m n; Z.div_mod_to_equations; lia);
      replace ((m / 256) mod 256) with (Base64.code b)
        by (subst m n; Z.div_mod_to_equations; lia);
      replace (m mod 256) with (Base64.code c)
        by (subst m n; Z.div_mod_to_equations; lia);
      rewrite !unit_code; f_equal; f_equal; f_equal;
      rewrite ?Hs in *; exact IH.
Qed.

Lemma values_digits sx :
  Forall (fun s => 0 <= s < 64) sx -> Base64.values (map Base64.digit sx) = Some sx.
Proof.
  induction 1 as [|s sx Hs _ IH]; cbn [map Base64.values]; [reflexivity|].
  now rewrite (value_digit s Hs), IH.
Qed.

Lemma padding_cases l :
  Base64.padding l = [] \/ Base64.padding l = ["="%char]
  \/ Base64.padding l = ["="%char; "="%char].
Proof.
  induction l as [|a|a b|a b c l IH] using list_ind3; cbn [Base64.padding]; auto.
Qed.

Lemma encoded_length l :
  (length (Base64.sextets l) mod 4 <> 1
   /\ length (map Base64.digit (Base64.sextets l) ++ Base64.padding l) mod 4 = 0)%nat.
Proof.
  induction l as [|a|a b|a b c l [IH1 IH2]] using list_ind3;
    cbn [Base64.sextets Base64.padding map length app]; try (split; [easy|reflexivity]).
  rewrite length_app, length_map in *.
  cbn [length]. lia.
Qed.

Lemma drop_pad_digits sx :
  Base64.drop_pad (rev (map Base64.digit sx)) = rev (map Base64.digit sx).
Proof.
  destruct (rev (map Base64.digit sx)) as [|c r] eqn:Hrev; [reflexivity|].
  assert (Hin : In c (map Base64.digit sx)).
  { apply in_rev. rewrite Hrev. now left. }
  apply in_map_iff in Hin as (s & <- & _).
  cbn [Base64.drop_pad]. now rewrite (proj1 (digit_plain s)).
Qed.

Lemma strip_padding_encoded l :
  Base64.strip_padding (map Base64.digit (Base64.sextets l) ++ Base64.padding l)
  = map Base64.digit (Base64.sextets l).
Proof.
  unfold Base64.strip_padding.
  rewrite (proj2 (encoded_length l)). cbn [Nat.eqb].
  rewrite rev_app_distr.
  destruct (padding_cases l) as [-> | [-> | ->]]; cbn [rev app Base64.drop_pad Ascii.eqb];
    cbn; rewrite ?drop_pad_digits; apply rev_involutive.
Qed.

Lemma filter_plain l :
  List.filter (fun c => negb (Base64.is_whitespace c))
              (map Base64.digit (Base64.sextets l) ++ Base64.padding l)
  = map Base64.digit (Base64.sextets l) ++ Base64.padding l.
Proof.
  apply forallb_filter_id, forallb_forall. intros c Hin.
  apply in_app_or in Hin as [Hin|Hin].
  - apply in_map_iff in Hin as (s & <- & _). now rewrite (proj2 (digit_plain s)).
  - destruct (padding_cases l) as [H | [H | H]]; rewrite H in Hin;
      cbn in Hin; intuition (subst; reflexivity).
Qed.

Lemma atob_btoa binary : Base64.atob (Base64.btoa binary) = Some binary.
Proof.
  unfold Base64.atob, Base64.btoa.
  rewrite list_ascii_of_string_of_list_ascii, filter_plain, strip_padding_encoded.
  rewrite length_map.
  destruct (Nat.eqb_spec (length (Base64.sextets (list_ascii_of_string binary)) mod 4) 1)
    as [Heq|_].
  - now destruct (proj1 (encoded_length (list_ascii_of_string binary))).
  - rewrite (values_digits _ (sextets_range _)), octets_sextets.
    now rewrite string_of_list_ascii_of_string.
Qed.

(** ** Strings as lists of code units *)

Lemma string_app_cons c (s t : string) :
  (String c s ++ t)%string = String c (s ++ t)%string.
Proof. reflexivity. Qed.

Lemma string_app_nil_r (s : string) : (s ++ "")%string = s.
Proof.
  induction s as [|c s IH]; [reflexivity|now rewrite string_app_cons, IH].
Qed.

Lemma string_app_assoc (a b c : string) : ((a ++ b) ++ c = a ++ (b ++ c))%string.
Proof.
  induction a as [|x a IH]; [reflexivity|now rewrite !string_app_cons, IH].
Qed.

Lemma string_of_list_ascii_app (l k : list ascii) :
  string_of_list_ascii (l ++ k)
  = (string_of_list_ascii l ++ string_of_list_ascii k)%string.
Proof.
  induction l as [|x l IH]; [reflexivity|].
  cbn [app string_of_list_ascii]. now rewrite string_app_cons, IH.
Qed.

Lemma list_ascii_of_string_app (a b : string) :
  list_ascii_of_string (a ++ b)
  = list_ascii_of_string a ++ list_ascii_of_string b.
Proof.
  induction a as [|x a IH]; [reflexivity|].
  rewrite string_app_cons. cbn [list_ascii_of_string app]. now rewrite IH.
Qed.

Lemma list_ascii_of_string_inj (a b : string) :
  list_ascii_of_string a = list_ascii_of_string b -> a = b.
Proof.
  intros H. rewrite <- (string_of_list_ascii_of_string a),
    <- (string_of_list_ascii_of_string b). now rewrite H.
Qed.

Lemma string_of_list_byte_app (l k : list byte) :
  string_of_list_byte (l ++ k)
  = (string_of_list_byte l ++ string_of_list_byte k)%string.
Proof.
  unfold string_of_list_byte. now rewrite List.map_app, string_of_list_ascii_app.
Qed.

(** ** The payload codec of the package *)

Lemma chunkSize_pos : (0 < chunkSize)%nat.
Proof. unfold chunkSize. lia. Qed.

Lemma fromCharCode_chunks_spec fuel : forall view i binary,
  (length view - i <= fuel)%nat ->
  fromCharCode_chunks fuel view i binary
  = (binary ++ string_of_list_byte (skipn i view))%string.
Proof.
  pose proof chunkSize_pos as Hpos.
  induction fuel as [|fuel IH]; intros view i binary Hfuel; cbn [fromCharCode_chunks].
  - rewrite skipn_all2 by lia.
    change (string_of_list_byte []) with "". now rewrite string_app_nil_r.
  - destruct (Nat.ltb_spec i (length view)) as [Hlt|Hge].
    + rewrite IH by lia.
      rewrite string_app_assoc, <- string_of_list_byte_app. do 2 f_equal.
      unfold subarray.
      rewrite Nat.add_comm, <- skipn_skipn.
      assert (Hlen : length (skipn i view) = (length view - i)%nat)
        by apply length_skipn.
      destruct (Nat.le_gt_cases (length view) (chunkSize + i)) as [Hle|Hgt].
      * rewrite Nat.min_l by lia.
        rewrite (drop_ge _ chunkSize) by lia.
        rewrite take_ge by lia. now rewrite app_nil_r.
      * rewrite Nat.min_r by lia.
        replace (chunkSize + i - i)%nat with chunkSize by lia.
        apply firstn_skipn.
    + rewrite skipn_all2 by lia.
      change (string_of_list_byte []) with "". now rewrite string_app_nil_r.
Qed.

Lemma base64_roundtrip (buffer : list byte) :
  base64ToArrayBuffer (arrayBufferToBase64 buffer) = Some buffer.
Proof.
  unfold base64ToArrayBuffer, arrayBufferToBase64.
  destruct buffer as [|b buffer]; [reflexivity|].
  rewrite atob_btoa, fromCharCode_chunks_spec by lia.
  rewrite skipn_O. change ("" ++ ?s)%string with s.
  now rewrite list_byte_of_string_of_list_byte.
Qed.

(** ** Signatures *)

Lemma pretty_N_char_digit x : is_digit (pretty_N_char x) = true.
Proof. unfold pretty_N_char. repeat case_match; reflexivity. Qed.

Lemma pretty_N_go_digits x : forall s, digits_only s -> digits_only (pretty_N_go x s).
Proof.
  induction (N.lt_wf_0 x) as [x _ IH]; intros s Hs.
  destruct (N.eq_dec x 0%N) as [->|Hx].
  - now rewrite pretty_N_go_0.
  - rewrite pretty_N_go_step by lia.
    apply IH; [apply N.div_lt; lia|].
    constructor; [apply pretty_N_char_digit | exact Hs].
Qed.

Lemma pretty_N_digits (n : N) : digits_only (pretty n).
Proof.
  unfold pretty, pretty_N. case_decide.
  - repeat constructor.
  - apply pretty_N_go_digits. constructor.
Qed.

Lemma digit_prefix_unique (e : ascii) (A1 : list ascii) : forall A2 B1 B2,
  is_digit e = false ->
  Forall (fun c => is_digit c = true) A1 ->
  Forall (fun c => is_digit c = true) A2 ->
  A1 ++ e :: B1 = A2 ++ e :: B2 -> A1 = A2 /\ B1 = B2.
Proof.
  induction A1 as [|a1 A1 IH]; intros [|a2 A2] B1 B2 He H1 H2 Heq;
    cbn [app] in Heq.
  - now injection Heq as ->.
  - injection Heq as -> _. inversion H2; congruence.
  - injection Heq as -> _. inversion H1; congruence.
  - injection Heq as -> Htl. inversion H1; inversion H2; subst.
    destruct (IH A2 B1 B2 He) as [-> ->]; auto.
Qed.

Lemma digit_suffix_unique (e : ascii) (X1 X2 D1 D2 : list ascii) :
  is_digit e = false ->
  Forall (fun c => is_digit c = true) D1 ->
  Forall (fun c => is_digit c = true) D2 ->
  X1 ++ e :: D1 = X2 ++ e :: D2 -> X1 = X2 /\ D1 = D2.
Proof.
  intros He H1 H2 Heq.
  apply (f_equal (@rev ascii)) in Heq.
  rewrite !rev_app_distr in Heq. cbn [rev] in Heq.
  rewrite <- !app_assoc in Heq. cbn [app] in Heq.
  apply digit_prefix_unique in Heq as [HD HX]; auto using Forall_rev.
  split; apply rev_inj; assumption.
Qed.

(** The page marker separates the base signature from the page number
    without ambiguity. *)
Lemma page_marker_inj (s1 s2 : string) (n m : N) :
  (s1 ++ "::page" ++ pretty n = s2 ++ "::page" ++ pretty m)%string ->
  s1 = s2 /\ n = m.
Proof.
  intros Heq.
  apply (f_equal list_ascii_of_string) in Heq.
  rewrite !list_ascii_of_string_app in Heq.
  change (list_ascii_of_string "::page")
    with ((list_ascii_of_string "::pag") ++ ["e"%char]) in Heq.
  rewrite <- !(app_assoc (list_ascii_of_string "::pag")) in Heq.
  rewrite !app_assoc in Heq.
  rewrite <- !(app_assoc _ ["e"%char]) in Heq. cbn [app] in Heq.
  apply digit_suffix_unique in Heq as [HX HD];
    [| reflexivity | apply pretty_N_digits | apply pretty_N_digits].
  apply app_inv_tail in HX.
  split.
  - now apply list_ascii_of_string_inj.
  - apply list_ascii_of_string_inj in HD. now apply (inj pretty).
Qed.

(** ** Page-state computations *)

Lemma preserves_ret {A} P (a : A) : preserves P (ret a).
Proof. intros st H. exact H. Qed.

Lemma preserves_gets {A} P (f : State -> A) : preserves P (gets f).
Proof. intros st H. exact H. Qed.

Lemma preserves_bind {A B} P (m : M A) (k : A -> M B) :
  preserves P m -> (forall a, preserves P (k a)) -> preserves P (bind m k).
Proof.
  intros Hm Hk st H. unfold bind.
  specialize (Hm st H). destruct (m st) as [a st1]. exact (Hk a st1 Hm).
Qed.

Lemma preserves_modify P (f : State -> State) :
  (forall st, P st -> P (f st)) -> preserves P (modify f).
Proof. intros Hf st H. exact (Hf st H). Qed.

Lemma preserves_if {A} P (b : bool) (m1 m2 : M A) :
  preserves P m1 -> preserves P m2 -> preserves P (if b then m1 else m2).
Proof. now destruct b. Qed.

Lemma preserves_decide {A} P (Q : Prop) `{Decision Q} (m1 m2 : M A) :
  preserves P m1 -> preserves P m2 -> preserves P (if decide Q then m1 else m2).
Proof. now destruct (decide Q). Qed.

Create HintDb preserve discriminated.

#[export] Hint Resolve preserves_ret preserves_gets preserves_if preserves_decide : preserve.

(** Splits a computation along its binds and branches. *)
Ltac preserve_step :=
  match goal with
  | |- preserves _ (bind _ _) => apply preserves_bind; [|intros ?]
  | |- preserves _ (ret _) => apply preserves_ret
  | |- preserves _ (gets _) => apply preserves_gets
  | |- preserves _ (if decide _ then _ else _) => apply preserves_decide
  | |- preserves _ (if _ then _ else _) => apply preserves_if
  | |- preserves _ (match ?x with _ => _ end) => destruct x
  end.

(** ** The store and its records *)

Lemma Array_sort_Permutation {A} (after : A -> A -> bool) (l : list A) :
  Permutation (Array_sort after l) l.
Proof.
  assert (Hins : forall x l, Permutation (insert_sorted after x l) (x :: l)).
  { intros x k. induction k as [|y k IH]; cbn [insert_sorted]; [reflexivity|].
    destruct (after x y); [|reflexivity].
    rewrite IH. apply perm_swap. }
  induction l as [|x l IH]; cbn; [reflexivity|].
  unfold Array_sort in IH. now rewrite Hins, IH.
Qed.

(** Equal elements keep their order. *)
Example Array_sort_stable :
  Array_sort (fun x y : string * nat => (snd y <? snd x)%nat)
             [("b", 1%nat); ("a", 1%nat); ("c", 0%nat); ("d", 1%nat)]
  = [("c", 0%nat); ("b", 1%nat); ("a", 1%nat); ("d", 1%nat)].
Proof. reflexivity. Qed.

Lemma getAll_Permutation (store : gmap string Slide.t) :
  Permutation (getAll store) (map snd (map_to_list store)).
Proof. apply Array_sort_Permutation. Qed.

Lemma getAll_lookup (store : gmap string Slide.t) r :
  In r (getAll store) <-> exists k, store !! k = Some r.
Proof.
  rewrite (Permutation_in' (eq_refl r) (getAll_Permutation store)).
  rewrite in_map_iff. split.
  - intros ([k r'] & <- & Hin). exists k.
    now apply elem_of_map_to_list, list_elem_of_In.
  - intros [k Hk]. exists (k, r). split; [reflexivity|].
    now apply list_elem_of_In, elem_of_map_to_list.
Qed.

Lemma fmap_map {A B} (f : A -> B) (l : list A) : f <$> l = map f l.
Proof. induction l as [|x l IH]; cbn; [reflexivity|now rewrite <- IH]. Qed.

(** No two records of a keyed store share a signature. *)
Lemma store_keyed_NoDup (store : gmap string Slide.t) :
  store_keyed store -> List.NoDup (map Slide.signature (getAll store)).
Proof.
  intros Hkeyed.
  rewrite (Permutation_map Slide.signature (getAll_Permutation store)).
  rewrite List.map_map.
  rewrite (map_ext_in _ fst).
  - rewrite <- fmap_map. apply NoDup_ListNoDup, NoDup_fst_map_to_list.
  - intros [k r] Hin. cbn.
    apply list_elem_of_In, elem_of_map_to_list in Hin. exact (Hkeyed k r Hin).
Qed.

(** ** The uniqueness invariant *)

Lemma invariant_ext (st st' : State) :
  imageEntries st' = imageEntries st ->
  imageSignatures st' = imageSignatures st ->
  db st' = db st ->
  invariant st -> invariant st'.
Proof.
  intros He Hs Hd [H1 H2 H3].
  split; rewrite ?He, ?Hs, ?Hd; assumption.
Qed.

Lemma saveSlideRecord_run signature label blob addedAt st :
  saveSlideRecord signature label blob addedAt st
  = (tt, set_db (saved signature label blob addedAt (db st)) st).
Proof.
  unfold saveSlideRecord, saved, bind, gets, modify, ret.
  destruct st as [e s [store|] dr di ls c en]; cbn; [|reflexivity].
  destruct (Blob.arrayBuffer blob); reflexivity.
Qed.

Lemma registerEntry_run pf blob label signature persist addedAt st :
  registerEntry pf blob label signature persist addedAt st
  = let st0 := match addedAt with Some _ => st | None => tick_clock st end in
    let t := match addedAt with Some t => t | None => Date_now pf (clock st) end in
    if decide (signature ∈ imageSignatures st) then (false, st0)
    else (true, registered blob label signature persist t st0).
Proof.
  unfold registerEntry, registered, now, bind, gets, modify, ret.
  destruct addedAt as [t|]; cbn;
    destruct (decide (signature ∈ imageSignatures st)); try reflexivity;
    destruct persist; try reflexivity;
    now rewrite saveSlideRecord_run.
Qed.

Lemma store_keyed_put record store :
  store_keyed store -> store_keyed (put record store).
Proof.
  intros Hk k r. unfold put. rewrite lookup_insert.
  case_decide; [now intros [= <-]|apply Hk].
Qed.

Lemma invariant_saved signature label blob addedAt st :
  invariant st -> invariant (set_db (saved signature label blob addedAt (db st)) st).
Proof.
  intros [H1 H2 H3]. split; cbn; [assumption..|].
  intros store. unfold saved.
  destruct (db st) as [store0|]; [|discriminate].
  destruct (Blob.arrayBuffer blob); intros [= <-]; auto using store_keyed_put.
Qed.

Lemma invariant_registered blob label signature persist addedAt st :
  signature ∉ imageSignatures st ->
  invariant st -> invariant (registered blob label signature persist addedAt st).
Proof.
  intros Hnew Hinv.
  assert (Hgallery : invariant
            (set_gallery
               (imageEntries st ++ [{| Entry.url := blob; Entry.signature := signature;
                                       Entry.label := label |}])
               ({[signature]} ∪ imageSignatures st) st)).
  { destruct Hinv as [H1 H2 H3]. split; cbn; [| |assumption].
    - rewrite List.map_app. cbn.
      apply NoDup_ListNoDup, NoDup_app. repeat split.
      + now apply NoDup_ListNoDup.
      + intros s Hs Hs'. apply list_elem_of_In in Hs.
        apply list_elem_of_singleton in Hs' as ->.
        apply in_map_iff in Hs as (e & <- & He). auto.
      + apply NoDup_singleton.
    - intros e He. apply in_app_or in He as [He|[<-|[]]]; cbn; [|set_solver].
      specialize (H2 e He). set_solver. }
  unfold registered. destruct persist; [|exact Hgallery].
  now apply invariant_saved.
Qed.

Lemma registerEntry_invariant pf blob label signature persist addedAt :
  preserves invariant (registerEntry pf blob label signature persist addedAt).
Proof.
  intros st Hinv. rewrite registerEntry_run. cbn zeta.
  assert (Hst0 : invariant (match addedAt with Some _ => st | None => tick_clock st end))
    by (destruct addedAt; [assumption|now apply (invariant_ext st)]).
  destruct (decide (signature ∈ imageSignatures st)) as [Hin|Hnew]; cbn [snd];
    [assumption|].
  apply invariant_registered; [|assumption].
  now destruct addedAt.
Qed.

Lemma now_invariant pf : preserves invariant (now pf).
Proof. intros st H. now apply (invariant_ext st). Qed.

Lemma generateImportSignature_invariant pf :
  preserves invariant (generateImportSignature pf).
Proof. intros st H. now apply (invariant_ext st). Qed.

Lemma applyDelay_invariant value persist : preserves invariant (applyDelay value persist).
Proof.
  intros st H. apply (invariant_ext st); try assumption;
    unfold applyDelay, storeDelay, bind, gets, modify, ret; cbn;
    destruct persist; cbn; try reflexivity;
    destruct (localStorage st); reflexivity.
Qed.

Lemma clearPersistedSlides_invariant : preserves invariant clearPersistedSlides.
Proof.
  intros st [H1 H2 H3]. unfold clearPersistedSlides, bind, gets, modify, ret.
  destruct (db st) as [store|] eqn:Hdb; cbn; split; cbn; try assumption.
  - intros ? [= <-] k r Hk. now rewrite lookup_empty in Hk.
  - now rewrite Hdb.
Qed.

Lemma clear_gallery_invariant : preserves invariant (modify (set_gallery [] ∅)).
Proof.
  intros st [H1 H2 H3]. split; cbn; [constructor|intros e []|assumption].
Qed.

Lemma getPersistedSlides_invariant : preserves invariant getPersistedSlides.
Proof.
  intros st H. unfold getPersistedSlides, bind, gets, ret.
  now destruct (db st).
Qed.

#[export] Hint Resolve registerEntry_invariant now_invariant
  generateImportSignature_invariant applyDelay_invariant
  clearPersistedSlides_invariant clear_gallery_invariant
  getPersistedSlides_invariant : preserve.

Ltac preserve := repeat (preserve_step || solve [auto with preserve]).

Lemma importSlide_invariant pf slide : preserves invariant (importSlide pf slide).
Proof. unfold importSlide. preserve. Qed.

Lemma importSlides_invariant pf slides : forall added,
  preserves invariant (importSlides pf slides added).
Proof.
  induction slides as [|slide rest IH]; intros added; cbn [importSlides].
  - apply preserves_ret.
  - apply preserves_bind; [apply importSlide_invariant|intros ?; apply IH].
Qed.

Lemma importSavedPackage_invariant pf file :
  preserves invariant (importSavedPackage pf file).
Proof.
  unfold importSavedPackage.
  destruct (File.json_text file) as [data|]; [|apply preserves_ret].
  destruct (unsupportedFormat pf data); [apply preserves_ret|].
  apply preserves_bind.
  - destruct (member "delay" data) as [[]|]; auto with preserve.
  - intros _. apply preserves_bind; [apply importSlides_invariant|].
    intros ?. apply preserves_ret.
Qed.

Lemma addImageFile_invariant pf file : preserves invariant (addImageFile pf file).
Proof. unfold addImageFile. preserve. Qed.

Lemma addPdfPage_invariant pf file pageNumber page :
  preserves invariant (addPdfPage pf file pageNumber page).
Proof. unfold addPdfPage. preserve. Qed.

Lemma addPdfPages_invariant pf file pages : forall pageNumber added,
  preserves invariant (addPdfPages pf file pages pageNumber added).
Proof.
  induction pages as [|page rest IH]; intros pageNumber added; cbn [addPdfPages].
  - apply preserves_ret.
  - apply preserves_bind; [apply addPdfPage_invariant|intros ?; apply IH].
Qed.

Lemma addPdfFile_invariant pf file : preserves invariant (addPdfFile pf file).
Proof.
  unfold addPdfFile.
  destruct (negb (pdfSupported pf)); [apply preserves_ret|].
  destruct (File.pdf file); [|apply preserves_ret].
  apply preserves_bind; [apply addPdfPages_invariant|intros ?; apply preserves_ret].
Qed.

#[export] Hint Resolve importSavedPackage_invariant addImageFile_invariant
  addPdfFile_invariant : preserve.

Lemma addFile_invariant pf file r : preserves invariant (addFile pf file r).
Proof. unfold addFile. preserve. Qed.

Lemma addFiles_invariant pf files : preserves invariant (addFiles pf files).
Proof.
  unfold addFiles. generalize Batch.zero.
  induction files as [|file rest IH]; intros r; cbn [addFiles_loop].
  - apply preserves_ret.
  - apply preserves_bind; [apply addFile_invariant|intros ?; apply IH].
Qed.

Lemma restoreSlide_invariant pf slide : preserves invariant (restoreSlide pf slide).
Proof.
  unfold restoreSlide.
  destruct (String.eqb _ _); [apply preserves_ret|].
  destruct (Slide.blob slide); [|destruct (Slide.bytes slide)]; preserve.
Qed.

Lemma restorePersistedSlides_invariant pf :
  preserves invariant (restorePersistedSlides pf).
Proof.
  unfold restorePersistedSlides.
  apply preserves_bind; [apply getPersistedSlides_invariant|].
  intros slides. induction slides as [|slide rest IH]; cbn [restoreSlides].
  - apply preserves_ret.
  - apply preserves_bind; [apply restoreSlide_invariant|intros _; apply IH].
Qed.

Lemma resetGallery_invariant : preserves invariant resetGallery.
Proof. unfold resetGallery. preserve. Qed.

(** ** Reachable states *)

Lemma keyed_store_keyed store : keyed store = true -> store_keyed store.
Proof.
  unfold keyed. rewrite forallb_forall. intros H k r Hk.
  specialize (H (k, r)). cbn in H. symmetry. apply String.eqb_eq, H.
  now apply list_elem_of_In, elem_of_map_to_list.
Qed.

Lemma loaded_invariant st : loaded st = true -> invariant st.
Proof.
  unfold loaded. intros H.
  apply andb_prop in H as [H Hdb]. apply andb_prop in H as [He Hs].
  apply bool_decide_eq_true_1 in Hs.
  destruct (imageEntries st) eqn:Hentries; [|discriminate].
  split; rewrite ?Hentries; cbn; [constructor|intros e []|].
  intros store Hstore. rewrite Hstore in Hdb. now apply keyed_store_keyed.
Qed.

Lemma buildExportPayload_invariant pf : preserves invariant (buildExportPayload pf).
Proof. unfold buildExportPayload. preserve. Qed.

Lemma restoreDelaySetting_invariant : preserves invariant restoreDelaySetting.
Proof.
  unfold restoreDelaySetting, getStoredDelay. preserve.
Qed.

Lemma perform_invariant pf op : forall st, invariant st -> invariant (perform pf op st).
Proof.
  destruct op; cbn [perform].
  - apply addFiles_invariant.
  - apply addImageFile_invariant.
  - apply addPdfFile_invariant.
  - apply importSavedPackage_invariant.
  - apply registerEntry_invariant.
  - apply restorePersistedSlides_invariant.
  - apply resetGallery_invariant.
  - apply buildExportPayload_invariant.
  - apply applyDelay_invariant.
  - apply restoreDelaySetting_invariant.
  - apply clear_gallery_invariant.
Qed.

Lemma reachable_invariant pf st : reachable pf st -> invariant st.
Proof.
  induction 1 as [st Hload|st op _ IH].
  - now apply loaded_invariant.
  - now apply perform_invariant.
Qed.

(** ** Image ingestion and duplicates *)

Lemma addImageFile_run pf file st :
  addImageFile pf file st
  = if decide (fileSignature file ∈ imageSignatures st) then (0%nat, st)
    else (1%nat,
          registered (File.blob file) (str_or (File.name file) "Image")
                     (fileSignature file) true (Date_now pf (clock st)) (tick_clock st)).
Proof.
  unfold addImageFile, bind, gets, ret.
  destruct (decide (fileSignature file ∈ imageSignatures st)) as [Hin|Hnew];
    [reflexivity|].
  rewrite registerEntry_run. cbn zeta.
  now destruct (decide (fileSignature file ∈ imageSignatures st)).
Qed.

Lemma registered_signatures blob label signature persist addedAt st :
  imageSignatures (registered blob label signature persist addedAt st)
  = {[signature]} ∪ imageSignatures st.
Proof. unfold registered. now destruct persist. Qed.

Lemma registered_entries blob label signature persist addedAt st :
  imageEntries (registered blob label signature persist addedAt st)
  = imageEntries st ++ [{| Entry.url := blob; Entry.signature := signature;
                           Entry.label := label |}].
Proof. unfold registered. now destruct persist. Qed.

Lemma addImageFile_known pf file st :
  fileSignature file ∈ imageSignatures (snd (addImageFile pf file st)).
Proof.
  rewrite addImageFile_run.
  destruct (decide (fileSignature file ∈ imageSignatures st)); cbn [snd];
    [assumption|].
  rewrite registered_signatures. set_solver.
Qed.

Lemma addImageFile_duplicate pf file st :
  fileSignature file ∈ imageSignatures st -> addImageFile pf file st = (0%nat, st).
Proof.
  intros Hin. rewrite addImageFile_run.
  now destruct (decide (fileSignature file ∈ imageSignatures st)).
Qed.

Lemma fileSignature_fields (f f' : File.t) :
  File.name f' = File.name f -> File.type f' = File.type f ->
  File.size f' = File.size f -> File.lastModified f' = File.lastModified f ->
  fileSignature f' = fileSignature f.
Proof. unfold fileSignature. now intros -> -> -> ->. Qed.

(** An image goes through [addFiles] as one call of [addImageFile]. *)
Lemma addFiles_image pf file st :
  isPackageCandidate file = false -> isImage file = true ->
  Batch.added (fst (addFiles pf [file] st)) = fst (addImageFile pf file st)
  /\ snd (addFiles pf [file] st) = snd (addImageFile pf file st).
Proof.
  intros Hpkg Himg.
  unfold addFiles, addFiles_loop, addFile, bind, ret. rewrite Hpkg, Himg.
  destruct (addImageFile pf file st) as [n st1]. now split.
Qed.

(** C8.  Ingesting an image file a second time, that is a file with the
    same name, type, size and last-modified time, adds nothing: the
    second [addImageFile] returns 0 and leaves the page state, hence the
    length of [imageEntries], as it was; the same holds when the file
    goes through [addFiles] as an image. *)
Theorem dedup_idempotence pf (f f' : File.t) (st : State) :
  File.name f' = File.name f -> File.type f' = File.type f ->
  File.size f' = File.size f -> File.lastModified f' = File.lastModified f ->
  let st1 := snd (addImageFile pf f st) in
  addImageFile pf f' st1 = (0%nat, st1)
  /\ length (imageEntries (snd (addImageFile pf f' st1))) = length (imageEntries st1)
  /\ (isPackageCandidate f = false -> isImage f = true ->
      let st2 := snd (addFiles pf [f] st) in
      Batch.added (fst (addFiles pf [f'] st2)) = 0%nat
      /\ length (imageEntries (snd (addFiles pf [f'] st2))) = length (imageEntries st2)).
Proof.
  intros Hn Ht Hs Hm st1.
  assert (Hsig : fileSignature f' = fileSignature f) by now apply fileSignature_fields.
  assert (Hdup : addImageFile pf f' st1 = (0%nat, st1)).
  { apply addImageFile_duplicate. rewrite Hsig. apply addImageFile_known. }
  split; [exact Hdup|]. split; [now rewrite Hdup|].
  intros Hpkg Himg st2.
  assert (Hpkg' : isPackageCandidate f' = false)
    by (unfold isPackageCandidate in *; now rewrite Hn, Ht).
  assert (Himg' : isImage f' = true) by (unfold isImage in *; now rewrite Ht).
  assert (Hst2 : st2 = st1) by apply (addFiles_image pf f st Hpkg Himg).
  destruct (addFiles_image pf f' st2 Hpkg' Himg') as [Hadded Hstate].
  rewrite Hadded, Hstate, Hst2, Hdup. now split.
Qed.

Lemma dedup_idempotence_witness :
  (File.name photoTwin = File.name photo /\ File.type photoTwin = File.type photo
   /\ File.size photoTwin = File.size photo
   /\ File.lastModified photoTwin = File.lastModified photo)
  /\ (isPackageCandidate photo = false /\ isImage photo = true)
  /\ let st1 := snd (addImageFile demoPlatform photo freshPage) in
     let st2 := snd (addFiles demoPlatform [photo] freshPage) in
     addImageFile demoPlatform photoTwin st1 = (0%nat, st1)
     /\ length (imageEntries (snd (addImageFile demoPlatform photoTwin st1)))
        = length (imageEntries st1)
     /\ Batch.added (fst (addFiles demoPlatform [photoTwin] st2)) = 0%nat
     /\ length (imageEntries (snd (addFiles demoPlatform [photoTwin] st2)))
        = length (imageEntries st2).
Proof.
  split; [repeat split; reflexivity|].
  split; [split; reflexivity|].
  destruct (dedup_idempotence demoPlatform photo photoTwin freshPage
              eq_refl eq_refl eq_refl eq_refl) as (H1 & H2 & H3).
  destruct (H3 eq_refl eq_refl) as [H4 H5].
  repeat split; assumption.
Defined.

(** C9.  [fileSignature] is not injective: the fields are joined with
    ["::"], which may occur inside a field.  There are two files that
    differ in name and in type and have one signature, and whichever
    page state the first is ingested into, the second is then skipped as
    a duplicate. *)
Theorem fileSignature_not_injective :
  exists f1 f2 : File.t,
    File.name f1 <> File.name f2 /\ File.type f1 <> File.type f2
    /\ fileSignature f1 = fileSignature f2
    /\ forall pf st,
         let st1 := snd (addImageFile pf f1 st) in
         addImageFile pf f2 st1 = (0%nat, st1).
Proof.
  exists shiftedLeft, shiftedRight.
  split; [discriminate|]. split; [discriminate|].
  assert (Hsig : fileSignature shiftedLeft = fileSignature shiftedRight)
    by (vm_compute; reflexivity).
  split; [exact Hsig|].
  intros pf st st1. apply addImageFile_duplicate.
  rewrite <- Hsig. apply addImageFile_known.
Qed.

(** ** Page signatures *)

(** C1, as the code has it.  A page signature is determined by the base
    signature of its document and the page number, and by nothing else:
    two pages have the same signature exactly when their documents have
    the same base signature and the page numbers are equal.  So pages
    with different numbers never collide, and same-numbered pages of two
    documents with one base signature always do. *)
Theorem pageSignature_eq_iff (f1 f2 : File.t) (n m : N) :
  pageSignature f1 n = pageSignature f2 m
  <-> fileSignature f1 = fileSignature f2 /\ n = m.
Proof.
  unfold pageSignature. split.
  - apply page_marker_inj.
  - now intros [-> ->].
Qed.

(** C1 as stated fails: [reportA] and [reportB] are distinct documents
    with one base signature; their first pages get the same signature,
    and once [reportA] is ingested the page of [reportB] is skipped as a
    duplicate (0 of 1 pages added, page state unchanged). *)
Lemma page_collision_counterexample :
  reportA <> reportB
  /\ fileSignature reportA = fileSignature reportB
  /\ pageSignature reportA 1 = pageSignature reportB 1
  /\ addPdfFile demoPlatform reportA freshPage
     = (Some (1%nat, 1%nat), snd (addPdfFile demoPlatform reportA freshPage))
  /\ addPdfFile demoPlatform reportB (snd (addPdfFile demoPlatform reportA freshPage))
     = (Some (0%nat, 1%nat), snd (addPdfFile demoPlatform reportA freshPage)).
Proof.
  split; [discriminate|].
  repeat split; vm_compute; reflexivity.
Qed.

(** ** Documents without the rasterization capability *)

Lemma countPdfUnsupported_0 r : countPdfUnsupported 0 r = r.
Proof. now destruct r. Qed.

Lemma countPdfUnsupported_S n r :
  countPdfUnsupported (S n) r = countPdfUnsupported n (countPdfUnsupported 1 r).
Proof. unfold countPdfUnsupported; cbn. f_equal; lia. Qed.

(** The counters of a file do not depend on the counts so far. *)
Lemma addFile_counts pf file n r st :
  addFile pf file (countPdfUnsupported n r) st
  = (countPdfUnsupported n (fst (addFile pf file r st)), snd (addFile pf file r st)).
Proof.
  unfold addFile, bind, ret.
  destruct (isPackageCandidate file).
  { destruct (importSavedPackage pf file st) as [p st1].
    destruct (Package.error p); cbn; f_equal; unfold countPdfUnsupported; cbn;
      f_equal; lia. }
  destruct (isImage file).
  { destruct (addImageFile pf file st) as [k st1]. cbn. f_equal.
    unfold countPdfUnsupported; cbn; f_equal; lia. }
  destruct (isPdf file); [|cbn; f_equal; unfold countPdfUnsupported; cbn; f_equal; lia].
  destruct (negb (pdfSupported pf)).
  { cbn. f_equal. unfold countPdfUnsupported; cbn; f_equal; lia. }
  destruct (addPdfFile pf file st) as [pages st1]. cbn. f_equal.
  unfold countPdfUnsupported; cbn; f_equal; lia.
Qed.

Lemma addFiles_loop_counts pf files : forall n r st,
  addFiles_loop pf files (countPdfUnsupported n r) st
  = (countPdfUnsupported n (fst (addFiles_loop pf files r st)),
     snd (addFiles_loop pf files r st)).
Proof.
  induction files as [|file rest IH]; intros n r st; cbn [addFiles_loop].
  - reflexivity.
  - unfold bind. rewrite addFile_counts.
    destruct (addFile pf file r st) as [r1 st1]. cbn [fst snd]. apply IH.
Qed.

Lemma addFile_pdf_unsupported pf file r st :
  pdfSupported pf = false -> routedAsPdf file = true ->
  addFile pf file r st = (countPdfUnsupported 1 r, st).
Proof.
  unfold routedAsPdf. intros Hpdf Hrouted.
  apply andb_prop in Hrouted as [Hrouted Hp]. apply andb_prop in Hrouted as [Hc Hi].
  apply negb_true_iff in Hc, Hi.
  unfold addFile. now rewrite Hc, Hi, Hp, Hpdf.
Qed.

Lemma addFiles_loop_pdf_unsupported pf files : forall r st,
  pdfSupported pf = false ->
  addFiles_loop pf files r st
  = (countPdfUnsupported (length (List.filter routedAsPdf files))
       (fst (addFiles_loop pf (List.filter (fun f => negb (routedAsPdf f)) files) r st)),
     snd (addFiles_loop pf (List.filter (fun f => negb (routedAsPdf f)) files) r st)).
Proof.
  induction files as [|file rest IH]; intros r st Hpdf; cbn [List.filter].
  - cbn. now rewrite countPdfUnsupported_0.
  - destruct (routedAsPdf file) eqn:Hrouted; cbn [negb length addFiles_loop].
    + unfold bind at 1. rewrite addFile_pdf_unsupported by assumption.
      rewrite addFiles_loop_counts, (IH r st Hpdf). cbn [fst snd].
      f_equal.
    + unfold bind. destruct (addFile pf file r st) as [r1 st1]. now apply IH.
Qed.

(** C2.  Without the rasterization capability ([pdfSupported] false)
    [addPdfFile] reports zero pages added and zero total and leaves the
    page state alone, and [addFiles] does not attempt the documents of a
    batch: each file it routes to the document branch is counted once
    under [pdfUnsupported] (and once under [supported]) and nothing
    else; counts and page state are otherwise those of the batch without
    its documents. *)
Theorem pdf_capability_absent pf (files : list File.t) (file : File.t) (st : State) :
  pdfSupported pf = false ->
  addPdfFile pf file st = (Some (0%nat, 0%nat), st)
  /\ addFiles pf files st
     = (countPdfUnsupported (length (List.filter routedAsPdf files))
          (fst (addFiles pf (List.filter (fun f => negb (routedAsPdf f)) files) st)),
        snd (addFiles pf (List.filter (fun f => negb (routedAsPdf f)) files) st)).
Proof.
  intros Hpdf. split.
  - unfold addPdfFile. now rewrite Hpdf.
  - now apply addFiles_loop_pdf_unsupported.
Qed.

Lemma pdf_capability_absent_witness :
  pdfSupported noPdfPlatform = false
  /\ addPdfFile noPdfPlatform reportA freshPage = (Some (0%nat, 0%nat), freshPage)
  /\ fst (addFiles noPdfPlatform mixedBatch freshPage)
     = {| Batch.added := 1; Batch.supported := 3; Batch.unsupported := 0;
          Batch.pdfUnsupported := 2; Batch.packageSlidesAdded := 0;
          Batch.packagesProcessed := 0; Batch.packageErrors := 0;
          Batch.packageSlidesTotal := 0 |}
  /\ snd (addFiles noPdfPlatform mixedBatch freshPage)
     = snd (addFiles noPdfPlatform [photo] freshPage).
Proof.
  split; [reflexivity|].
  destruct (pdf_capability_absent noPdfPlatform mixedBatch reportA freshPage eq_refl)
    as [H1 H2].
  split; [exact H1|].
  rewrite H2. split; vm_compute; reflexivity.
Defined.

(** ** The format gate of the package codec *)

(** C4, as the code has it.  A package file that does not parse, or
    whose top-level value is falsy or not an object, or whose [version]
    does not convert to the number 1 under [Number()], or whose [slides]
    is not an array, is answered with [{added: 0, total: 0, error: true}]
    and the whole page state (gallery entries, signature set, store,
    delay setting) stays as it was. *)
Theorem unsupported_format_rejected pf (file : File.t) (st : State) :
  match File.json_text file with
  | None => True
  | Some data =>
      falsy data = true \/ typeof_object data = false
      \/ num_eqb (ToNumber pf (member "version" data)) (num 1) = false
      \/ isArray (member "slides" data) = false
  end ->
  importSavedPackage pf file st = (Package.failure, st).
Proof.
  unfold importSavedPackage.
  destruct (File.json_text file) as [data|]; [|reflexivity].
  intros Hbad.
  assert (Hgate : unsupportedFormat pf data = true).
  { unfold unsupportedFormat, SAVE_PACKAGE_VERSION.
    destruct Hbad as [-> | [-> | [-> | ->]]]; cbn;
      rewrite ?orb_true_r; reflexivity. }
  now rewrite Hgate.
Qed.

Lemma unsupported_format_rejected_witness :
  (falsy versionTwoData = true \/ typeof_object versionTwoData = false
   \/ num_eqb (ToNumber demoPlatform (member "version" versionTwoData)) (num 1) = false
   \/ isArray (member "slides" versionTwoData) = false)
  /\ importSavedPackage demoPlatform (package "old.json" versionTwoData) freshPage
     = (Package.failure, freshPage).
Proof.
  split.
  - right; right; left. reflexivity.
  - apply (unsupported_format_rejected demoPlatform (package "old.json" versionTwoData)).
    right; right; left. reflexivity.
Defined.

(** C4 as stated fails: the [version] of [looseVersionData] is the
    boolean [true], which differs from 1, yet [Number(true)] is 1 and the
    package is decoded: one slide of one is added without an error flag,
    and the page state changes. *)
Lemma version_gate_counterexample :
  member "version" looseVersionData = Some (JBool true)
  /\ JBool true <> JNum (num 1)
  /\ fst (importSavedPackage demoPlatform (package "loose.json" looseVersionData) freshPage)
     = {| Package.added := 1; Package.total := 1; Package.error := false |}
  /\ snd (importSavedPackage demoPlatform (package "loose.json" looseVersionData) freshPage)
     <> freshPage.
Proof.
  split; [reflexivity|]. split; [discriminate|]. split; [vm_compute; reflexivity|].
  intros H. apply (f_equal delayRange) in H. vm_compute in H. discriminate H.
Qed.

(** ** The delay of an imported package *)

Lemma registerEntry_delay pf blob label signature persist addedAt v :
  preserves (fun st => delaySetting st = v)
            (registerEntry pf blob label signature persist addedAt).
Proof.
  intros st <-. rewrite registerEntry_run. cbn zeta.
  destruct (decide (signature ∈ imageSignatures st)); cbn [snd];
    destruct addedAt; try reflexivity;
    unfold registered; destruct persist; reflexivity.
Qed.

Lemma now_delay pf v : preserves (fun st => delaySetting st = v) (now pf).
Proof. now intros st <-. Qed.

Lemma generateImportSignature_delay pf v :
  preserves (fun st => delaySetting st = v) (generateImportSignature pf).
Proof. now intros st <-. Qed.

#[export] Hint Resolve registerEntry_delay now_delay generateImportSignature_delay
  : preserve.

Lemma importSlides_delay pf slides v : forall added,
  preserves (fun st => delaySetting st = v) (importSlides pf slides added).
Proof.
  induction slides as [|slide rest IH]; intros added; cbn [importSlides].
  - apply preserves_ret.
  - apply preserves_bind; [|intros ?; apply IH].
    unfold importSlide. preserve.
Qed.

Lemma applyDelay_setting value st :
  delaySetting (snd (applyDelay value true st))
  = (clampDelay value, clampDelay value,
     match localStorage st with
     | Some _ => Some (Some (clampDelay value))
     | None => None
     end).
Proof.
  unfold applyDelay. generalize (clampDelay value). intros c.
  unfold storeDelay, bind, gets, modify, ret, delaySetting.
  destruct st as [e s d dr di [ls|] ck en]; reflexivity.
Qed.

Lemma clampDelay_range value :
  num_leb (num 0) (clampDelay value) = true
  /\ num_leb (clampDelay value) (num 2000) = true.
Proof.
  unfold clampDelay, num_or.
  destruct value as [| |q|]; cbn; try (split; reflexivity).
  destruct (Qeq_bool q 0) eqn:Hz; cbn; [split; reflexivity|].
  destruct (Qle_bool (inject_Z 0) q) eqn:H0; cbn; [|split; reflexivity].
  destruct (Qle_bool (inject_Z 2000) q) eqn:H2; cbn; [split; reflexivity|].
  split; [exact H0|].
  apply Qle_bool_iff, Qlt_le_weak, Qnot_le_lt.
  intros Hle. apply Qle_bool_iff in Hle. congruence.
Qed.

(** C10.  A structurally valid version-1 package whose [delay] has type
    number sets the delay before any slide entry is looked at: the slide
    loop starts from the state [applyDelay] left, and whatever the
    entries are (corrupt, duplicates, none added) the two delay controls
    end at the clamped delay and so does the stored delay when
    [localStorage] exists.  The clamped delay lies in 0..2000, and NaN
    is clamped to 0. *)
Theorem import_applies_delay pf (file : File.t) (data : json) (delay : number)
    (st : State) :
  File.json_text file = Some data ->
  unsupportedFormat pf data = false ->
  member "delay" data = Some (JNum delay) ->
  let st1 := snd (applyDelay delay true st) in
  let slides := items_of (member "slides" data) in
  let st' := snd (importSavedPackage pf file st) in
  importSavedPackage pf file st
  = ({| Package.added := fst (importSlides pf slides 0 st1);
        Package.total := length slides;
        Package.error := false |},
     snd (importSlides pf slides 0 st1))
  /\ delayRange st' = clampDelay delay
  /\ delayInput st' = clampDelay delay
  /\ localStorage st' = match localStorage st with
                        | Some _ => Some (Some (clampDelay delay))
                        | None => None
                        end
  /\ num_leb (num 0) (clampDelay delay) = true
  /\ num_leb (clampDelay delay) (num 2000) = true
  /\ clampDelay NaN = num 0.
Proof.
  intros Hjson Hgate Hdelay st1 slides st'.
  assert (Hrun : importSavedPackage pf file st
                 = ({| Package.added := fst (importSlides pf slides 0 st1);
                       Package.total := length slides;
                       Package.error := false |},
                    snd (importSlides pf slides 0 st1))).
  { unfold importSavedPackage. rewrite Hjson, Hgate, Hdelay.
    unfold bind at 1. fold st1.
    destruct (applyDelay delay true st) as [[] st1'] eqn:Happly.
    subst st1. cbn [snd]. unfold bind, ret. fold slides.
    now destruct (importSlides pf slides 0 st1'). }
  split; [exact Hrun|].
  assert (Hset : delaySetting st' = delaySetting st1).
  { subst st'. rewrite Hrun. cbn [snd].
    now apply (importSlides_delay pf slides (delaySetting st1) 0%nat st1). }
  subst st1. rewrite applyDelay_setting in Hset.
  unfold delaySetting in Hset. injection Hset as -> -> ->.
  repeat split; try apply clampDelay_range.
Qed.

Lemma import_applies_delay_witness :
  (File.json_text (package "p.json" corruptOnlyData) = Some corruptOnlyData
   /\ unsupportedFormat demoPlatform corruptOnlyData = false
   /\ member "delay" corruptOnlyData = Some (JNum (num 5000)))
  /\ Package.added (fst (importSavedPackage demoPlatform (package "p.json" corruptOnlyData)
                                           freshPage)) = 0%nat
  /\ delayRange (snd (importSavedPackage demoPlatform (package "p.json" corruptOnlyData)
                                        freshPage)) = num 2000
  /\ localStorage (snd (importSavedPackage demoPlatform (package "p.json" corruptOnlyData)
                                          freshPage)) = Some (Some (num 2000)).
Proof.
  split; [repeat split; reflexivity|].
  destruct (import_applies_delay demoPlatform (package "p.json" corruptOnlyData)
              corruptOnlyData (num 5000) freshPage eq_refl eq_refl eq_refl)
    as (Hrun & Hrange & _ & Hstored & _).
  split; [rewrite Hrun; reflexivity|].
  split; [rewrite Hrange; reflexivity|].
  rewrite Hstored. reflexivity.
Defined.

(** ** Sorting by [addedAt] *)

Section SortFacts.
Context {A : Type} (after : A -> A -> bool).
Hypothesis after_total : forall x y, after x y = true -> after y x = false.

Let le (x y : A) : Prop := after x y = false.

Lemma insert_sorted_HdRel x y l :
  le y x -> HdRel le y l -> HdRel le y (insert_sorted after x l).
Proof.
  intros Hyx Hhd. destruct l as [|z l]; cbn [insert_sorted].
  - now constructor.
  - destruct (after x z); constructor; [now inversion Hhd|assumption].
Qed.

Lemma insert_sorted_Sorted x l :
  Sorted le l -> Sorted le (insert_sorted after x l).
Proof.
  induction 1 as [|y l Hs IH Hhd]; cbn [insert_sorted].
  - repeat constructor.
  - destruct (after x y) eqn:Hxy.
    + constructor; [exact IH|].
      apply insert_sorted_HdRel; [now apply after_total|assumption].
    + constructor; [now constructor|now constructor].
Qed.

Lemma Array_sort_Sorted l : Sorted le (Array_sort after l).
Proof.
  induction l as [|x l IH]; cbn; [constructor|].
  now apply insert_sorted_Sorted.
Qed.
End SortFacts.

Lemma num_or_not_NaN x : num_or x (num 0) <> NaN.
Proof. unfold num_or. now destruct x as [| |q|]; cbn; [| |destruct (Qeq_bool q 0)|]. Qed.

Lemma num_leb_total a b :
  a <> NaN -> b <> NaN -> num_leb a b = false -> num_leb b a = true.
Proof.
  destruct a as [| |x|], b as [| |y|]; cbn; try congruence.
  intros _ _ Hxy. apply Qle_bool_iff, Qlt_le_weak, Qnot_le_lt.
  intros Hle. apply Qle_bool_iff in Hle. congruence.
Qed.

Lemma getPersistedSlides_sorted (store : gmap string Slide.t) :
  Sorted addedAt_le (Array_sort addedAt_after (getAll store)).
Proof.
  eapply Sorted_ind with (P := Sorted addedAt_le);
    [constructor| |apply (Array_sort_Sorted addedAt_after)].
  - intros a l _ IH Hhd. constructor; [exact IH|].
    destruct Hhd as [|b l Hab]; constructor.
    unfold addedAt_le. unfold addedAt_after in Hab.
    now apply negb_false_iff in Hab.
  - intros x y Hxy. unfold addedAt_after in *.
    apply negb_true_iff in Hxy. apply negb_false_iff.
    apply num_leb_total; auto using num_or_not_NaN.
Qed.

(** ** Restore *)

Lemma registerEntry_no_persist_db pf blob label signature addedAt d :
  preserves (fun st => db st = d) (registerEntry pf blob label signature false addedAt).
Proof.
  intros st <-. rewrite registerEntry_run. cbn zeta.
  destruct (decide (signature ∈ imageSignatures st)); cbn [snd];
    destruct addedAt; reflexivity.
Qed.

Lemma now_db pf d : preserves (fun st => db st = d) (now pf).
Proof. now intros st <-. Qed.

#[export] Hint Resolve registerEntry_no_persist_db now_db : preserve.

(** [restorePersistedSlides] never writes to the store. *)
Lemma restorePersistedSlides_db pf st :
  db (snd (restorePersistedSlides pf st)) = db st.
Proof.
  assert (H : preserves (fun st' => db st' = db st) (restorePersistedSlides pf));
    [|exact (H st eq_refl)].
  unfold restorePersistedSlides. apply preserves_bind.
  - intros st0 H. unfold getPersistedSlides, bind, gets, ret. cbn.
    destruct (db st0) eqn:Hdb; cbn; now rewrite Hdb.
  - intros slides. induction slides as [|slide rest IH]; cbn [restoreSlides].
    + apply preserves_ret.
    + apply preserves_bind; [|intros _; apply IH].
      unfold restoreSlide.
      destruct (String.eqb _ _); [apply preserves_ret|].
      destruct (Slide.blob slide); [|destruct (Slide.bytes slide)]; preserve.
Qed.

Lemma restoreSlide_new pf slide st :
  restorable slide = true ->
  Slide.signature slide ∉ imageSignatures st ->
  imageEntries (snd (restoreSlide pf slide st))
  = imageEntries st ++ [restoredEntry slide]
  /\ imageSignatures (snd (restoreSlide pf slide st))
     = {[Slide.signature slide]} ∪ imageSignatures st.
Proof.
  unfold restorable, restoredEntry, restoreSlide. intros Hok Hnew.
  apply andb_prop in Hok as [Hsig Hblob]. apply negb_true_iff in Hsig.
  rewrite Hsig. fold (restoredBlob slide).
  destruct (restoredBlob slide) as [blob|]; [|discriminate].
  unfold bind.
  destruct (num_falsy (Slide.addedAt slide)); unfold now, bind, gets, modify, ret;
    cbn [fst snd]; rewrite registerEntry_run; cbn zeta;
    (destruct (decide _) as [Hin|_]; [now destruct Hnew|]);
    cbn [snd]; now split.
Qed.

Lemma restoreSlide_not_new pf slide st :
  restores (imageSignatures st) slide = false ->
  imageEntries (snd (restoreSlide pf slide st)) = imageEntries st
  /\ imageSignatures (snd (restoreSlide pf slide st)) = imageSignatures st.
Proof.
  unfold restores, restorable, restoreSlide. intros Hskip.
  destruct (String.eqb (Slide.signature slide) ""); [now split|].
  fold (restoredBlob slide) in *.
  destruct (restoredBlob slide) as [blob|]; [|now split].
  cbn in Hskip. apply bool_decide_eq_false_1 in Hskip.
  assert (Hknown : Slide.signature slide ∈ imageSignatures st).
  { destruct (decide (Slide.signature slide ∈ imageSignatures st)); tauto. }
  unfold bind.
  destruct (num_falsy (Slide.addedAt slide)); unfold now, bind, gets, modify, ret;
    cbn [fst snd]; rewrite registerEntry_run; cbn zeta;
    (destruct (decide _) as [_|Hnew]; [|now destruct Hnew]);
    cbn [snd]; now split.
Qed.

(** The restore loop appends, in the order of the records, the entry
    of every record that has a signature and a payload and is not yet
    known. *)
Lemma restoreSlides_run pf slides : forall st,
  List.NoDup (map Slide.signature slides) ->
  imageEntries (snd (restoreSlides pf slides st))
  = imageEntries st
    ++ map restoredEntry (List.filter (restores (imageSignatures st)) slides).
Proof.
  induction slides as [|slide rest IH]; intros st Hnodup;
    cbn [restoreSlides List.filter].
  - cbn. now rewrite app_nil_r.
  - inversion Hnodup as [|? ? Hnotin Hnodup']; subst.
    unfold bind.
    destruct (restores (imageSignatures st) slide) eqn:Hhead.
    + unfold restores in Hhead. apply andb_prop in Hhead as [Hok Hnew].
      apply bool_decide_eq_true_1 in Hnew.
      destruct (restoreSlide_new pf slide st Hok Hnew) as [He Hs].
      destruct (restoreSlide pf slide st) as [[] st1]. cbn [snd] in *.
      rewrite (IH st1 Hnodup'), He, Hs, <- app_assoc. cbn [map app].
      do 3 f_equal. apply filter_ext_in. intros r Hr.
      unfold restores. f_equal. apply bool_decide_ext.
      rewrite elem_of_union, elem_of_singleton.
      assert (Slide.signature r <> Slide.signature slide)
        by (intros Heq; apply Hnotin; rewrite <- Heq; now apply in_map).
      tauto.
    + destruct (restoreSlide_not_new pf slide st Hhead) as [He Hs].
      destruct (restoreSlide pf slide st) as [[] st1]. cbn [snd] in *.
      now rewrite (IH st1 Hnodup'), He, Hs.
Qed.

(** C6.  Whatever the page state, [restorePersistedSlides] writes
    nothing: the store with its N records is as before.  The gallery
    grows by the entries of the records that have a signature and a
    payload and are not yet known, in the order [getPersistedSlides]
    returns the records, which is a rearrangement of the store's records
    into ascending [addedAt].  On a page that has just loaded (empty
    gallery, where the restore runs) over records that all have a
    signature and a payload, the gallery becomes exactly the entries of
    the N records in that order. *)
Theorem restore_without_repersist pf (st : State) (store : gmap string Slide.t) :
  db st = Some store ->
  keyed store = true ->
  let records := fst (getPersistedSlides st) in
  let st' := snd (restorePersistedSlides pf st) in
  db st' = Some store
  /\ Permutation records (getAll store)
  /\ Sorted addedAt_le records
  /\ imageEntries st'
     = imageEntries st
       ++ map restoredEntry (List.filter (restores (imageSignatures st)) records)
  /\ (loaded st = true -> forallb restorable (getAll store) = true ->
      imageEntries st' = map restoredEntry records
      /\ length (imageEntries st') = size store).
Proof.
  intros Hdb Hkeyed.
  assert (Hget : getPersistedSlides st
                 = (Array_sort addedAt_after (getAll store), st)).
  { unfold getPersistedSlides, bind, gets, ret. cbn. now rewrite Hdb. }
  cbn zeta. rewrite Hget. cbn [fst].
  set (records := Array_sort addedAt_after (getAll store)).
  assert (Hperm : Permutation records (getAll store))
    by apply Array_sort_Permutation.
  assert (Hentries : imageEntries (snd (restorePersistedSlides pf st))
                     = imageEntries st
                       ++ map restoredEntry
                            (List.filter (restores (imageSignatures st)) records)).
  { unfold restorePersistedSlides, bind. rewrite Hget. fold records.
    apply restoreSlides_run.
    rewrite (Permutation_map Slide.signature Hperm).
    now apply store_keyed_NoDup, keyed_store_keyed. }
  split; [now rewrite restorePersistedSlides_db|].
  split; [exact Hperm|].
  split; [apply getPersistedSlides_sorted|].
  split; [exact Hentries|].
  intros Hloaded Hok.
  unfold loaded in Hloaded.
  apply andb_prop in Hloaded as [Hloaded _].
  apply andb_prop in Hloaded as [He Hs].
  apply bool_decide_eq_true_1 in Hs.
  destruct (imageEntries st) eqn:Hgallery; [|discriminate].
  assert (Hall : List.filter (restores (imageSignatures st)) records = records).
  { apply forallb_filter_id, forallb_forall. intros r Hr.
    rewrite forallb_forall in Hok. unfold restores.
    rewrite (Hok r (Permutation_in _ Hperm Hr)), Hs. cbn.
    apply bool_decide_eq_true_2, not_elem_of_empty. }
  rewrite Hentries, Hall. cbn [app]. split; [reflexivity|].
  rewrite length_map, (Permutation_length Hperm).
  rewrite (Permutation_length (getAll_Permutation store)), length_map.
  apply length_map_to_list.
Qed.

Lemma restore_without_repersist_witness :
  (db startupPage = Some threeSlides /\ keyed threeSlides = true)
  /\ (loaded startupPage = true /\ forallb restorable (getAll threeSlides) = true)
  /\ db (snd (restorePersistedSlides demoPlatform startupPage)) = Some threeSlides
  /\ map Entry.signature (imageEntries (snd (restorePersistedSlides demoPlatform startupPage)))
     = ["b.png"; "c.png"; "a.png"]
  /\ map Slide.addedAt (fst (getPersistedSlides startupPage)) = [num 10; num 20; num 30]
  /\ length (imageEntries (snd (restorePersistedSlides demoPlatform startupPage))) = 3%nat.
Proof.
  split; [split; [reflexivity|vm_compute; reflexivity]|].
  split; [split; vm_compute; reflexivity|].
  destruct (restore_without_repersist demoPlatform startupPage threeSlides eq_refl)
    as (Hstore & _ & _ & _ & Hstartup); [vm_compute; reflexivity|].
  destruct Hstartup as [Hentries Hlength]; [vm_compute; reflexivity..|].
  split; [exact Hstore|].
  split; [rewrite Hentries; vm_compute; reflexivity|].
  split; [vm_compute; reflexivity|].
  rewrite Hlength. vm_compute; reflexivity.
Defined.

(** ** Signature uniqueness *)

(** C7.  In every reachable state (a page load followed by any sequence
    of pipeline operations, including bare registration steps) no two
    gallery entries share a signature, no two records of the store share
    a signature, and the signature set contains the signature of every
    gallery entry; and every operation (image ingest, document ingest,
    package import, restore, reset, ...) run from such a state leaves
    one.  The gallery gains entries only in [registerEntry], whose test
    and insertion are one step. *)
Theorem signature_uniqueness pf (st : State) :
  reachable pf st ->
  signaturesUnique st /\ forall op, signaturesUnique (perform pf op st).
Proof.
  assert (Hunique : forall st', invariant st' -> signaturesUnique st').
  { intros st' [H1 H2 H3]. split; [exact H1|]. split; [|exact H2].
    intros store Hdb. apply store_keyed_NoDup, (H3 store Hdb). }
  intros Hreach. split.
  - now apply Hunique, (reachable_invariant pf).
  - intros op. now apply Hunique, perform_invariant, (reachable_invariant pf).
Qed.

Lemma signature_uniqueness_witness :
  reachable demoPlatform demoSessionEnd
  /\ signaturesUnique demoSessionEnd
  /\ signaturesUnique (perform demoPlatform (ImportSavedPackage exportedFile)
                                demoSessionEnd).
Proof.
  assert (Hreach : reachable demoPlatform demoSessionEnd).
  { unfold demoSessionEnd, demoSession. cbn [fold_left].
    repeat apply reachable_step. apply reachable_load. vm_compute. reflexivity. }
  split; [exact Hreach|].
  destruct (signature_uniqueness demoPlatform demoSessionEnd Hreach) as [Hnow Hnext].
  split; [exact Hnow|apply Hnext].
Defined.

(** ** The slide loop of the package decoder *)

Lemma importSlide_skipped pf slide st :
  decodeSlide slide = None -> importSlide pf slide st = (false, st).
Proof.
  unfold decodeSlide, importSlide.
  destruct (member "bytes" slide) as [[| | |bytes| |]|]; try reflexivity.
  now intros ->.
Qed.

Lemma importSlide_registered pf slide buffer st :
  decodeSlide slide = Some buffer ->
  slideSignature slide <> "" ->
  slideSignature slide ∉ imageSignatures st ->
  importSlide pf slide st = (true, importedState pf slide buffer st).
Proof.
  unfold decodeSlide, importSlide, importedState, slideSignature.
  destruct (member "bytes" slide) as [[| | |bytes| |]|]; try discriminate.
  intros -> Hsig Hnew.
  apply String.eqb_neq in Hsig. rewrite Hsig.
  unfold bind at 1. unfold ret at 1. unfold bind at 1.
  destruct (num_falsy (number_member "addedAt" slide));
    unfold now, bind, gets, modify, ret; cbn [fst snd];
    rewrite registerEntry_run; cbn zeta;
    (destruct (decide _) as [Hin|_]; [now destruct Hnew|]); reflexivity.
Qed.


Lemma importedState_signatures pf slide buffer st :
  imageSignatures (importedState pf slide buffer st)
  = {[slideSignature slide]} ∪ imageSignatures st.
Proof.
  unfold importedState. rewrite registered_signatures.
  now destruct (num_falsy _).
Qed.












(** ** Round trip of the package codec *)








(** The records ingestion writes are well formed: a session that
    ingested a document and images leaves such a store. *)
Example ingested_records_wellFormed :
  forallb wellFormed
          (match db ingestedPage with Some store => getAll store | None => [] end)
  = true
  /\ map Slide.label
         (match db ingestedPage with Some store => getAll store | None => [] end)
     = ["a"; "brochure.pdf - page 1"; "brochure.pdf - page 3"; "cat.png"].
Proof. split; vm_compute; reflexivity. Qed.

(** * Properties of the handlers and of the pipeline as a whole *)

(** ** Counting what a computation adds *)

Lemma bind_run {A B} (m : M A) (k : A -> M B) st :
  bind m k st = k (fst (m st)) (snd (m st)).
Proof. unfold bind. now destruct (m st). Qed.

Lemma grows_same st st' :
  imageEntries st' = imageEntries st ->
  imageSignatures st' = imageSignatures st ->
  db st' = db st ->
  grows 0 st st'.
Proof.
  intros He Hs Hd. repeat apply conj.
  - exists []. now rewrite He, app_nil_r.
  - now rewrite Hs.
  - now intros _.
Qed.

Lemma grows_trans n m st st1 st2 :
  grows n st st1 -> grows m st1 st2 -> grows (n + m) st st2.
Proof.
  intros ([new1 [He1 Hl1]] & Hs1 & Hz1) ([new2 [He2 Hl2]] & Hs2 & Hz2).
  repeat apply conj.
  - exists (new1 ++ new2). rewrite He2, He1, <- app_assoc, length_app. now split; [|lia].
  - now transitivity (imageSignatures st1).
  - intros Hz.
    assert (Hn : n = 0%nat) by lia. assert (Hm : m = 0%nat) by lia.
    destruct (Hz1 Hn) as [Hs Hd]. destruct (Hz2 Hm) as [Hs' Hd'].
    split; congruence.
Qed.

Lemma counting_ret {A} (f : A -> nat) (a : A) : f a = 0%nat -> counting f (ret a).
Proof. intros Hf st. cbn. rewrite Hf. now apply grows_same. Qed.

Lemma counting_bind {A B} (f : B -> nat) (m : M A) (k : A -> M B) :
  counting (fun _ => 0%nat) m -> (forall a, counting f (k a)) -> counting f (bind m k).
Proof.
  intros Hm Hk st. rewrite bind_run.
  exact (grows_trans 0 _ _ _ _ (Hm st) (Hk _ _)).
Qed.

Lemma counting_silent {A} (m : M A) :
  (forall st, imageEntries (snd (m st)) = imageEntries st
              /\ imageSignatures (snd (m st)) = imageSignatures st
              /\ db (snd (m st)) = db st) ->
  counting (fun _ => 0%nat) m.
Proof. intros H st. destruct (H st) as (He & Hs & Hd). now apply grows_same. Qed.

Lemma now_counting pf : counting (fun _ => 0%nat) (now pf).
Proof. now apply counting_silent. Qed.

Lemma generateImportSignature_counting pf :
  counting (fun _ => 0%nat) (generateImportSignature pf).
Proof. now apply counting_silent. Qed.

Lemma applyDelay_gallery value persist st :
  imageEntries (snd (applyDelay value persist st)) = imageEntries st
  /\ imageSignatures (snd (applyDelay value persist st)) = imageSignatures st
  /\ db (snd (applyDelay value persist st)) = db st.
Proof.
  unfold applyDelay, storeDelay. rewrite !bind_run. cbn.
  destruct persist; cbn; [destruct (localStorage st)|]; now cbn.
Qed.

Lemma applyDelay_counting value persist :
  counting (fun _ => 0%nat) (applyDelay value persist).
Proof. apply counting_silent. intros st. apply applyDelay_gallery. Qed.

Lemma registerEntry_counting pf blob label signature persist addedAt :
  counting one (registerEntry pf blob label signature persist addedAt).
Proof.
  intros st. rewrite registerEntry_run. cbn zeta.
  destruct (decide _) as [Hin|Hnot]; cbn [fst snd one].
  - now destruct addedAt; apply grows_same.
  - repeat apply conj.
    + eexists. split; [rewrite registered_entries; destruct addedAt; reflexivity|].
      reflexivity.
    + rewrite registered_signatures. destruct addedAt; cbn; set_solver.
    + discriminate.
Qed.

Lemma importSlide_counting pf slide : counting one (importSlide pf slide).
Proof.
  unfold importSlide.
  destruct (member "bytes" slide) as [[]|]; try (now apply counting_ret).
  destruct (base64ToArrayBuffer s); [|now apply counting_ret].
  apply counting_bind.
  - destruct (String.eqb _ _);
      [apply generateImportSignature_counting|now apply counting_silent].
  - intros signature. apply counting_bind.
    + destruct (num_falsy _); [apply now_counting|now apply counting_silent].
    + intros addedAt. apply registerEntry_counting.
Qed.

Lemma importSlides_grows pf slides : forall added st,
  exists n,
    fst (importSlides pf slides added st) = (added + n)%nat
    /\ (n <= length slides)%nat
    /\ grows n st (snd (importSlides pf slides added st)).
Proof.
  induction slides as [|slide rest IH]; intros added st.
  - exists 0%nat. cbn. split; [lia|split; [lia|now apply grows_same]].
  - cbn [importSlides]. rewrite bind_run.
    pose proof (importSlide_counting pf slide st) as H1.
    destruct (importSlide pf slide st) as [b st1]. cbn [fst snd] in *.
    destruct (IH (if b then S added else added) st1) as (n & Hn & Hle & Hg).
    exists (one b + n)%nat. rewrite Hn. cbn [length].
    split; [destruct b; cbn; lia|split; [destruct b; cbn; lia|]].
    exact (grows_trans _ _ _ _ _ H1 Hg).
Qed.

Lemma importSavedPackage_grows pf file st :
  grows (Package.added (fst (importSavedPackage pf file st))) st
        (snd (importSavedPackage pf file st))
  /\ (Package.added (fst (importSavedPackage pf file st))
      <= Package.total (fst (importSavedPackage pf file st)))%nat.
Proof.
  unfold importSavedPackage.
  destruct (File.json_text file) as [data|]; [|split; [now apply grows_same|cbn; lia]].
  destruct (unsupportedFormat pf data); [split; [now apply grows_same|cbn; lia]|].
  rewrite !bind_run. cbn [ret fst snd Package.added Package.total].
  set (st1 := snd (_ st)).
  assert (H0 : grows 0 st st1).
  { subst st1. destruct (member "delay" data) as [[]|]; try (now apply grows_same).
    apply applyDelay_counting. }
  destruct (importSlides_grows pf (items_of (member "slides" data)) 0%nat st1)
    as (n & Hn & Hle & Hg).
  rewrite Hn. cbn. split; [exact (grows_trans 0 _ _ _ _ H0 Hg)|exact Hle].
Qed.

Lemma addImageFile_counting pf file : counting (fun n => n) (addImageFile pf file).
Proof.
  intros st. rewrite addImageFile_run.
  destruct (decide _) as [Hin|Hnot]; cbn [fst snd].
  - now apply grows_same.
  - repeat apply conj.
    + eexists. split; [rewrite registered_entries; reflexivity|reflexivity].
    + rewrite registered_signatures. cbn. set_solver.
    + discriminate.
Qed.

Lemma addPdfPage_counting pf file pageNumber page :
  counting one (addPdfPage pf file pageNumber page).
Proof.
  unfold addPdfPage. intros st. rewrite bind_run. cbn [gets fst snd].
  destruct (decide _); [now apply grows_same|].
  destruct page; try (now apply grows_same).
  apply registerEntry_counting.
Qed.

Lemma addPdfPages_grows pf file pages : forall pageNumber added st,
  exists n,
    fst (addPdfPages pf file pages pageNumber added st) = (added + n)%nat
    /\ (n <= length pages)%nat
    /\ grows n st (snd (addPdfPages pf file pages pageNumber added st)).
Proof.
  induction pages as [|page rest IH]; intros pageNumber added st.
  - exists 0%nat. cbn. split; [lia|split; [lia|now apply grows_same]].
  - cbn [addPdfPages]. rewrite bind_run.
    pose proof (addPdfPage_counting pf file pageNumber page st) as H1.
    destruct (addPdfPage pf file pageNumber page st) as [b st1]. cbn [fst snd] in *.
    destruct (IH (pageNumber + 1)%N (if b then S added else added) st1)
      as (n & Hn & Hle & Hg).
    exists (one b + n)%nat. rewrite Hn. cbn [length].
    split; [destruct b; cbn; lia|split; [destruct b; cbn; lia|]].
    exact (grows_trans _ _ _ _ _ H1 Hg).
Qed.

Lemma addPdfFile_counting pf file : counting pagesAdded (addPdfFile pf file).
Proof.
  intros st. unfold addPdfFile.
  destruct (negb (pdfSupported pf)); [now apply grows_same|].
  destruct (File.pdf file) as [pages|]; [|now apply grows_same].
  rewrite bind_run. cbn [ret fst snd pagesAdded].
  destruct (addPdfPages_grows pf file pages 1%N 0%nat st) as (n & Hn & _ & Hg).
  now rewrite Hn.
Qed.

Lemma importSavedPackage_error pf file st :
  Package.error (fst (importSavedPackage pf file st)) = true ->
  importSavedPackage pf file st = (Package.failure, st).
Proof.
  unfold importSavedPackage.
  destruct (File.json_text file) as [data|]; [|reflexivity].
  destruct (unsupportedFormat pf data); [reflexivity|].
  rewrite !bind_run. cbn. discriminate.
Qed.

Lemma addFile_grows pf file r st :
  exists n,
    Batch.added (fst (addFile pf file r st)) = (Batch.added r + n)%nat
    /\ grows n st (snd (addFile pf file r st)).
Proof.
  unfold addFile.
  destruct (isPackageCandidate file).
  { rewrite bind_run.
    destruct (importSavedPackage_grows pf file st) as [Hg _].
    destruct (Package.error _) eqn:Herr; cbn [ret fst snd Batch.added].
    - exists 0%nat. split; [lia|].
      rewrite (importSavedPackage_error _ _ _ Herr). now apply grows_same.
    - eexists. split; [reflexivity|exact Hg]. }
  destruct (isImage file).
  { rewrite bind_run. cbn [ret fst snd Batch.added].
    eexists. split; [reflexivity|apply (addImageFile_counting pf file st)]. }
  destruct (isPdf file); [|exists 0%nat; cbn; split; [lia|now apply grows_same]].
  destruct (negb (pdfSupported pf)); [exists 0%nat; cbn; split; [lia|now apply grows_same]|].
  rewrite bind_run. cbn [ret fst snd Batch.added].
  eexists. split; [reflexivity|apply (addPdfFile_counting pf file st)].
Qed.

Lemma addFiles_loop_grows pf files : forall r st,
  exists n,
    Batch.added (fst (addFiles_loop pf files r st)) = (Batch.added r + n)%nat
    /\ grows n st (snd (addFiles_loop pf files r st)).
Proof.
  induction files as [|file rest IH]; intros r st.
  - exists 0%nat. cbn. split; [lia|now apply grows_same].
  - cbn [addFiles_loop]. rewrite bind_run.
    destruct (addFile_grows pf file r st) as (n & Hn & Hg).
    destruct (IH (fst (addFile pf file r st)) (snd (addFile pf file r st)))
      as (m & Hm & Hg').
    exists (n + m)%nat. split; [lia|exact (grows_trans _ _ _ _ _ Hg Hg')].
Qed.

(** ** The counts of a batch *)

(** X1: the number [added] that [addFiles] reports is the number of
    entries the gallery gained: the entries that were there stay where
    they were, the new ones follow them, no signature is forgotten,
    and a batch that reports nothing added leaves the gallery, the
    signature set and the store as they were. *)
Theorem addFiles_added_is_growth pf (files : list File.t) (st : State) :
  let result := fst (addFiles pf files st) in
  let st' := snd (addFiles pf files st) in
  (exists new,
     imageEntries st' = imageEntries st ++ new /\ length new = Batch.added result)
  /\ imageSignatures st ⊆ imageSignatures st'
  /\ (Batch.added result = 0%nat ->
      imageEntries st' = imageEntries st
      /\ imageSignatures st' = imageSignatures st
      /\ db st' = db st).
Proof.
  cbn zeta. unfold addFiles.
  destruct (addFiles_loop_grows pf files Batch.zero st) as (n & Hn & Hg).
  cbn in Hn. rewrite Hn.
  destruct Hg as ([new [He Hl]] & Hs & Hz).
  split; [now exists new|]. split; [exact Hs|].
  intros ->. destruct (Hz eq_refl) as [Hs' Hd].
  destruct new; [|discriminate]. now rewrite He, app_nil_r.
Qed.

Lemma addFile_accounted pf file n r st :
  accounted n r -> accounted (S n) (fst (addFile pf file r st)).
Proof.
  intros [H1 H2 H3 H4 H5 H6]. unfold addFile.
  destruct (isPackageCandidate file).
  { rewrite bind_run.
    destruct (importSavedPackage_grows pf file st) as [_ Hle].
    destruct (Package.error _); constructor; cbn; lia. }
  destruct (isImage file).
  { rewrite bind_run. constructor; cbn; lia. }
  destruct (isPdf file); [|constructor; cbn; lia].
  destruct (negb (pdfSupported pf)); [constructor; cbn; lia|].
  rewrite bind_run. constructor; cbn; lia.
Qed.

Lemma addFiles_loop_accounted pf files : forall n r st,
  accounted n r -> accounted (length files + n) (fst (addFiles_loop pf files r st)).
Proof.
  induction files as [|file rest IH]; intros n r st Hr; [exact Hr|].
  cbn [addFiles_loop length]. rewrite bind_run.
  replace (S (length rest) + n)%nat with (length rest + S n)%nat by lia.
  apply IH. now apply addFile_accounted.
Qed.

Lemma accounted_zero : accounted 0 Batch.zero.
Proof. constructor; cbn; lia. Qed.

(** X2: the counts of a batch add up.  Every file is counted once as
    unsupported, as a processed package or as supported, where
    [supported] also holds the slides of the processed packages; the
    failed packages are among the unsupported files, the documents
    refused for want of PDF.js among the supported ones, and the slides
    added from packages are among the slides added and among the
    slides the packages held. *)
Theorem addFiles_counts_add_up pf (files : list File.t) (st : State) :
  let r := fst (addFiles pf files st) in
  (Batch.unsupported r + Batch.packagesProcessed r + Batch.supported r
   = length files + Batch.packageSlidesTotal r)%nat
  /\ (Batch.packageErrors r + Batch.packagesProcessed r <= length files)%nat
  /\ (Batch.packageErrors r <= Batch.unsupported r)%nat
  /\ (Batch.pdfUnsupported r + Batch.packageSlidesTotal r <= Batch.supported r)%nat
  /\ (Batch.packageSlidesAdded r <= Batch.packageSlidesTotal r)%nat
  /\ (Batch.packageSlidesAdded r <= Batch.added r)%nat.
Proof.
  cbn zeta. unfold addFiles.
  destruct (addFiles_loop_accounted pf files 0 Batch.zero st accounted_zero)
    as [H1 H2 H3 H4 H5 H6].
  rewrite Nat.add_0_r in H1, H2. now repeat apply conj.
Qed.

(** ** Feedback *)

Lemma concat_nonempty (m : string) (ms : list string) :
  m <> "" -> String.concat " " (m :: ms) <> "".
Proof.
  intros Hm. destruct m as [|c m]; [contradiction|].
  destruct ms; cbn; [discriminate|]. rewrite string_app_cons. discriminate.
Qed.

Lemma messages_nonempty o r : Forall (fun m => m <> "") (messages o r).
Proof.
  unfold messages. repeat (apply Forall_app; split);
    repeat match goal with
           | |- Forall _ (if ?b then _ else _) => destruct b
           | |- Forall _ [] => constructor
           | |- Forall _ [_] => constructor; [|constructor]
           end.
  - now rewrite string_app_cons.
  - now destruct o.
  - discriminate.
  - destruct o; [destruct (_ <? _)%nat| destruct (_ <? _)%nat | destruct (_ <? _)%nat|];
      discriminate.
  - discriminate.
  - destruct (fromClipboard o); now rewrite string_app_cons.
Qed.

(** X3: a batch that is not empty always gets a status: whatever the
    files were, the handler has at least one message to show, so the
    status line is replaced and no earlier text, such as the progress
    note of a document, is left standing. *)
Theorem batch_feedback pf (o : origin) (file : File.t) (files : list File.t)
    (st : State) :
  let result := fst (addFiles pf (file :: files) st) in
  messages o result <> []
  /\ exists text, status o result = Some text /\ text <> "".
Proof.
  cbn zeta.
  pose proof (addFiles_loop_accounted pf (file :: files) 0 Batch.zero st accounted_zero)
    as H.
  fold (addFiles pf (file :: files)) in H.
  set (r := fst (addFiles pf (file :: files) st)) in *.
  destruct H as [H1 H2 H3 H4 H5 H6]. cbn [length] in H1.
  assert (Hne : messages o r <> []).
  { unfold messages. intros Heq.
    repeat (apply app_eq_nil in Heq as [? Heq]).
    repeat match goal with
           | H : (if ?b then _ else _) = [] |- _ =>
               destruct b eqn:?; [discriminate H|clear H]
           end.
    rewrite ?Bool.andb_false_iff, ?Nat.ltb_ge, ?Nat.eqb_neq in *. lia. }
  split; [exact Hne|].
  pose proof (messages_nonempty o r) as Hall.
  unfold status. destruct (messages o r) as [|m ms] eqn:Hm; [contradiction|].
  apply Forall_cons in Hall as [Hm1 _].
  pose proof (concat_nonempty m ms Hm1) as Hc.
  destruct (fromClipboard o).
  - eexists. split; [reflexivity|].
    apply String.eqb_neq in Hc. rewrite Hc. now apply String.eqb_neq.
  - eexists. split; [reflexivity|exact Hc].
Qed.

(** ** A drop that lists its files twice *)

Lemma addFiles_loop_app pf a b : forall r st,
  addFiles_loop pf (a ++ b) r st
  = addFiles_loop pf b (fst (addFiles_loop pf a r st)) (snd (addFiles_loop pf a r st)).
Proof.
  induction a as [|file a IH]; intros r st; [reflexivity|].
  cbn [app addFiles_loop]. rewrite !bind_run. apply IH.
Qed.

Lemma countSupported_0 r : countSupported 0 r = r.
Proof. now destruct r. Qed.

Lemma addFile_image pf file r st :
  routedAsImage file = true ->
  addFile pf file r st
  = ({| Batch.added := (Batch.added r + fst (addImageFile pf file st))%nat;
        Batch.supported := S (Batch.supported r);
        Batch.unsupported := Batch.unsupported r;
        Batch.pdfUnsupported := Batch.pdfUnsupported r;
        Batch.packageSlidesAdded := Batch.packageSlidesAdded r;
        Batch.packagesProcessed := Batch.packagesProcessed r;
        Batch.packageErrors := Batch.packageErrors r;
        Batch.packageSlidesTotal := Batch.packageSlidesTotal r |},
     snd (addImageFile pf file st)).
Proof.
  unfold routedAsImage, addFile. intros H. apply andb_prop in H as [Hp Hi].
  apply negb_true_iff in Hp. rewrite Hp, Hi, bind_run. reflexivity.
Qed.

Lemma addFiles_loop_images_known pf files : forall r st,
  forallb routedAsImage files = true ->
  (forall f, In f files -> fileSignature f ∈ imageSignatures st) ->
  addFiles_loop pf files r st = (countSupported (length files) r, st).
Proof.
  induction files as [|file rest IH]; intros r st Himg Hknown.
  - cbn. now rewrite countSupported_0.
  - cbn [forallb] in Himg. apply andb_prop in Himg as [Hfile Hrest].
    cbn [addFiles_loop]. rewrite bind_run, (addFile_image _ _ _ _ Hfile).
    rewrite addImageFile_duplicate by (apply Hknown; now left).
    cbn [fst snd]. rewrite IH; [|exact Hrest|intros f Hf; apply Hknown; now right].
    unfold countSupported. cbn. f_equal. f_equal; lia.
Qed.

Lemma addFiles_loop_images pf files : forall r st,
  forallb routedAsImage files = true ->
  Batch.supported (fst (addFiles_loop pf files r st))
  = (length files + Batch.supported r)%nat
  /\ forall f, In f files ->
       fileSignature f ∈ imageSignatures (snd (addFiles_loop pf files r st)).
Proof.
  induction files as [|file rest IH]; intros r st Himg.
  - cbn. split; [reflexivity|contradiction].
  - cbn [forallb] in Himg. apply andb_prop in Himg as [Hfile Hrest].
    cbn [addFiles_loop]. rewrite bind_run, (addFile_image _ _ _ _ Hfile).
    cbn [fst snd].
    match goal with |- context [addFiles_loop pf rest ?r' ?st'] =>
      destruct (IH r' st' Hrest) as [Hs Hk];
      destruct (addFiles_loop_grows pf rest r' st') as (n & _ & _ & Hsub & _)
    end.
    split; [rewrite Hs; cbn; lia|].
    intros f [<-|Hf]; [|now apply Hk].
    apply Hsub, addImageFile_known.
Qed.

Lemma fileItems_collected (l : list File.t) :
  omap DataTransfer.getAsFile
       (List.filter (fun item => String.eqb (DataTransfer.kind item) "file")
                    (map fileItem l)) = l.
Proof. induction l as [|f l IH]; [reflexivity|]. cbn. now rewrite IH. Qed.

(** X4: when a data transfer lists its files both under [files] and
    as items of kind [file], as a drop does, every file is collected
    twice.  For image files the batch then leaves the page as the files
    listed once would, reports the same counts, and counts every file
    twice as supported. *)
Theorem double_listing pf (data : DataTransfer.t) (st : State) :
  DataTransfer.items data = map fileItem (DataTransfer.files data) ->
  forallb routedAsImage (DataTransfer.files data) = true ->
  let files := DataTransfer.files data in
  let once := addFiles pf files st in
  let twice := addFiles pf (collectFilesFromDataTransfer (Some data)) st in
  collectFilesFromDataTransfer (Some data) = files ++ files
  /\ snd twice = snd once
  /\ fst twice = countSupported (length files) (fst once)
  /\ Batch.supported (fst once) = length files
  /\ Batch.supported (fst twice) = (2 * length files)%nat.
Proof.
  intros Hitems Himg. cbn zeta.
  assert (Hc : collectFilesFromDataTransfer (Some data)
               = DataTransfer.files data ++ DataTransfer.files data).
  { unfold collectFilesFromDataTransfer. now rewrite Hitems, fileItems_collected. }
  rewrite Hc. unfold addFiles. rewrite addFiles_loop_app.
  destruct (addFiles_loop_images pf (DataTransfer.files data) Batch.zero st Himg)
    as [Hs Hk].
  rewrite (addFiles_loop_images_known pf _ _ _ Himg Hk). cbn [fst snd].
  cbn in Hs |- *. repeat apply conj; try reflexivity; lia.
Qed.

Lemma double_listing_witness :
  (DataTransfer.items twoImagesDropped = map fileItem (DataTransfer.files twoImagesDropped)
   /\ forallb routedAsImage (DataTransfer.files twoImagesDropped) = true)
  /\ length (collectFilesFromDataTransfer (Some twoImagesDropped)) = 4%nat
  /\ Batch.added (fst (addFiles demoPlatform
                         (collectFilesFromDataTransfer (Some twoImagesDropped))
                         freshPage)) = 2%nat
  /\ Batch.supported (fst (addFiles demoPlatform
                             (collectFilesFromDataTransfer (Some twoImagesDropped))
                             freshPage)) = 4%nat.
Proof.
  assert (H1 : DataTransfer.items twoImagesDropped
               = map fileItem (DataTransfer.files twoImagesDropped)) by reflexivity.
  assert (H2 : forallb routedAsImage (DataTransfer.files twoImagesDropped) = true)
    by reflexivity.
  destruct (double_listing demoPlatform twoImagesDropped freshPage H1 H2)
    as (Hc & _ & Hr & _ & Hs).
  split; [now split|]. split; [now rewrite Hc|].
  split; [rewrite Hr; vm_compute; reflexivity|exact Hs].
Defined.

(** ** The pages of a document *)

Lemma addPdfPages_run pf file pages : forall pageNumber added st,
  (forall n, (pageNumber <= n)%N -> pageSignature file n ∉ imageSignatures st) ->
  fst (addPdfPages pf file pages pageNumber added st)
  = (added + length (pageEntries file pages pageNumber))%nat
  /\ imageEntries (snd (addPdfPages pf file pages pageNumber added st))
     = imageEntries st ++ pageEntries file pages pageNumber.
Proof.
  induction pages as [|page rest IH]; intros pageNumber added st Hnew.
  - cbn. split; [lia|now rewrite app_nil_r].
  - cbn [addPdfPages pageEntries]. rewrite bind_run.
    assert (Hfresh : pageSignature file pageNumber ∉ imageSignatures st)
      by (apply Hnew; lia).
    assert (Hpage :
      addPdfPage pf file pageNumber page st
      = match page with
        | PageImage blob =>
            (true,
             registered blob
               (str_or (File.name file) "PDF" ++ " - page " ++ pretty pageNumber)%string
               (pageSignature file pageNumber) true (Date_now pf (clock st))
               (tick_clock st))
        | _ => (false, st)
        end).
    { unfold addPdfPage. rewrite bind_run. cbn [gets fst snd].
      destruct (decide _) as [Hin|_]; [contradiction|].
      destruct page; try reflexivity.
      rewrite registerEntry_run. cbn zeta.
      now destruct (decide _) as [Hin|_]. }
    rewrite Hpage.
    destruct page; cbn [fst snd app].
    1-3: apply IH; intros n Hn; apply Hnew; lia.
    match goal with |- context [addPdfPages pf file rest _ _ ?st'] =>
      destruct (IH (pageNumber + 1)%N (S added) st') as [Hn He]
    end.
    { rewrite registered_signatures. cbn. intros n Hn Hin.
      apply elem_of_union in Hin as [Hin|Hin].
      - apply elem_of_singleton in Hin. unfold pageSignature in Hin.
        apply page_marker_inj in Hin as [_ ->]. lia.
      - apply (Hnew n); [lia|exact Hin]. }
    rewrite Hn, He, registered_entries. cbn [imageEntries tick_clock length app].
    split; [lia|now rewrite <- app_assoc].
Qed.

Lemma pageEntries_length file pages : forall k,
  (length (pageEntries file pages k) <= length pages)%nat.
Proof.
  induction pages as [|page rest IH]; intros k; [cbn; lia|].
  cbn [pageEntries length]. rewrite length_app. specialize (IH (k + 1)%N).
  destruct page; cbn; lia.
Qed.

(** X5: a document whose pages are all new to the gallery adds the
    pages that load, render and encode, in page order, labelled and
    signed with their page numbers from 1, and skips the others:
    [total] is the number of pages, [added] the number of pages that
    came out as images. *)
Theorem addPdfFile_pages pf (file : File.t) (pages : list PageOutcome) (st : State) :
  pdfSupported pf = true ->
  File.pdf file = Some pages ->
  (forall n, pageSignature file n ∉ imageSignatures st) ->
  let entries := pageEntries file pages 1 in
  fst (addPdfFile pf file st) = Some (length entries, length pages)
  /\ imageEntries (snd (addPdfFile pf file st)) = imageEntries st ++ entries
  /\ (length entries <= length pages)%nat.
Proof.
  intros Hpdf Hpages Hnew. cbn zeta. unfold addPdfFile.
  rewrite Hpdf, Hpages. cbn [negb]. rewrite bind_run. cbn [ret fst snd].
  destruct (addPdfPages_run pf file pages 1%N 0%nat st) as [Hn He];
    [intros n _; apply Hnew|].
  rewrite Hn, He. repeat apply conj; try reflexivity. apply pageEntries_length.
Qed.

Lemma addPdfFile_pages_witness :
  (pdfSupported demoPlatform = true
   /\ exists pages, File.pdf brochure = Some pages /\ length pages = 3%nat)
  /\ fst (addPdfFile demoPlatform brochure freshPage) = Some (2%nat, 3%nat)
  /\ map Entry.label (imageEntries (snd (addPdfFile demoPlatform brochure freshPage)))
     = ["brochure.pdf - page 1"; "brochure.pdf - page 3"].
Proof.
  destruct (addPdfFile_pages demoPlatform brochure _ freshPage eq_refl eq_refl
              (fun n => not_elem_of_empty _)) as (H1 & H2 & _).
  split; [split; [reflexivity|eexists; split; reflexivity]|].
  rewrite H1, H2. split; vm_compute; reflexivity.
Defined.

(** ** Importing a package again *)

Lemma importSlide_known pf slide st :
  decodable slide = true -> slideSignature slide <> "" ->
  slideSignature slide ∈ imageSignatures (snd (importSlide pf slide st)).
Proof.
  unfold decodable. intros Hd Hs.
  destruct (decodeSlide slide) as [buffer|] eqn:Hdec; [|discriminate].
  destruct (decide (slideSignature slide ∈ imageSignatures st)) as [Hin|Hnot].
  - destruct (importSlide_counting pf slide st) as (_ & Hsub & _). now apply Hsub.
  - rewrite (importSlide_registered pf slide buffer st Hdec Hs Hnot). cbn [snd].
    rewrite importedState_signatures. set_solver.
Qed.

Lemma importSlide_again pf slide st :
  (decodable slide = true ->
   slideSignature slide <> "" /\ slideSignature slide ∈ imageSignatures st) ->
  fst (importSlide pf slide st) = false.
Proof.
  unfold decodable, decodeSlide, importSlide, slideSignature. intros H.
  destruct (member "bytes" slide) as [[]|]; try reflexivity.
  destruct (base64ToArrayBuffer s) as [buffer|]; [|reflexivity].
  destruct (H eq_refl) as [Hs Hin]. apply String.eqb_neq in Hs. rewrite Hs.
  rewrite !bind_run. cbn [ret fst snd].
  rewrite registerEntry_run. cbn zeta.
  destruct (decide _) as [_|Hnot]; [reflexivity|].
  exfalso. apply Hnot. now destruct (num_falsy _).
Qed.

Lemma importSlides_known pf slides : forall added st slide,
  In slide slides -> decodable slide = true -> slideSignature slide <> "" ->
  slideSignature slide ∈ imageSignatures (snd (importSlides pf slides added st)).
Proof.
  induction slides as [|first rest IH]; intros added st slide Hin Hd Hs; [contradiction|].
  cbn [importSlides]. rewrite bind_run.
  destruct Hin as [->|Hin]; [|now apply IH].
  match goal with |- context [importSlides pf rest ?a ?st'] =>
    destruct (importSlides_grows pf rest a st') as (n & _ & _ & _ & Hsub & _)
  end.
  now apply Hsub, importSlide_known.
Qed.

Lemma importSlides_again pf slides : forall added st,
  (forall slide, In slide slides -> decodable slide = true ->
     slideSignature slide <> "" /\ slideSignature slide ∈ imageSignatures st) ->
  fst (importSlides pf slides added st) = added
  /\ grows 0 st (snd (importSlides pf slides added st)).
Proof.
  induction slides as [|first rest IH]; intros added st Hknown.
  - cbn. split; [reflexivity|now apply grows_same].
  - cbn [importSlides]. rewrite bind_run.
    pose proof (importSlide_counting pf first st) as Hg.
    rewrite importSlide_again in * by (apply Hknown; now left).
    cbn [one] in Hg.
    destruct (IH added (snd (importSlide pf first st))) as [Hn Hg'].
    { intros slide Hin Hd. destruct (Hknown slide (or_intror Hin) Hd) as [Hs Hk].
      split; [exact Hs|]. destruct Hg as (_ & Hsub & _). now apply Hsub. }
    split; [exact Hn|exact (grows_trans 0 0 _ _ _ Hg Hg')].
Qed.

(** X6: importing a package a second time adds nothing.  When every
    entry that decodes carries a signature, the second import reports
    no slide added and the same total, and leaves the gallery, the
    signature set, the store and the delay setting as the first import
    left them. *)
Theorem import_twice pf (file : File.t) (data : json) (st : State) :
  File.json_text file = Some data ->
  signedSlides (items_of (member "slides" data)) = true ->
  let first := importSavedPackage pf file st in
  let second := importSavedPackage pf file (snd first) in
  Package.added (fst second) = 0%nat
  /\ Package.total (fst second) = Package.total (fst first)
  /\ Package.error (fst second) = Package.error (fst first)
  /\ imageEntries (snd second) = imageEntries (snd first)
  /\ imageSignatures (snd second) = imageSignatures (snd first)
  /\ db (snd second) = db (snd first)
  /\ delaySetting (snd second) = delaySetting (snd first).
Proof.
  intros Hdata Hsigned. cbn zeta. unfold importSavedPackage. rewrite Hdata.
  destruct (unsupportedFormat pf data); [now cbn|].
  rewrite !bind_run. cbn [ret fst snd Package.added Package.total Package.error].
  set (slides := items_of (member "slides" data)) in *.
  set (delayed := fun st : State =>
         snd ((match member "delay" data with
               | Some (JNum delay) => applyDelay delay true
               | _ => ret tt
               end) st)).
  fold (delayed st).
  set (st1 := snd (importSlides pf slides 0 (delayed st))).
  fold (delayed st1).
  assert (Hgallery : forall s, imageSignatures (delayed s) = imageSignatures s).
  { intros s. subst delayed. cbn beta.
    destruct (member "delay" data) as [[]|]; try reflexivity.
    apply applyDelay_gallery. }
  destruct (importSlides_again pf slides 0 (delayed st1)) as [Hn Hg].
  { intros slide Hin Hd. unfold signedSlides in Hsigned.
    rewrite forallb_forall in Hsigned. specialize (Hsigned slide Hin).
    rewrite Hd in Hsigned. cbn in Hsigned. apply negb_true_iff, String.eqb_neq in Hsigned.
    split; [exact Hsigned|]. rewrite Hgallery. subst st1.
    now apply importSlides_known. }
  assert (H0 : grows 0 st1 (delayed st1)).
  { subst delayed. cbn beta.
    destruct (member "delay" data) as [[]|]; try (now apply grows_same).
    apply applyDelay_counting. }
  destruct (grows_trans 0 0 _ _ _ H0 Hg) as ([new [He Hl]] & _ & Hz).
  destruct (Hz eq_refl) as [Hs Hd].
  destruct new; [|discriminate]. rewrite app_nil_r in He.
  repeat apply conj; try assumption; try reflexivity.
  assert (Hkeep : forall s,
            delaySetting (snd (importSlides pf slides 0 s)) = delaySetting s).
  { intros s. now apply (importSlides_delay pf slides (delaySetting s) 0%nat s). }
  rewrite Hkeep. subst st1. subst delayed. cbn beta.
  destruct (member "delay" data) as [[|b|delay|s|items|members]|];
    cbn [ret snd]; try reflexivity.
  set (s1 := snd (importSlides pf slides 0 (snd (applyDelay delay true st)))).
  assert (Hs1 : delaySetting s1 = delaySetting (snd (applyDelay delay true st)))
    by apply Hkeep.
  rewrite Hs1, !applyDelay_setting. rewrite applyDelay_setting in Hs1.
  unfold delaySetting in Hs1. injection Hs1 as _ _ Hls. rewrite Hls.
  now destruct (localStorage st).
Qed.

Lemma import_twice_witness :
  (File.json_text (package "six.json" fiveOfSixData) = Some fiveOfSixData
   /\ signedSlides (items_of (member "slides" fiveOfSixData)) = true)
  /\ Package.added (fst (importSavedPackage demoPlatform (package "six.json" fiveOfSixData)
                           freshPage)) = 5%nat
  /\ Package.added
       (fst (importSavedPackage demoPlatform (package "six.json" fiveOfSixData)
               (snd (importSavedPackage demoPlatform (package "six.json" fiveOfSixData)
                       freshPage)))) = 0%nat.
Proof.
  assert (H1 : File.json_text (package "six.json" fiveOfSixData) = Some fiveOfSixData)
    by reflexivity.
  assert (H2 : signedSlides (items_of (member "slides" fiveOfSixData)) = true)
    by (vm_compute; reflexivity).
  destruct (import_twice demoPlatform _ _ freshPage H1 H2) as (Ha & _).
  split; [now split|]. split; [vm_compute; reflexivity|exact Ha].
Defined.

(** ** Saving and loading again *)

Lemma omap_exportSlide_length (records : list Slide.t) :
  length (omap exportSlide records) = length (List.filter hasBytes records).
Proof.
  induction records as [|r l IH]; [reflexivity|].
  change (omap exportSlide (r :: l))
    with (match exportSlide r with
          | Some y => y :: omap exportSlide l
          | None => omap exportSlide l
          end).
  cbn [List.filter]. unfold exportSlide at 1, hasBytes at 1.
  destruct (Slide.bytes r); cbn [length]; now rewrite IH.
Qed.

Lemma buildExportPayload_run pf st :
  buildExportPayload pf st
  = (JObj [("version", JNum SAVE_PACKAGE_VERSION);
           ("delay", JNum (delayRange st));
           ("generatedAt", JStr (toISOString pf (Date_now pf (clock st))));
           ("slides", JArr (omap exportSlide (fst (getPersistedSlides st))))],
     tick_clock st).
Proof.
  unfold buildExportPayload, getPersistedSlides. rewrite !bind_run. cbn [gets fst snd].
  now destruct (db st).
Qed.

Lemma exported_accepted pf' (delay : json) (generatedAt : string) (slides : list json) :
  unsupportedFormat pf'
    (JObj [("version", JNum (num 1)); ("delay", delay);
           ("generatedAt", JStr generatedAt); ("slides", JArr slides)]) = false.
Proof. reflexivity. Qed.

Lemma export_accepts pf pf' (file : File.t) (st st0 : State) :
  File.json_text file = fst (exportPackage pf st) ->
  Package.error (fst (importSavedPackage pf' file st0)) = false
  /\ Package.total (fst (importSavedPackage pf' file st0))
     = length (List.filter hasBytes (fst (getPersistedSlides st))).
Proof.
  unfold exportPackage. rewrite bind_run, buildExportPayload_run. cbn [ret fst snd].
  intros Hfile. unfold importSavedPackage. rewrite Hfile.
  cbn [JSON_reparse map fst snd].
  assert (Hdelay : exists delay, JSON_reparse (JNum (delayRange st)) = delay)
    by now eexists.
  destruct Hdelay as [delay Hdelay]. cbn [JSON_reparse] in Hdelay. rewrite Hdelay.
  unfold SAVE_PACKAGE_VERSION. cbn [JSON_reparse num].
  rewrite exported_accepted. rewrite !bind_run.
  cbn [ret fst snd Package.error Package.total].
  split; [reflexivity|].
  change (member "slides" _)
    with (Some (JArr (map JSON_reparse (omap exportSlide (fst (getPersistedSlides st)))))).
  cbn [items_of]. now rewrite length_map, omap_exportSlide_length.
Qed.

(** X7: every package the page exports is accepted by the importer,
    whatever the store holds and whichever browser reads it: the import
    does not fail, and its total is the number of stored records that
    have bytes.  Exporting reads the clock and changes nothing else. *)
Theorem export_is_importable pf pf' (file : File.t) (st st0 : State) :
  File.json_text file = fst (exportPackage pf st) ->
  Package.error (fst (importSavedPackage pf' file st0)) = false
  /\ Package.total (fst (importSavedPackage pf' file st0))
     = length (List.filter hasBytes (fst (getPersistedSlides st)))
  /\ imageEntries (snd (exportPackage pf st)) = imageEntries st
  /\ imageSignatures (snd (exportPackage pf st)) = imageSignatures st
  /\ db (snd (exportPackage pf st)) = db st
  /\ delaySetting (snd (exportPackage pf st)) = delaySetting st.
Proof.
  intros Hfile. destruct (export_accepts pf pf' file st st0 Hfile) as [He Ht].
  split; [exact He|]. split; [exact Ht|].
  unfold exportPackage. rewrite bind_run, buildExportPayload_run. now cbn.
Qed.

Lemma export_is_importable_witness :
  File.json_text exportedFile = fst (exportPackage demoPlatform startupPage)
  /\ Package.error (fst (importSavedPackage noPdfPlatform exportedFile freshPage)) = false
  /\ Package.total (fst (importSavedPackage noPdfPlatform exportedFile freshPage)) = 3%nat.
Proof.
  destruct (export_is_importable demoPlatform noPdfPlatform exportedFile startupPage
              freshPage eq_refl) as (He & Ht & _).
  split; [reflexivity|]. split; [exact He|]. rewrite Ht. vm_compute. reflexivity.
Defined.

(** ** The name of a saved file *)

Lemma toLowerCase_app (a b : string) :
  toLowerCase (a ++ b) = (toLowerCase a ++ toLowerCase b)%string.
Proof.
  induction a as [|c a IH]; [reflexivity|].
  rewrite string_app_cons. cbn [toLowerCase]. now rewrite IH, string_app_cons.
Qed.

Lemma string_length_app (a b : string) :
  String.length (a ++ b) = (String.length a + String.length b)%nat.
Proof.
  induction a as [|c a IH]; [reflexivity|].
  rewrite string_app_cons. cbn [String.length]. now rewrite IH.
Qed.

Lemma substring_all (s : string) : String.substring 0 (String.length s) s = s.
Proof. induction s as [|c s IH]; [reflexivity|]. cbn. now rewrite IH. Qed.

Lemma substring_skip (a b : string) :
  String.substring (String.length a) (String.length b) (a ++ b) = b.
Proof.
  induction a as [|c a IH]; [apply substring_all|].
  rewrite string_app_cons. cbn [String.length String.substring]. exact IH.
Qed.

Lemma endsWith_app (a b : string) : endsWith (a ++ b) b = true.
Proof.
  unfold endsWith. rewrite string_length_app.
  replace (String.length a + String.length b - String.length b)%nat
    with (String.length a) by lia.
  rewrite substring_skip, String.eqb_refl, andb_true_r.
  apply Nat.leb_le. lia.
Qed.

Lemma replaceColons_clean (s : string) :
  ~ In ":"%char (list_ascii_of_string (replaceColons s)).
Proof.
  induction s as [|c s IH]; [now cbn|].
  cbn [replaceColons list_ascii_of_string]. intros [Hc|Hin]; [|now apply IH].
  destruct (Ascii.eqb c ":") eqn:E; [discriminate|].
  apply Ascii.eqb_neq in E. congruence.
Qed.

Lemma suggestedName_package (isoString : string) (file : File.t) :
  File.name file = suggestedName isoString ->
  isPackageCandidate file = true
  /\ ~ In ":"%char (list_ascii_of_string (File.name file)).
Proof.
  intros Hname. split.
  - unfold isPackageCandidate. rewrite Hname. unfold suggestedName.
    rewrite string_app_cons. cbn [str_or String.eqb].
    rewrite <- string_app_cons.
    rewrite <- string_app_assoc, toLowerCase_app.
    change (toLowerCase ".json") with ".json".
    rewrite endsWith_app. now rewrite !orb_true_r.
  - rewrite Hname. unfold suggestedName.
    rewrite !list_ascii_of_string_app. intros Hin.
    apply in_app_or in Hin as [Hin|Hin];
      [|apply in_app_or in Hin as [Hin|Hin]].
    + cbn in Hin. repeat (destruct Hin as [Hin|Hin]; [discriminate|]). exact Hin.
    + now apply replaceColons_clean in Hin.
    + cbn in Hin. repeat (destruct Hin as [Hin|Hin]; [discriminate|]). exact Hin.
Qed.

Lemma handleSaveClick_run pf picker st :
  handleSaveClick pf picker st
  = (let contents := JSON_reparse (fst (buildExportPayload pf st)) in
     let suggested :=
       suggestedName (toISOString pf (Date_now pf (S (clock st)))) in
     let n := length (List.filter hasBytes (fst (getPersistedSlides st))) in
     let saved := ("Saved " ++ pretty n ++ " slide" ++ plural n ++ ".")%string in
     match picker with
     | PickerWrites name => (Some (name, contents), saved)
     | PickerAborts => (None, "Save cancelled.")
     | PickerFails | NoPicker => (Some (suggested, contents), saved)
     end,
     tick_clock (tick_clock st)).
Proof.
  unfold handleSaveClick. rewrite bind_run, buildExportPayload_run. cbn [fst snd].
  unfold now. rewrite !bind_run. cbn [gets modify ret fst snd clock tick_clock].
  change (member "slides" _)
    with (Some (JArr (omap exportSlide (fst (getPersistedSlides st))))).
  cbn [items_of]. rewrite omap_exportSlide_length.
  now destruct picker.
Qed.

(** X8: a file saved under the suggested name comes back as a
    package.  When the browser has no save picker, or the picker fails,
    [handleSaveClick] writes the export under a name that holds no
    colon and ends in [.json]; [addFiles] routes a file of that name
    and those contents to the package importer, which accepts it: the
    batch counts one package processed, none failed, no file
    unsupported, and as many package slides as the save reported. *)
Theorem saved_file_comes_back pf pf' (picker : SavePicker) (file : File.t)
    (st st0 : State) (name : string) (contents : json) :
  picker = NoPicker \/ picker = PickerFails ->
  fst (fst (handleSaveClick pf picker st)) = Some (name, contents) ->
  File.name file = name ->
  File.json_text file = Some contents ->
  let n := length (List.filter hasBytes (fst (getPersistedSlides st))) in
  let r := fst (addFiles pf' [file] st0) in
  snd (fst (handleSaveClick pf picker st))
  = ("Saved " ++ pretty n ++ " slide" ++ plural n ++ ".")%string
  /\ ~ In ":"%char (list_ascii_of_string name)
  /\ isPackageCandidate file = true
  /\ Batch.packagesProcessed r = 1%nat
  /\ Batch.packageErrors r = 0%nat
  /\ Batch.unsupported r = 0%nat
  /\ Batch.packageSlidesTotal r = n
  /\ Batch.supported r = n.
Proof.
  intros Hpicker Hsave Hname Hfile. cbn zeta.
  rewrite handleSaveClick_run in Hsave |- *. cbn zeta in Hsave |- *. cbn [fst snd] in *.
  assert (Hs : name = suggestedName (toISOString pf (Date_now pf (S (clock st))))
               /\ contents = JSON_reparse (fst (buildExportPayload pf st))).
  { destruct Hpicker as [->| ->]; injection Hsave as <- <-; now split. }
  destruct Hs as [Hn Hc].
  destruct (suggestedName_package _ file (eq_trans Hname Hn)) as [Hcand Hcolon].
  rewrite Hname in Hcolon.
  destruct (export_accepts pf pf' file st st0) as (Herr & Htot).
  { rewrite Hfile, Hc. unfold exportPackage. now rewrite bind_run. }
  split; [now destruct Hpicker as [->| ->]|].
  split; [exact Hcolon|]. split; [exact Hcand|].
  unfold addFiles. cbn [addFiles_loop]. rewrite !bind_run. cbn [ret fst snd].
  unfold addFile. rewrite Hcand, bind_run, Herr. cbn. rewrite Htot. now repeat split.
Qed.

Lemma saved_file_comes_back_witness :
  (fst (fst (handleSaveClick demoPlatform NoPicker startupPage))
   = Some (savedName, savedContents)
   /\ File.name (savedAs savedName savedContents) = savedName
   /\ File.json_text (savedAs savedName savedContents) = Some savedContents)
  /\ savedName = "lightning-slideshow-2024-01-01T00-00-00.000Z.json"
  /\ snd (fst (handleSaveClick demoPlatform NoPicker startupPage)) = "Saved 3 slides."
  /\ Batch.packagesProcessed
       (fst (addFiles noPdfPlatform [savedAs savedName savedContents] freshPage)) = 1%nat
  /\ Batch.packageSlidesTotal
       (fst (addFiles noPdfPlatform [savedAs savedName savedContents] freshPage)) = 3%nat.
Proof.
  assert (Hsave : fst (fst (handleSaveClick demoPlatform NoPicker startupPage))
                  = Some (savedName, savedContents))
    by (rewrite handleSaveClick_run; reflexivity).
  destruct (saved_file_comes_back demoPlatform noPdfPlatform NoPicker
              (savedAs savedName savedContents) startupPage freshPage
              savedName savedContents (or_introl eq_refl) Hsave eq_refl eq_refl)
    as (Hstatus & _ & _ & Hp & _ & _ & Ht & _).
  split; [now repeat split|]. split; [reflexivity|].
  split; [rewrite Hstatus; vm_compute; reflexivity|].
  split; [exact Hp|]. rewrite Ht. vm_compute. reflexivity.
Defined.

(** ** What registration stores *)

Lemma getPersistedSlides_In (st : State) (store : gmap string Slide.t) (r : Slide.t) :
  db st = Some store ->
  (In r (fst (getPersistedSlides st)) <-> exists k, store !! k = Some r).
Proof.
  intros Hdb. unfold getPersistedSlides. rewrite bind_run. cbn [gets fst snd].
  rewrite Hdb. cbn [ret fst]. rewrite <- getAll_lookup.
  split; apply Permutation_in;
    [apply Array_sort_Permutation|symmetry; apply Array_sort_Permutation].
Qed.

(** X9: a slide that is registered for persistence can be read back.
    A new signature is always registered and shown last in the
    gallery.  With a database and a readable blob the store then holds,
    under the signature, a record with the label, the time, the bytes
    and the type of the blob (or [application/octet-stream] when the
    blob has none), every other key keeps what it had, and
    [getPersistedSlides] returns the record; without a database, or
    with a blob that cannot be read, the slide is in the gallery and
    the store is untouched. *)
Theorem registered_slide_is_stored pf (blob : Blob.t) (label signature : string)
    (addedAt : number) (st : State) :
  signature ∉ imageSignatures st ->
  let st' := snd (registerEntry pf blob label signature true (Some addedAt) st) in
  fst (registerEntry pf blob label signature true (Some addedAt) st) = true
  /\ imageEntries st'
     = imageEntries st ++ [{| Entry.url := blob; Entry.signature := signature;
                              Entry.label := label |}]
  /\ (forall store bytes,
        db st = Some store -> Blob.arrayBuffer blob = Some bytes ->
        let record := slideRecord signature label blob addedAt bytes in
        exists store',
          db st' = Some store'
          /\ store' !! signature = Some record
          /\ (forall k, k <> signature -> store' !! k = store !! k)
          /\ In record (fst (getPersistedSlides st')))
  /\ (db st = None \/ Blob.arrayBuffer blob = None -> db st' = db st).
Proof.
  intros Hnew. cbn zeta. rewrite registerEntry_run. cbn zeta.
  destruct (decide _) as [Hin|_]; [contradiction|]. cbn [fst snd].
  split; [reflexivity|]. split; [apply registered_entries|].
  unfold registered, saved. cbn [db set_gallery set_db].
  split.
  - intros store bytes Hdb Hbytes. rewrite Hdb, Hbytes.
    eexists. split; [reflexivity|]. unfold put. cbn [Slide.signature].
    split; [apply lookup_insert_eq|].
    split; [intros k Hk; now apply lookup_insert_ne|].
    eapply getPersistedSlides_In; [reflexivity|].
    exists signature. apply lookup_insert_eq.
  - intros [Hdb|Hbytes]; [now rewrite Hdb|].
    rewrite Hbytes. now destruct (db st).
Qed.

Lemma registered_slide_is_stored_witness :
(fileSignature photo ∉ imageSignatures freshPage)
  /\ exists store',
       db (snd (registerEntry demoPlatform (File.blob photo) "cat.png"
                  (fileSignature photo) true (Some (num 5)) freshPage)) = Some store'
       /\ store' !! fileSignature photo
          = Some (slideRecord (fileSignature photo) "cat.png" (File.blob photo) (num 5)
                              [x89; x50; x4e]%byte).
Proof.
  assert (Hnew : fileSignature photo ∉ imageSignatures freshPage)
    by apply not_elem_of_empty.
  destruct (registered_slide_is_stored demoPlatform (File.blob photo) "cat.png"
              (fileSignature photo) (num 5) freshPage Hnew) as (_ & _ & Hstore & _).
  destruct (Hstore ∅ [x89; x50; x4e]%byte eq_refl eq_refl) as (store' & Hdb & Hk & _).
  split; [exact Hnew|]. exists store'. now split.
Defined.

(** ** Reloading the page *)

Lemma fileSignature_nonempty (file : File.t) : fileSignature file <> "".
Proof.
  unfold fileSignature. destruct (File.name file); rewrite string_app_cons; discriminate.
Qed.

Lemma str_or_idem (s d : string) : d <> "" -> str_or (str_or s d) d = str_or s d.
Proof.
  intros Hd. unfold str_or. destruct (String.eqb s "") eqn:E.
  - apply String.eqb_neq in Hd. now rewrite Hd.
  - now rewrite E.
Qed.

Lemma restorePersistedSlides_entries pf (st : State) (store : gmap string Slide.t) :
  db st = Some store ->
  store_keyed store ->
  imageEntries (snd (restorePersistedSlides pf st))
  = imageEntries st
    ++ map restoredEntry
         (List.filter (restores (imageSignatures st)) (fst (getPersistedSlides st))).
Proof.
  intros Hdb Hkeyed.
  assert (Hget : getPersistedSlides st
                 = (Array_sort addedAt_after (getAll store), st)).
  { unfold getPersistedSlides. rewrite bind_run. cbn [gets fst snd]. now rewrite Hdb. }
  unfold restorePersistedSlides. rewrite bind_run, Hget. cbn [fst snd].
  apply restoreSlides_run.
  rewrite (Permutation_map Slide.signature (Array_sort_Permutation _ _)).
  now apply store_keyed_NoDup.
Qed.

(** X10: an image that was added is there again after a reload.
    When the page has a database and the bytes of a new image file can
    be read, then on any later page load, over the store as the
    addition left it, [restorePersistedSlides] puts into the gallery an
    entry with the signature of the file, its name as label (or
    [Image]) and its bytes. *)
Theorem added_image_survives_reload pf pf' (file : File.t) (bytes : list byte)
    (st st2 : State) (store : gmap string Slide.t) :
  db st = Some store ->
  keyed store = true ->
  File.arrayBuffer file = Some bytes ->
  fileSignature file ∉ imageSignatures st ->
  reloaded (snd (addImageFile pf file st)) st2 ->
  exists e,
    In e (imageEntries (snd (restorePersistedSlides pf' st2)))
    /\ Entry.signature e = fileSignature file
    /\ Entry.label e = str_or (File.name file) "Image"
    /\ Blob.arrayBuffer (Entry.url e) = Some bytes.
Proof.
  intros Hdb Hkeyed Hbytes Hnew (He2 & Hs2 & Hdb2 & _).
  rewrite addImageFile_run in Hdb2.
  destruct (decide _) as [Hin|_]; [contradiction|]. cbn [snd] in Hdb2.
  unfold registered, saved in Hdb2. cbn [db set_gallery set_db tick_clock] in Hdb2.
  rewrite Hdb in Hdb2. unfold File.blob in Hdb2 at 1. cbn [Blob.arrayBuffer] in Hdb2.
  rewrite Hbytes in Hdb2.
  set (record := {| Slide.signature := fileSignature file |}) in Hdb2.
  assert (Hkeyed2 : store_keyed (put record store))
    by now apply store_keyed_put, keyed_store_keyed.
  rewrite (restorePersistedSlides_entries pf' st2 _ Hdb2 Hkeyed2), He2, Hs2.
  cbn [app].
  exists (restoredEntry record). split.
  - apply in_map, filter_In. split.
    + eapply getPersistedSlides_In; [exact Hdb2|].
      exists (fileSignature file). apply lookup_insert_eq.
    + unfold restores, restorable, restoredBlob. cbn.
      pose proof (fileSignature_nonempty file) as Hne.
      apply String.eqb_neq in Hne. rewrite Hne. cbn.
      apply bool_decide_eq_true_2, not_elem_of_empty.
  - unfold restoredEntry, restoredBlob. cbn.
    repeat split. now apply str_or_idem.
Qed.

Lemma added_image_survives_reload_witness :
  (db freshPage = Some ∅ /\ keyed ∅ = true
   /\ File.arrayBuffer photo = Some [x89; x50; x4e]%byte
   /\ (fileSignature photo ∉ imageSignatures freshPage)
   /\ reloaded (snd (addImageFile demoPlatform photo freshPage)) pageAfterPhoto)
  /\ exists e,
       In e (imageEntries (snd (restorePersistedSlides noPdfPlatform pageAfterPhoto)))
       /\ Entry.signature e = "cat.png::image/png::3::1699999999000"
       /\ Entry.label e = "cat.png".
Proof.
  assert (Hnew : fileSignature photo ∉ imageSignatures freshPage)
    by apply not_elem_of_empty.
  assert (Hre : reloaded (snd (addImageFile demoPlatform photo freshPage)) pageAfterPhoto).
  { rewrite addImageFile_run. destruct (decide _) as [Hin|_]; [contradiction|].
    repeat apply conj; reflexivity. }
  destruct (added_image_survives_reload demoPlatform noPdfPlatform photo _
              freshPage pageAfterPhoto ∅ eq_refl eq_refl eq_refl Hnew Hre)
    as (e & Hin & Hs & Hl & _).
  split; [now repeat apply conj|].
  exists e. split; [exact Hin|]. split; [rewrite Hs|rewrite Hl]; vm_compute; reflexivity.
Defined.

Lemma applyDelay_controls value persist st :
  delayRange (snd (applyDelay value persist st)) = clampDelay value
  /\ delayInput (snd (applyDelay value persist st)) = clampDelay value
  /\ localStorage (snd (applyDelay value persist st))
     = if persist then
         match localStorage st with
         | Some _ => Some (Some (clampDelay value))
         | None => None
         end
       else localStorage st.
Proof.
  unfold applyDelay. generalize (clampDelay value). intros c.
  unfold storeDelay, bind, gets, modify, ret.
  destruct persist; destruct st as [e s d dr di [ls|] ck en]; now cbn.
Qed.

Lemma resetGallery_state st :
  imageEntries (snd (resetGallery st)) = []
  /\ imageSignatures (snd (resetGallery st)) = ∅
  /\ db (snd (resetGallery st)) = match db st with Some _ => Some ∅ | None => None end
  /\ delayRange (snd (resetGallery st)) = num 200
  /\ delayInput (snd (resetGallery st)) = num 200
  /\ localStorage (snd (resetGallery st))
     = match localStorage st with Some _ => Some (Some (num 200)) | None => None end.
Proof.
  unfold resetGallery, clearPersistedSlides, applyDelay, storeDelay, bind, gets, modify, ret.
  destruct st as [e s [d|] dr di [ls|] ck en]; now cbn.
Qed.

Lemma restoreDelaySetting_run st :
  restoreDelaySetting st
  = applyDelay (default DEFAULT_DELAY (fst (getStoredDelay st))) false st.
Proof.
  unfold restoreDelaySetting. rewrite bind_run.
  assert (Hst : snd (getStoredDelay st) = st).
  { unfold getStoredDelay. rewrite bind_run. cbn [gets fst snd].
    destruct (localStorage st) as [[[| |q|]|]|]; try reflexivity.
    now destruct (_ && _). }
  rewrite Hst. now destruct (fst (getStoredDelay st)).
Qed.

(** X11: a reset lasts.  After [resetGallery], on any later page load
    over the store and the stored delay the reset left, restoring the
    delay and the slides gives an empty gallery, an empty list of
    persisted slides and the default delay of 200 in both controls. *)
Theorem reset_survives_reload pf (st st2 : State) :
  reloaded (snd (resetGallery st)) st2 ->
  let st3 := snd (restorePersistedSlides pf (snd (restoreDelaySetting st2))) in
  imageEntries st3 = []
  /\ imageSignatures st3 = ∅
  /\ fst (getPersistedSlides st3) = []
  /\ delayRange st3 = num 200
  /\ delayInput st3 = num 200.
Proof.
  intros (He & Hs & Hdb & Hls). cbn zeta.
  destruct (resetGallery_state st) as (_ & _ & Hdb1 & _ & _ & Hls1).
  assert (Hdb2 : db st2 = Some ∅ \/ db st2 = None).
  { rewrite Hdb, Hdb1. destruct (db st); [now left|now right]. }
  assert (Hls2 : localStorage st2 = Some (Some (num 200)) \/ localStorage st2 = None).
  { rewrite Hls, Hls1. destruct (localStorage st); [now left|now right]. }
  set (st2' := snd (restoreDelaySetting st2)).
  assert (Hd : delayRange st2' = num 200 /\ delayInput st2' = num 200
               /\ imageEntries st2' = [] /\ imageSignatures st2' = ∅
               /\ db st2' = db st2).
  { subst st2'. rewrite restoreDelaySetting_run.
    assert (Hstored : fst (getStoredDelay st2) = Some (num 200)
                      \/ fst (getStoredDelay st2) = None).
    { unfold getStoredDelay. rewrite bind_run. cbn [gets fst snd].
      destruct Hls2 as [-> | ->]; [left|right]; reflexivity. }
    match goal with |- context [applyDelay ?v false st2] =>
      destruct (applyDelay_controls v false st2) as (-> & -> & _);
      destruct (applyDelay_gallery v false st2) as (-> & -> & ->)
    end.
    destruct Hstored as [-> | ->]; now repeat split. }
  destruct Hd as (Hr & Hi & He' & Hs' & Hdb').
  assert (Hget : fst (getPersistedSlides st2') = []
                 /\ snd (restorePersistedSlides pf st2') = st2').
  { unfold restorePersistedSlides, getPersistedSlides. rewrite !bind_run.
    cbn [gets fst snd]. rewrite Hdb'.
    destruct Hdb2 as [-> | ->]; cbn [ret fst snd]; [|now split].
    unfold getAll. rewrite map_to_list_empty. now split. }
  destruct Hget as [Hget ->]. now repeat split.
Qed.

Lemma reset_survives_reload_witness :
  reloaded (snd (resetGallery startupPage)) pageAfterReset
  /\ imageEntries (snd (restorePersistedSlides demoPlatform
                          (snd (restoreDelaySetting pageAfterReset)))) = []
  /\ delayRange (snd (restorePersistedSlides demoPlatform
                        (snd (restoreDelaySetting pageAfterReset)))) = num 200.
Proof.
  assert (Hre : reloaded (snd (resetGallery startupPage)) pageAfterReset)
    by (repeat apply conj; reflexivity).
  destruct (reset_survives_reload demoPlatform startupPage pageAfterReset Hre)
    as (He & _ & _ & Hd & _).
  now repeat split.
Defined.

(** ** The delay setting *)

Lemma clampDelay_cases value :
  clampDelay value = num 0 \/ clampDelay value = num 2000
  \/ exists q, value = Fin q /\ clampDelay value = Fin q.
Proof.
  destruct value as [| |q|]; [now left|now left| |now right; left].
  unfold clampDelay, num_or, num_falsy.
  destruct (Qeq_bool q 0) eqn:E0; [now left|].
  unfold Math_max, num_leb, num.
  destruct (Qle_bool (inject_Z 0) q) eqn:E1; [|now left].
  unfold Math_min, num_leb.
  destruct (Qle_bool (inject_Z 2000) q) eqn:E2; [now right; left|].
  right; right. now exists q.
Qed.

Lemma clampDelay_idem value : clampDelay (clampDelay value) = clampDelay value.
Proof.
  destruct (clampDelay_cases value) as [H|[H|(q & -> & H)]]; rewrite H;
    [reflexivity|reflexivity|exact H].
Qed.

Lemma clampDelay_finite value : exists q, clampDelay value = Fin q.
Proof.
  destruct (clampDelay_cases value) as [H|[H|(q & -> & H)]]; rewrite H; now eexists.
Qed.


Lemma getStoredDelay_clamped value st :
  localStorage st = Some (Some (clampDelay value)) ->
  fst (getStoredDelay st) = Some (clampDelay value).
Proof.
  intros Hls. unfold getStoredDelay. rewrite bind_run. cbn [gets fst snd]. rewrite Hls.
  destruct (clampDelay_range value) as [H0 H1].
  destruct (clampDelay_finite value) as [q Hq]. rewrite Hq in *.
  now rewrite H0, H1.
Qed.

(** X12: the delay survives a reload.  After [applyDelay] has stored a
    value, in a browser with local storage, [restoreDelaySetting] on
    any later page load puts the clamped value back into both controls
    and writes nothing. *)
Theorem delay_survives_reload (value : number) (stored : option number)
    (st st2 : State) :
  localStorage st = Some stored ->
  reloaded (snd (applyDelay value true st)) st2 ->
  let st3 := snd (restoreDelaySetting st2) in
  delayRange st3 = clampDelay value
  /\ delayInput st3 = clampDelay value
  /\ localStorage st3 = localStorage st2.
Proof.
  intros Hst (_ & _ & _ & Hls). cbn zeta.
  destruct (applyDelay_controls value true st) as (_ & _ & Hls1).
  rewrite Hst in Hls1. rewrite Hls1 in Hls.
  rewrite restoreDelaySetting_run, (getStoredDelay_clamped value st2 Hls).
  change (default DEFAULT_DELAY (Some (clampDelay value))) with (clampDelay value).
  destruct (applyDelay_controls (clampDelay value) false st2) as (-> & -> & ->).
  now rewrite clampDelay_idem.
Qed.

Lemma delay_survives_reload_witness :
  (localStorage freshPage = Some None
   /\ reloaded (snd (applyDelay (num 750) true freshPage)) pageAfterDelay)
  /\ delayRange (snd (restoreDelaySetting pageAfterDelay)) = num 750
  /\ delayInput (snd (restoreDelaySetting pageAfterDelay)) = num 750.
Proof.
  assert (Hre : reloaded (snd (applyDelay (num 750) true freshPage)) pageAfterDelay)
    by (repeat apply conj; reflexivity).
  destruct (delay_survives_reload (num 750) None freshPage pageAfterDelay eq_refl Hre)
    as (Hr & Hi & _).
  split; [now split|]. now split.
Defined.

Lemma applyDelay_valid value persist st : validDelay (snd (applyDelay value persist st)).
Proof.
  destruct (applyDelay_controls value persist st) as (Hr & Hi & _).
  unfold validDelay. rewrite Hr, Hi. split; [reflexivity|apply clampDelay_range].
Qed.



(** Computations that leave the delay setting alone keep it valid. *)
Lemma validDelay_kept {A} (m : M A) :
  (forall v, preserves (fun st => delaySetting st = v) m) -> preserves validDelay m.
Proof.
  intros H st Hv. specialize (H (delaySetting st) st eq_refl).
  unfold delaySetting in H. injection H as Hr Hi _.
  unfold validDelay in *. now rewrite Hr, Hi.
Qed.

Lemma registerEntry_validDelay pf blob label signature persist addedAt :
  preserves validDelay (registerEntry pf blob label signature persist addedAt).
Proof. apply validDelay_kept. intros v. apply registerEntry_delay. Qed.

Lemma now_validDelay pf : preserves validDelay (now pf).
Proof. apply validDelay_kept. intros v. apply now_delay. Qed.

Lemma generateImportSignature_validDelay pf :
  preserves validDelay (generateImportSignature pf).
Proof. apply validDelay_kept. intros v. apply generateImportSignature_delay. Qed.

Lemma applyDelay_validDelay value persist : preserves validDelay (applyDelay value persist).
Proof. intros st _. apply applyDelay_valid. Qed.

Lemma clearPersistedSlides_validDelay : preserves validDelay clearPersistedSlides.
Proof.
  intros st H. unfold clearPersistedSlides. rewrite bind_run. cbn [gets fst snd].
  now destruct (db st).
Qed.

Lemma clear_gallery_validDelay : preserves validDelay (modify (set_gallery [] ∅)).
Proof. now intros st H. Qed.

Lemma getPersistedSlides_validDelay : preserves validDelay getPersistedSlides.
Proof.
  intros st H. unfold getPersistedSlides. rewrite bind_run. cbn [gets fst snd].
  now destruct (db st).
Qed.

#[export] Hint Resolve registerEntry_validDelay now_validDelay
  generateImportSignature_validDelay applyDelay_validDelay
  clearPersistedSlides_validDelay clear_gallery_validDelay
  getPersistedSlides_validDelay : preserve.

Lemma importSlides_validDelay pf slides : forall added,
  preserves validDelay (importSlides pf slides added).
Proof.
  induction slides as [|slide rest IH]; intros added; cbn [importSlides]; [preserve|].
  apply preserves_bind; [unfold importSlide; preserve|intros b; apply IH].
Qed.

Lemma importSavedPackage_validDelay pf file :
  preserves validDelay (importSavedPackage pf file).
Proof.
  unfold importSavedPackage.
  destruct (File.json_text file) as [data|]; [|preserve].
  destruct (unsupportedFormat pf data); [preserve|].
  apply preserves_bind; [destruct (member "delay" data) as [[]|]; preserve|intros _].
  apply preserves_bind; [apply importSlides_validDelay|intros n; preserve].
Qed.

Lemma addImageFile_validDelay pf file : preserves validDelay (addImageFile pf file).
Proof. unfold addImageFile. preserve. Qed.

Lemma addPdfPages_validDelay pf file pages : forall pageNumber added,
  preserves validDelay (addPdfPages pf file pages pageNumber added).
Proof.
  induction pages as [|page rest IH]; intros pageNumber added; cbn [addPdfPages];
    [preserve|].
  apply preserves_bind; [unfold addPdfPage; preserve|intros b; apply IH].
Qed.

Lemma addPdfFile_validDelay pf file : preserves validDelay (addPdfFile pf file).
Proof.
  unfold addPdfFile. destruct (negb (pdfSupported pf)); [preserve|].
  destruct (File.pdf file) as [pages|]; [|preserve].
  apply preserves_bind; [apply addPdfPages_validDelay|intros n; preserve].
Qed.

#[export] Hint Resolve importSavedPackage_validDelay addImageFile_validDelay
  addPdfFile_validDelay : preserve.

Lemma addFiles_validDelay pf files : preserves validDelay (addFiles pf files).
Proof.
  unfold addFiles. generalize Batch.zero.
  induction files as [|file rest IH]; intros r; cbn [addFiles_loop]; [preserve|].
  apply preserves_bind; [unfold addFile; preserve|intros r'; apply IH].
Qed.

Lemma restorePersistedSlides_validDelay pf :
  preserves validDelay (restorePersistedSlides pf).
Proof.
  unfold restorePersistedSlides. apply preserves_bind; [preserve|intros slides].
  induction slides as [|slide rest IH]; cbn [restoreSlides]; [preserve|].
  apply preserves_bind; [unfold restoreSlide; preserve|intros _; apply IH].
Qed.

Lemma restoreDelaySetting_valid st : validDelay (snd (restoreDelaySetting st)).
Proof. rewrite restoreDelaySetting_run. apply applyDelay_valid. Qed.

(** X14: the delay is always a valid one.  [applyDelay], the two
    listeners of the controls, [restoreDelaySetting] at startup and
    [resetGallery] each leave both controls showing one delay between 0
    and 2000, whatever they were given; and no operation of the
    pipeline takes a valid delay to an invalid one. *)
Theorem delay_always_valid (st : State) :
  (forall value persist, validDelay (snd (applyDelay value persist st)))
  /\ validDelay (snd (syncDelayFromRange st))
  /\ validDelay (snd (syncDelayFromInput st))
  /\ validDelay (snd (restoreDelaySetting st))
  /\ validDelay (snd (resetGallery st))
  /\ (forall pf op, validDelay st -> validDelay (perform pf op st)).
Proof.
  split; [intros value persist; apply applyDelay_valid|].
  split; [unfold syncDelayFromRange; rewrite bind_run; apply applyDelay_valid|].
  split.
  { unfold syncDelayFromInput. rewrite bind_run. cbn [gets fst snd].
    destruct (delayInput st); apply applyDelay_valid. }
  split; [apply restoreDelaySetting_valid|].
  split.
  { unfold resetGallery. rewrite !bind_run. apply applyDelay_valid. }
  intros pf op Hv. destruct op; cbn [perform].
  - now apply addFiles_validDelay.
  - now apply addImageFile_validDelay.
  - now apply addPdfFile_validDelay.
  - now apply importSavedPackage_validDelay.
  - now apply registerEntry_validDelay.
  - now apply restorePersistedSlides_validDelay.
  - unfold resetGallery. rewrite !bind_run. apply applyDelay_valid.
  - revert Hv. apply (validDelay_kept (buildExportPayload pf)). intros v s <-.
    now rewrite buildExportPayload_run.
  - apply applyDelay_valid.
  - apply restoreDelaySetting_valid.
  - exact Hv.
Qed.

(** ** The payload encoding *)

Lemma string_of_list_ascii_length (l : list ascii) :
  String.length (string_of_list_ascii l) = length l.
Proof. induction l as [|c l IH]; [reflexivity|]. cbn. now rewrite IH. Qed.

Lemma list_ascii_of_string_length (s : string) :
  length (list_ascii_of_string s) = String.length s.
Proof. induction s as [|c s IH]; [reflexivity|]. cbn. now rewrite IH. Qed.

Lemma string_of_list_byte_length (l : list byte) :
  String.length (string_of_list_byte l) = length l.
Proof.
  unfold string_of_list_byte. now rewrite string_of_list_ascii_length, length_map.
Qed.

Lemma encoded_size (l : list ascii) :
  length (map Base64.digit (Base64.sextets l) ++ Base64.padding l)
  = (4 * ((length l + 2) / 3))%nat.
Proof.
  induction l as [| | |a b c l IH] using list_ind3; try reflexivity.
  change (Base64.sextets (a :: b :: c :: l))
    with (let n := Base64.code a * 65536 + Base64.code b * 256 + Base64.code c in
          n / 262144 :: (n / 4096) mod 64 :: (n / 64) mod 64 :: n mod 64
            :: Base64.sextets l).
  change (Base64.padding (a :: b :: c :: l)) with (Base64.padding l).
  cbn zeta. cbn [map app length] in IH |- *. rewrite IH.
  replace (S (S (S (length l))) + 2)%nat with ((length l + 2) + 1 * 3)%nat by lia.
  rewrite Nat.div_add by lia. lia.
Qed.

Lemma btoa_length (binary : string) :
  String.length (Base64.btoa binary) = (4 * ((String.length binary + 2) / 3))%nat.
Proof.
  unfold Base64.btoa. cbn zeta.
  now rewrite string_of_list_ascii_length, encoded_size, list_ascii_of_string_length.
Qed.

(** X15: the payload encoding.  Encoding a buffer in chunks of 32768
    bytes gives what [btoa] gives for the whole buffer at once; the
    text is four characters for every three bytes or part of them; and
    decoding it gives the buffer back, for every buffer. *)
Theorem payload_encoding (buffer : list byte) :
  arrayBufferToBase64 buffer = Base64.btoa (string_of_list_byte buffer)
  /\ String.length (arrayBufferToBase64 buffer) = (4 * ((length buffer + 2) / 3))%nat
  /\ base64ToArrayBuffer (arrayBufferToBase64 buffer) = Some buffer.
Proof.
  assert (H : arrayBufferToBase64 buffer = Base64.btoa (string_of_list_byte buffer)).
  { destruct buffer as [|b buffer]; [reflexivity|].
    unfold arrayBufferToBase64.
    rewrite fromCharCode_chunks_spec by lia. reflexivity. }
  split; [exact H|]. split; [|apply base64_roundtrip].
  now rewrite H, btoa_length, string_of_list_byte_length.
Qed.

(** ** Text that is not base64 *)

Lemma drop_pad_keeps (c : ascii) (r : list ascii) :
  c <> "="%char -> In c r -> In c (Base64.drop_pad r).
Proof.
  intros Hc Hin. destruct r as [|x r]; [contradiction|]. cbn.
  destruct (Ascii.eqb x "=") eqn:E; [|exact Hin].
  apply Ascii.eqb_eq in E. destruct Hin as [->|Hin]; [contradiction|exact Hin].
Qed.

Lemma strip_padding_keeps (c : ascii) (data : list ascii) :
  c <> "="%char -> In c data -> In c (Base64.strip_padding data).
Proof.
  intros Hc Hin. unfold Base64.strip_padding.
  destruct (_ =? _)%nat; [|exact Hin].
  apply in_rev. rewrite rev_involutive.
  now apply drop_pad_keeps, drop_pad_keeps, in_rev; [..|rewrite rev_involutive].
Qed.

Lemma values_invalid (c : ascii) (data : list ascii) :
  Base64.value c = None -> In c data -> Base64.values data = None.
Proof.
  intros Hc. induction data as [|x data IH]; [contradiction|].
  intros [->|Hin]; cbn [Base64.values].
  - now rewrite Hc.
  - rewrite (IH Hin). now destruct (Base64.value x).
Qed.

Lemma atob_invalid (s : string) (c : ascii) :
  In c (list_ascii_of_string s) ->
  Base64.is_whitespace c = false ->
  c <> "="%char ->
  Base64.value c = None ->
  Base64.atob s = None.
Proof.
  intros Hin Hws Hpad Hval. unfold Base64.atob. cbn zeta.
  destruct (_ =? _)%nat; [reflexivity|].
  rewrite (values_invalid c); [reflexivity|exact Hval|].
  apply strip_padding_keeps; [exact Hpad|].
  apply filter_In. split; [exact Hin|now rewrite Hws].
Qed.

(** X16: text that is not base64 is refused.  When the [bytes] of a
    slide entry hold a character that is neither of the base64
    alphabet, nor ASCII white space, nor the padding sign, [atob]
    throws, and the import loop passes the entry over: it is not
    registered and the page stays as it was. *)
Theorem invalid_base64_skipped pf (slide : json) (s : string) (c : ascii) (st : State) :
  member "bytes" slide = Some (JStr s) ->
  In c (list_ascii_of_string s) ->
  Base64.is_whitespace c = false ->
  c <> "="%char ->
  Base64.value c = None ->
  Base64.atob s = None
  /\ base64ToArrayBuffer s = None
  /\ importSlide pf slide st = (false, st).
Proof.
  intros Hbytes Hin Hws Hpad Hval.
  pose proof (atob_invalid s c Hin Hws Hpad Hval) as Hatob.
  split; [exact Hatob|].
  assert (Hbuf : base64ToArrayBuffer s = None)
    by (unfold base64ToArrayBuffer; now rewrite Hatob).
  split; [exact Hbuf|].
  apply importSlide_skipped. unfold decodeSlide. now rewrite Hbytes.
Qed.

Lemma invalid_base64_skipped_witness :
  (member "bytes" (slideEntry "s3" "@@@") = Some (JStr "@@@")
   /\ In "@"%char (list_ascii_of_string "@@@")
   /\ Base64.is_whitespace "@" = false
   /\ "@"%char <> "="%char
   /\ Base64.value "@" = None)
  /\ Base64.atob "@@@" = None
  /\ importSlide demoPlatform (slideEntry "s3" "@@@") startupPage = (false, startupPage).
Proof.
  assert (Hin : In "@"%char (list_ascii_of_string "@@@")) by (now left).
  assert (Hpad : "@"%char <> "="%char) by discriminate.
  destruct (invalid_base64_skipped demoPlatform (slideEntry "s3" "@@@") "@@@" "@"%char
              startupPage eq_refl Hin eq_refl Hpad eq_refl) as (Ha & _ & Hi).
  split; [now repeat split|]. now split.
Defined.

(** ** The pipeline only adds to the gallery *)

Lemma restoreSlides_grows pf slides : forall st,
  exists n, grows n st (snd (restoreSlides pf slides st)).
Proof.
  induction slides as [|slide rest IH]; intros st.
  - exists 0%nat. now apply grows_same.
  - cbn [restoreSlides]. rewrite bind_run.
    assert (H1 : exists n, grows n st (snd (restoreSlide pf slide st))).
    { unfold restoreSlide. destruct (String.eqb _ _); [exists 0%nat; now apply grows_same|].
      destruct (match Slide.blob slide with Some _ => _ | None => _ end) as [blob|];
        [|exists 0%nat; now apply grows_same].
      rewrite !bind_run. cbn [ret snd].
      match goal with |- context [registerEntry pf _ _ _ _ _ ?s] => set (st1 := s) end.
      assert (H0 : grows 0 st st1)
        by (subst st1; destruct (num_falsy _); [apply now_counting|now apply grows_same]).
      eexists. exact (grows_trans 0 _ _ _ _ H0 (registerEntry_counting pf _ _ _ _ _ st1)). }
    destruct H1 as [n Hn]. destruct (IH (snd (restoreSlide pf slide st))) as [m Hm].
    exists (n + m)%nat. exact (grows_trans _ _ _ _ _ Hn Hm).
Qed.

Lemma perform_grows pf op st :
  additive op = true -> exists n, grows n st (perform pf op st).
Proof.
  destruct op; cbn [additive perform]; intros Hop; try discriminate.
  - destruct (addFiles_loop_grows pf files Batch.zero st) as (n & _ & Hg). now exists n.
  - eexists. apply (addImageFile_counting pf file st).
  - eexists. apply (addPdfFile_counting pf file st).
  - eexists. apply (importSavedPackage_grows pf file st).
  - eexists. apply (registerEntry_counting pf blob label signature persist addedAt st).
  - unfold restorePersistedSlides. rewrite bind_run.
    assert (Hst : snd (getPersistedSlides st) = st).
    { unfold getPersistedSlides. rewrite bind_run. cbn [gets fst snd]. now destruct (db st). }
    rewrite Hst. apply restoreSlides_grows.
  - exists 0%nat. rewrite buildExportPayload_run. now apply grows_same.
  - exists 0%nat. apply applyDelay_counting.
  - exists 0%nat. rewrite restoreDelaySetting_run. apply applyDelay_counting.
Qed.

(** X17: the pipeline only adds to the gallery.  Every operation
    other than the reset and the unload handler (ingestion, import,
    registration, restore, export, the delay) leaves the entries of the
    gallery where they are, in their order, with new entries, if any,
    after them, and forgets no signature. *)
Theorem pipeline_only_adds pf (op : operation) (st : State) :
  additive op = true ->
  (exists new, imageEntries (perform pf op st) = imageEntries st ++ new)
  /\ imageSignatures st ⊆ imageSignatures (perform pf op st).
Proof.
  intros Hop. destruct (perform_grows pf op st Hop) as (n & (new & He & _) & Hs & _).
  split; [now exists new|exact Hs].
Qed.

Lemma pipeline_only_adds_witness :
  additive (AddFiles [photo; reportA]) = true
  /\ exists new,
       imageEntries (perform demoPlatform (AddFiles [photo; reportA]) galleryOfTwo)
       = imageEntries galleryOfTwo ++ new.
Proof.
  destruct (pipeline_only_adds demoPlatform (AddFiles [photo; reportA]) galleryOfTwo eq_refl)
    as [Hnew _].
  split; [reflexivity|exact Hnew].
Defined.

(** ** The slideshow never reads past the gallery *)

Lemma scheduleNextFrame_fields sh :
  Show.page (scheduleNextFrame sh) = Show.page sh
  /\ Show.isRunning (scheduleNextFrame sh) = Show.isRunning sh
  /\ Show.currentIndex (scheduleNextFrame sh) = Show.currentIndex sh
  /\ Show.suspended (scheduleNextFrame sh) = Show.suspended sh
  /\ Show.startDisabled (scheduleNextFrame sh) = Show.startDisabled sh
  /\ Show.stageSrc (scheduleNextFrame sh) = Show.stageSrc sh
  /\ Show.stageAlt (scheduleNextFrame sh) = Show.stageAlt sh.
Proof. unfold scheduleNextFrame. now destruct (num_leb _ _). Qed.

Lemma stopSlideshow_fields sh :
  Show.page (stopSlideshow sh) = Show.page sh
  /\ Show.currentIndex (stopSlideshow sh) = Show.currentIndex sh
  /\ Show.isRunning (stopSlideshow sh) = false
  /\ Show.suspended (stopSlideshow sh) = Show.suspended sh.
Proof. unfold stopSlideshow. now destruct (Show.isRunning sh) eqn:E. Qed.

Lemma showNextImage_indexed sh :
  indexed sh -> exists sh', showNextImage sh = Some sh' /\ indexed sh'.
Proof.
  intros Hi. unfold showNextImage.
  destruct (negb (Show.isRunning sh)); [now exists sh|].
  destruct (galleryEmpty (Show.page sh)) eqn:Hempty.
  { eexists. split; [reflexivity|]. unfold indexed.
    destruct (stopSlideshow_fields sh) as (-> & -> & _). exact Hi. }
  assert (Hlen : (0 < length (imageEntries (Show.page sh)))%nat).
  { destruct (imageEntries (Show.page sh)) eqn:E; [|cbn; lia].
    unfold galleryEmpty in Hempty. now rewrite E in Hempty. }
  assert (Hlt : (Show.currentIndex sh < length (imageEntries (Show.page sh)))%nat)
    by (destruct Hi as [-> | Hi]; [exact Hlen|exact Hi]).
  destruct (lookup_lt_is_Some_2 _ _ Hlt) as [entry ->].
  eexists. split; [reflexivity|]. right.
  destruct (scheduleNextFrame_fields
              {| Show.page := Show.page sh; Show.isRunning := Show.isRunning sh;
                 Show.currentIndex :=
                   (Show.currentIndex sh + 1) mod length (imageEntries (Show.page sh));
                 Show.timers := Show.timers sh;
                 Show.suspended := Show.suspended sh;
                 Show.startDisabled := Show.startDisabled sh;
                 Show.stageSrc := Some (Entry.url entry);
                 Show.stageAlt := Some (str_or (Entry.label entry) "Slideshow image") |})
    as (-> & _ & -> & _).
  cbn [Show.page Show.currentIndex]. apply Nat.mod_upper_bound. lia.
Qed.

Lemma indexed_grows n sh st' :
  grows n (Show.page sh) st' -> indexed sh -> indexed (set_page st' sh).
Proof.
  intros ([new [He _]] & _) [H0|Hlt]; [now left|right].
  cbn [set_page Show.page Show.currentIndex]. rewrite He, length_app. lia.
Qed.

Lemma handle_indexed pf ev sh :
  enabled Interleaved ev sh = true -> indexed sh ->
  exists sh', handle pf ev sh = Some sh' /\ indexed sh'.
Proof.
  intros Hen Hi. destruct ev; cbn [handle].
  - eexists. split; [reflexivity|]. unfold startSlideshow_begin.
    destruct (_ || _); [exact Hi|now left].
  - apply showNextImage_indexed. exact Hi.
  - apply showNextImage_indexed. exact Hi.
  - apply showNextImage_indexed. exact Hi.
  - eexists. split; [reflexivity|]. unfold indexed.
    destruct (stopSlideshow_fields sh) as (-> & -> & _). exact Hi.
  - eexists. split; [reflexivity|]. now left.
  - eexists. split; [reflexivity|]. unfold addFiles_show.
    destruct files as [|file files]; [exact Hi|].
    destruct (addFiles_loop_grows pf (file :: files) Batch.zero (Show.page sh))
      as (n & _ & Hg).
    fold (addFiles pf (file :: files)) in Hg.
    destruct (addFiles pf (file :: files) (Show.page sh)) as [result st'].
    cbn [fst snd] in *. pose proof (indexed_grows n sh st' Hg Hi) as Hi'.
    destruct (_ <? _)%nat; [destruct (negb _)|destruct (galleryEmpty st')]; exact Hi'.
  - eexists. split; [reflexivity|]. cbn [enabled] in Hen.
    destruct (perform_grows pf op (Show.page sh) Hen) as [n Hg].
    exact (indexed_grows n sh _ Hg Hi).
Qed.

Lemma plays_indexed pf sh : plays pf Interleaved sh -> indexed sh.
Proof.
  induction 1 as [sh Hs|sh ev sh' _ IH Hen Hh].
  - left. unfold started in Hs.
    repeat (apply andb_prop in Hs as [Hs ?]). now apply Nat.eqb_eq.
  - destruct (handle_indexed pf ev sh Hen IH) as (sh'' & Hh' & Hi).
    rewrite Hh in Hh'. now injection Hh' as ->.
Qed.

(** X18: the slideshow never reads past the gallery.  On a page that
    has started, whatever the order of clicks, key presses, timer
    callbacks, added batches and single steps of the ingestion
    pipeline, as long as the page is not unloaded: the index of the
    next slide is inside the gallery (or 0 when it is empty), and no
    handler throws; in particular [showNextImage] always finds the
    entry it shows. *)
Theorem slideshow_never_throws pf (sh : Show.t) (ev : event) :
  plays pf Interleaved sh ->
  enabled Interleaved ev sh = true ->
  (Show.currentIndex sh < Nat.max 1 (length (imageEntries (Show.page sh))))%nat
  /\ exists sh', handle pf ev sh = Some sh' /\ plays pf Interleaved sh'.
Proof.
  intros Hp Hen. pose proof (plays_indexed pf sh Hp) as Hi.
  split; [destruct Hi; lia|].
  destruct (handle_indexed pf ev sh Hen Hi) as (sh' & Hh & _).
  exists sh'. split; [exact Hh|]. exact (plays_event pf Interleaved sh ev sh' Hp Hen Hh).
Qed.

Lemma slideshow_never_throws_witness :
  (plays demoPlatform Interleaved (startSlideshow_begin showOfTwo)
   /\ enabled Interleaved FullscreenSettled (startSlideshow_begin showOfTwo) = true)
  /\ exists sh',
       handle demoPlatform FullscreenSettled (startSlideshow_begin showOfTwo) = Some sh'.
Proof.
  assert (Hp : plays demoPlatform Interleaved (startSlideshow_begin showOfTwo)).
  { apply (plays_event demoPlatform Interleaved showOfTwo StartClicked);
      [apply plays_started|..]; reflexivity. }
  destruct (slideshow_never_throws demoPlatform (startSlideshow_begin showOfTwo)
              FullscreenSettled Hp eq_refl) as (_ & sh' & Hh & _).
  split; [split; [exact Hp|reflexivity]|]. now exists sh'.
Defined.

(** ** One callback at a time *)

Lemma idle_pending tm : idle tm <-> Timers.pending tm = 0%nat.
Proof.
  unfold idle, Timers.pending. split.
  - now intros [-> ->].
  - intros H. destruct (Timers.timeouts tm), (Timers.animationFrames tm);
      cbn in H; try lia. now split.
Qed.

Lemma chained_pending tm : chained tm -> Timers.pending tm = 1%nat.
Proof.
  unfold Timers.pending.
  now intros [(id & delay & -> & -> & _)|(id & -> & -> & _)].
Qed.

Lemma clearTimers_idle tm : idle tm \/ chained tm -> idle (Timers.clearTimers tm).
Proof.
  unfold idle, chained, Timers.clearTimers. destruct tm as [st sr ts fs h]. cbn.
  intros [[-> ->]|[(id & delay & -> & -> & ->)|(id & -> & -> & ->)]].
  - now destruct st, sr.
  - cbn. rewrite Pos.eqb_refl. now destruct sr.
  - destruct st; cbn; now rewrite Pos.eqb_refl.
Qed.

Lemma scheduleNextFrame_chained sh :
  idle (Show.timers sh) -> chained (Show.timers (scheduleNextFrame sh)).
Proof.
  unfold idle, chained, scheduleNextFrame.
  destruct (Show.timers sh) as [st sr ts fs h] eqn:Htm. cbn.
  intros [-> ->].
  destruct (num_leb _ _); cbn; [right|left]; eauto.
Qed.

Lemma showNextImage_settled sh sh' :
  Show.suspended sh = 0%nat ->
  idle (Show.timers sh) ->
  Show.startDisabled sh = Show.isRunning sh || galleryEmpty (Show.page sh) ->
  showNextImage sh = Some sh' ->
  settled sh'.
Proof.
  intros Hsus Hidle Hbtn. unfold showNextImage.
  destruct (Show.isRunning sh) eqn:Hrun; cbn [negb].
  2:{ intros [= <-]. constructor; rewrite ?Hsus, ?Hrun; try easy. lia. }
  destruct (galleryEmpty (Show.page sh)) eqn:Hempty.
  { intros [= <-]. unfold stopSlideshow. rewrite Hrun. cbn [negb].
    constructor; cbn; rewrite ?Hsus; try easy; try lia.
    intros _. apply clearTimers_idle. now left. }
  destruct (imageEntries (Show.page sh) !! Show.currentIndex sh) as [entry|];
    [|discriminate].
  intros [= <-].
  match goal with |- settled (scheduleNextFrame ?s) =>
    pose proof (scheduleNextFrame_chained s Hidle) as Hch;
    destruct (scheduleNextFrame_fields s) as (Hp & Hr & _ & Hs & Hb & _)
  end.
  cbn in Hp, Hr, Hs, Hb.
  constructor.
  - rewrite Hs, Hsus. lia.
  - rewrite Hs, Hsus. discriminate.
  - intros _ _. exact Hch.
  - rewrite Hr. discriminate.
  - now rewrite Hb, Hr, Hp, Hbtn, Hempty.
Qed.

Lemma fired_timeout tm id :
  chained tm ->
  existsb (fun t => Pos.eqb (fst t) id) (Timers.timeouts tm) = true ->
  idle (Timers.fireTimeout id tm).
Proof.
  unfold idle, chained, Timers.fireTimeout. destruct tm as [st sr ts fs h]. cbn.
  intros [(id' & delay & -> & -> & _)|(id' & -> & _)]; cbn; [|discriminate].
  rewrite orb_false_r. now intros ->.
Qed.

Lemma fired_frame tm id :
  chained tm ->
  existsb (Pos.eqb id) (Timers.animationFrames tm) = true ->
  idle (Timers.fireFrame id tm).
Proof.
  unfold idle, chained, Timers.fireFrame. destruct tm as [st sr ts fs h]. cbn.
  intros [(id' & delay & _ & -> & _)|(id' & -> & -> & _)]; cbn; [discriminate|].
  rewrite orb_false_r, Pos.eqb_sym. now intros ->.
Qed.

Lemma neutral_entries pf op st :
  galleryNeutral op = true -> imageEntries (perform pf op st) = imageEntries st.
Proof.
  destruct op; cbn [galleryNeutral perform]; intros Hop; try discriminate.
  - now rewrite buildExportPayload_run.
  - apply applyDelay_gallery.
  - rewrite restoreDelaySetting_run. apply applyDelay_gallery.
Qed.

Lemma settled_page sh st' disabled :
  settled sh ->
  disabled = Show.isRunning sh || galleryEmpty st' ->
  settled (set_startDisabled disabled (set_page st' sh)).
Proof. intros [H1 H2 H3 H4 H5] Hd. now constructor. Qed.

Lemma handle_settled pf ev sh sh' :
  enabled Settled ev sh = true -> settled sh -> handle pf ev sh = Some sh' -> settled sh'.
Proof.
  intros Hen Hset Hh. pose proof Hset as [Hle Hwait Hrun Hstop Hbtn].
  assert (Hcase : ev = FullscreenSettled \/
                  (ev <> FullscreenSettled /\ Show.suspended sh = 0%nat)).
  { destruct ev; cbn [enabled] in Hen; try (now left);
      right; (split; [discriminate|]);
      apply andb_prop in Hen as [Hen _]; now apply Nat.eqb_eq in Hen. }
  destruct Hcase as [->|[Hev Hsus]].
  { cbn [enabled handle] in Hen, Hh. apply Nat.ltb_lt in Hen.
    assert (H1 : Show.suspended sh = 1%nat) by lia.
    destruct (Hwait H1) as [Hr Hi].
    unfold startSlideshow_resume in Hh. rewrite H1 in Hh. cbn [pred] in Hh.
    exact (showNextImage_settled (set_suspended 0 sh) sh' eq_refl Hi
             (settled_button _ Hset) Hh). }
  destruct ev; cbn [handle] in Hh; try contradiction.
  - (* the start button *)
    injection Hh as <-. unfold startSlideshow_begin.
    destruct (Show.isRunning sh) eqn:Hr; cbn [orb]; [exact Hset|].
    destruct (galleryEmpty (Show.page sh)) eqn:He; [exact Hset|].
    constructor; cbn; rewrite ?Hsus; try easy. auto.
  - (* a timeout *)
    cbn [enabled] in Hen. rewrite Hsus in Hen. cbn [Nat.eqb andb] in Hen.
    destruct (Show.isRunning sh) eqn:Hr.
    + refine (showNextImage_settled
                (set_timers (Timers.fireTimeout id (Show.timers sh)) sh) sh'
                Hsus _ (settled_button _ Hset) Hh).
      apply fired_timeout; [now apply Hrun|exact Hen].
    + destruct (Hstop eq_refl) as [Ht _]. rewrite Ht in Hen. discriminate.
  - (* an animation frame *)
    cbn [enabled] in Hen. rewrite Hsus in Hen. cbn [Nat.eqb andb] in Hen.
    destruct (Show.isRunning sh) eqn:Hr.
    + refine (showNextImage_settled
                (set_timers (Timers.fireFrame id (Show.timers sh)) sh) sh'
                Hsus _ (settled_button _ Hset) Hh).
      apply fired_frame; [now apply Hrun|exact Hen].
    + destruct (Hstop eq_refl) as [_ Hf]. rewrite Hf in Hen. discriminate.
  - (* Escape *)
    injection Hh as <-. unfold stopSlideshow.
    destruct (Show.isRunning sh) eqn:Hr; cbn [negb]; [|exact Hset].
    constructor; cbn; rewrite ?Hsus; try easy; try lia.
    intros _. apply clearTimers_idle. right. now apply Hrun.
  - (* reset *)
    injection Hh as <-. unfold resetGallery_show.
    destruct (stopSlideshow_fields sh) as (Hp & _ & Hr' & Hs').
    assert (Hidle : idle (Show.timers (stopSlideshow sh))).
    { unfold stopSlideshow. destruct (Show.isRunning sh) eqn:Hr; cbn [negb].
      - cbn. apply clearTimers_idle. right. now apply Hrun.
      - now apply Hstop. }
    assert (Hempty :
      galleryEmpty (snd (resetGallery (Show.page (stopSlideshow sh)))) = true).
    { unfold galleryEmpty.
      now destruct (resetGallery_state (Show.page (stopSlideshow sh))) as (-> & _). }
    constructor;
      cbn [Show.suspended Show.isRunning Show.timers Show.startDisabled Show.page].
    + rewrite Hs', Hsus. lia.
    + rewrite Hs', Hsus. discriminate.
    + rewrite Hr'. discriminate.
    + intros _. apply clearTimers_idle. now left.
    + now rewrite Hr', Hempty.
  - (* a batch *)
    injection Hh as <-. unfold addFiles_show.
    destruct files as [|file files]; [exact Hset|].
    destruct (addFiles_loop_grows pf (file :: files) Batch.zero (Show.page sh))
      as (n & Hn & ([new [He Hl]] & _)).
    fold (addFiles pf (file :: files)) in Hn, He.
    destruct (addFiles pf (file :: files) (Show.page sh)) as [result st'].
    cbn [fst snd Batch.added Batch.zero] in *.
    assert (Hsame : Batch.added result = 0%nat ->
                    galleryEmpty st' = galleryEmpty (Show.page sh)).
    { intros Hz. unfold galleryEmpty. rewrite He.
      destruct new; [now rewrite app_nil_r|cbn in Hl; lia]. }
    destruct (0 <? Batch.added result)%nat eqn:Hadded.
    + change (Show.isRunning (set_page st' sh)) with (Show.isRunning sh).
      destruct (Show.isRunning sh) eqn:Hr; cbn [negb].
      * apply (settled_page sh st' (Show.startDisabled sh) Hset). now rewrite Hbtn, Hr.
      * apply (settled_page sh st' (galleryEmpty st') Hset). now rewrite Hr.
    + apply Nat.ltb_ge in Hadded. assert (Hz : Batch.added result = 0%nat) by lia.
      specialize (Hsame Hz).
      destruct (galleryEmpty st') eqn:He'.
      * apply (settled_page sh st' true Hset). now rewrite He', orb_true_r.
      * apply (settled_page sh st' (Show.startDisabled sh) Hset).
        now rewrite Hbtn, He', Hsame.
  - (* a step that leaves the gallery alone *)
    injection Hh as <-. cbn [enabled] in Hen. rewrite Hsus in Hen.
    cbn [Nat.eqb andb] in Hen.
    pose proof (neutral_entries pf op (Show.page sh) Hen) as He.
    apply (settled_page sh (perform pf op (Show.page sh)) (Show.startDisabled sh) Hset).
    rewrite Hbtn. unfold galleryEmpty. now rewrite He.
Qed.

Lemma started_settled sh : started sh = true -> settled sh.
Proof.
  unfold started. intros H.
  apply andb_prop in H as [H Hb]. apply andb_prop in H as [H Hs].
  apply andb_prop in H as [H Hp]. apply andb_prop in H as [Hr Hi].
  apply negb_true_iff in Hr. apply Nat.eqb_eq in Hs, Hp. apply Bool.eqb_prop in Hb.
  apply idle_pending in Hp.
  constructor; rewrite ?Hs, ?Hr; try easy. lia.
Qed.

Lemma plays_settled pf sh : plays pf Settled sh -> settled sh.
Proof.
  induction 1 as [sh Hs|sh ev sh' _ IH Hen Hh]; [now apply started_settled|].
  exact (handle_settled pf ev sh sh' Hen IH Hh).
Qed.

(** X19: one callback at a time.  On a page that has started and
    whose asynchronous functions finish before the next event, the
    browser holds exactly one callback of [showNextImage] while the
    show runs, and it is the one [slideshowTimeout] or [slideshowRaf]
    remembers; it holds none when the show does not run.  So the show
    advances by one frame at a time, and [stopSlideshow] leaves nothing
    behind that could show another slide. *)
Theorem one_callback_at_a_time pf (sh : Show.t) :
  plays pf Settled sh ->
  Timers.pending (Show.timers sh)
  = (if Show.isRunning sh && (Show.suspended sh =? 0)%nat then 1%nat else 0%nat)
  /\ (Show.isRunning sh = true -> Show.suspended sh = 0%nat -> chained (Show.timers sh))
  /\ Show.isRunning (stopSlideshow sh) = false
  /\ Timers.pending (Show.timers (stopSlideshow sh)) = 0%nat.
Proof.
  intros Hp. pose proof (plays_settled pf sh Hp) as [Hle Hwait Hrun Hstop Hbtn].
  split.
  { destruct (Show.isRunning sh) eqn:Hr; cbn [andb].
    - destruct (Show.suspended sh) as [|[|n]] eqn:Hs; cbn; [|idtac|lia].
      + now apply chained_pending, Hrun.
      + now apply idle_pending, Hwait.
    - now apply idle_pending, Hstop. }
  split; [auto|].
  split; [apply stopSlideshow_fields|].
  apply idle_pending. unfold stopSlideshow.
  destruct (Show.isRunning sh) eqn:Hr; cbn [negb]; [|now apply Hstop].
  cbn. apply clearTimers_idle.
  destruct (Show.suspended sh) as [|[|n]] eqn:Hs; [right; now apply Hrun| |lia].
  left. now apply Hwait.
Qed.

Lemma startup_started pf st disabled : started (startup pf st disabled) = true.
Proof.
  unfold started, startup, restorePersistedSlides_show. cbn.
  now rewrite Bool.eqb_reflx.
Qed.

(** X20: the start button follows the gallery.  The startup leaves a
    page that has started, with the button disabled exactly when the
    gallery is empty, whatever the document said; and from then on,
    between events, the button is disabled exactly when the show runs
    or the gallery is empty. *)
Theorem start_button_follows_gallery pf :
  (forall st disabled,
      plays pf Settled (startup pf st disabled)
      /\ Show.startDisabled (startup pf st disabled)
         = galleryEmpty (Show.page (startup pf st disabled)))
  /\ (forall sh : Show.t,
         plays pf Settled sh ->
         Show.startDisabled sh = Show.isRunning sh || galleryEmpty (Show.page sh)).
Proof.
  split.
  - intros st disabled.
    pose proof (startup_started pf st disabled) as Hs.
    split; [now apply plays_started|].
    unfold started in Hs.
    apply Bool.andb_true_iff in Hs as [_ Hb].
    now apply Bool.eqb_prop in Hb.
  - intros sh Hp. now destruct (plays_settled pf sh Hp).
Qed.

Lemma start_button_follows_gallery_witness :
  plays demoPlatform Settled (startup demoPlatform startupPage true)
  /\ Show.startDisabled (startup demoPlatform startupPage true) = false.
Proof.
  destruct (start_button_follows_gallery demoPlatform) as [Hstart Hplays].
  destruct (Hstart startupPage true) as [Hp _].
  split; [exact Hp|].
  rewrite (Hplays _ Hp). vm_compute. reflexivity.
Defined.

Lemma one_callback_at_a_time_witness :
  exists sh,
    startSlideshow showOfTwo = Some sh
    /\ plays demoPlatform Settled sh
    /\ Timers.pending (Show.timers sh) = 1%nat
    /\ Timers.pending (Show.timers (stopSlideshow sh)) = 0%nat.
Proof.
  eexists. split; [reflexivity|].
  match goal with |- plays _ _ ?s /\ _ =>
    assert (Hp : plays demoPlatform Settled s)
  end.
  { apply (plays_event demoPlatform Settled (startSlideshow_begin showOfTwo)
             FullscreenSettled); [|reflexivity..].
    apply (plays_event demoPlatform Settled showOfTwo StartClicked);
      [apply plays_started|..]; reflexivity. }
  split; [exact Hp|].
  destruct (one_callback_at_a_time demoPlatform _ Hp) as (H1 & _ & _ & H0).
  split; [rewrite H1; reflexivity|exact H0].
Defined.

(** ** The slides in turn *)

Lemma showNextImage_shows (sh : Show.t) (i : nat) :
  Show.isRunning sh = true ->
  idle (Show.timers sh) ->
  Show.currentIndex sh = i ->
  (i < length (imageEntries (Show.page sh)))%nat ->
  exists sh' entry,
    showNextImage sh = Some sh'
    /\ imageEntries (Show.page sh) !! i = Some entry
    /\ Show.isRunning sh' = true
    /\ Show.page sh' = Show.page sh
    /\ chained (Show.timers sh')
    /\ Show.currentIndex sh' = ((i + 1) mod length (imageEntries (Show.page sh)))%nat
    /\ Show.stageSrc sh' = Some (Entry.url entry)
    /\ Show.stageAlt sh' = Some (str_or (Entry.label entry) "Slideshow image").
Proof.
  intros Hrun Hidle Hi Hlt. unfold showNextImage. rewrite Hrun, Hi. cbn [negb].
  assert (Hempty : galleryEmpty (Show.page sh) = false).
  { unfold galleryEmpty. destruct (imageEntries (Show.page sh)); [cbn in Hlt; lia|easy]. }
  rewrite Hempty.
  destruct (lookup_lt_is_Some_2 _ _ Hlt) as [entry He]. rewrite He.
  eexists. exists entry. split; [reflexivity|]. split; [reflexivity|].
  match goal with |- context [scheduleNextFrame ?s] =>
    pose proof (scheduleNextFrame_chained s Hidle) as Hch;
    destruct (scheduleNextFrame_fields s) as (Hp & Hr & Hc & _ & _ & Hsrc & Halt)
  end.
  rewrite Hp, Hr, Hc, Hsrc, Halt. cbn. now repeat split.
Qed.

Lemma tick_chained pf sh :
  chained (Show.timers sh) ->
  exists tm, idle tm /\ tick pf sh = showNextImage (set_timers tm sh).
Proof.
  unfold tick, chained. destruct (Show.timers sh) as [st sr ts fs h] eqn:Htm. cbn.
  intros [(id & delay & -> & -> & _)|(id & -> & -> & _)]; cbn [handle]; rewrite Htm.
  - eexists. split; [|reflexivity]. unfold idle. cbn. now rewrite Pos.eqb_refl.
  - eexists. split; [|reflexivity]. unfold idle. cbn. now rewrite Pos.eqb_refl.
Qed.

(** X21: the slides are shown in turn.  Started on a gallery that is
    not empty, with the show not running and no callback left over, the
    player shows the first slide; after [k] callbacks it shows the
    slide at position [k] modulo the size of the gallery, with the
    label of the entry as alternative text ([Slideshow image] when the
    label is empty), and it keeps running. *)
Theorem slides_in_turn pf (sh : Show.t) :
  Show.isRunning sh = false ->
  idle (Show.timers sh) ->
  galleryEmpty (Show.page sh) = false ->
  exists sh0,
    startSlideshow sh = Some sh0
    /\ forall k, exists shk entry,
         ticks pf k sh0 = Some shk
         /\ imageEntries (Show.page sh)
              !! (k mod length (imageEntries (Show.page sh)))%nat
            = Some entry
         /\ Show.stageSrc shk = Some (Entry.url entry)
         /\ Show.stageAlt shk = Some (str_or (Entry.label entry) "Slideshow image")
         /\ Show.isRunning shk = true
         /\ Show.page shk = Show.page sh.
Proof.
  intros Hrun Hidle Hempty.
  set (n := length (imageEntries (Show.page sh))).
  assert (Hn : (0 < n)%nat).
  { subst n. unfold galleryEmpty in Hempty.
    destruct (imageEntries (Show.page sh)); [discriminate|cbn; lia]. }
  unfold startSlideshow, startSlideshow_resume, startSlideshow_begin.
  rewrite Hrun, Hempty. cbn [orb].
  match goal with |- context [showNextImage ?s] =>
    destruct (showNextImage_shows s 0) as (sh0 & e0 & H0 & He0 & Hr0 & Hp0 & Hc0 & Hi0 & Hs0 & Ha0);
      [reflexivity|exact Hidle|reflexivity|exact Hn|]
  end.
  cbn [Show.page set_suspended] in He0, Hp0, Hi0. fold n in Hi0.
  exists sh0. split; [exact H0|].
  assert (Hall : forall k, exists shk entry,
             ticks pf k sh0 = Some shk
             /\ imageEntries (Show.page sh) !! (k mod n)%nat = Some entry
             /\ Show.stageSrc shk = Some (Entry.url entry)
             /\ Show.stageAlt shk = Some (str_or (Entry.label entry) "Slideshow image")
             /\ Show.isRunning shk = true
             /\ Show.page shk = Show.page sh
             /\ chained (Show.timers shk)
             /\ Show.currentIndex shk = ((k + 1) mod n)%nat).
  { induction k as [|k IH].
    - exists sh0, e0. rewrite Nat.Div0.mod_0_l. cbn [ticks]. now repeat split.
    - destruct IH as (shk & ek & Ht & _ & _ & _ & Hr & Hp & Hc & Hi).
      cbn [ticks]. rewrite Ht.
      destruct (tick_chained pf shk Hc) as (tm & Htm & ->).
      destruct (showNextImage_shows (set_timers tm shk) ((k + 1) mod n))
        as (sh' & e' & H' & He' & Hr' & Hp' & Hc' & Hi' & Hs' & Ha');
        [exact Hr|exact Htm|exact Hi| |].
      { cbn [Show.page set_timers]. rewrite Hp. fold n. apply Nat.mod_upper_bound. lia. }
      cbn [Show.page set_timers] in He', Hp', Hi'. rewrite Hp in He', Hp', Hi'.
      fold n in Hi'.
      exists sh', e'. replace (S k) with (k + 1)%nat by lia.
      repeat split; try assumption.
      rewrite Hi', Nat.Div0.add_mod_idemp_l. f_equal. }
  intros k. destruct (Hall k) as (shk & e & H1 & H2 & H3 & H4 & H5 & H6 & _).
  exists shk, e. now repeat split.
Qed.

Lemma slides_in_turn_witness :
  (Show.isRunning showOfTwo = false /\ idle (Show.timers showOfTwo)
   /\ galleryEmpty (Show.page showOfTwo) = false)
  /\ exists sh0 sh3,
       startSlideshow showOfTwo = Some sh0
       /\ ticks demoPlatform 3 sh0 = Some sh3
       /\ Show.stageAlt sh3 = Some "Slideshow image".
Proof.
  assert (Hidle : idle (Show.timers showOfTwo)) by (now split).
  destruct (slides_in_turn demoPlatform showOfTwo eq_refl Hidle eq_refl)
    as (sh0 & Hstart & Hall).
  destruct (Hall 3%nat) as (sh3 & e & Ht & He & _ & Ha & _).
  split; [now repeat split|].
  exists sh0, sh3. split; [exact Hstart|]. split; [exact Ht|].
  rewrite Ha. cbn in He. injection He as <-. reflexivity.
Defined.

(** ** The service worker *)

Lemma delete_filter (keys : list string) : forall cs : Caches.t,
  fold_left (fun cs key => Caches.delete key cs) keys cs
  = List.filter (fun c => negb (existsb (String.eqb (fst c)) keys)) cs.
Proof.
  induction keys as [|key keys IH]; intros cs; cbn [fold_left existsb].
  - cbn. induction cs as [|c cs IHcs]; [reflexivity|]. cbn. now rewrite <- IHcs.
  - rewrite IH. unfold Caches.delete.
    induction cs as [|c cs IHcs]; [reflexivity|]. cbn [List.filter].
    destruct (String.eqb (fst c) key) eqn:E; cbn [negb orb List.filter].
    + exact IHcs.
    + destruct (existsb _ keys); cbn [negb]; [exact IHcs|now rewrite IHcs].
Qed.

Lemma activate_filter (cs : Caches.t) :
  ServiceWorker.activate cs
  = List.filter (fun c => String.eqb (fst c) ServiceWorker.CACHE_NAME) cs.
Proof.
  unfold ServiceWorker.activate. rewrite delete_filter.
  apply filter_ext_in. intros c Hc.
  destruct (String.eqb (fst c) ServiceWorker.CACHE_NAME) eqn:E.
  - apply negb_true_iff. apply not_true_is_false. intros Hex.
    apply existsb_exists in Hex as (key & Hkey & Heq).
    apply filter_In in Hkey as [_ Hkey]. apply String.eqb_eq in Heq, E.
    rewrite <- Heq, E, String.eqb_refl in Hkey. discriminate.
  - apply negb_false_iff, existsb_exists. exists (fst c).
    split; [|apply String.eqb_refl].
    apply filter_In. split; [now apply in_map|now rewrite E].
Qed.

(** X22: activation cleans up.  After the [activate] listener the
    cache storage holds no cache under another name than the current
    one, and the current cache is what it was. *)
Theorem activate_keeps_current_cache (cs : Caches.t) :
  Forall (fun key => key = ServiceWorker.CACHE_NAME)
         (Caches.keys (ServiceWorker.activate cs))
  /\ Caches.lookup ServiceWorker.CACHE_NAME (ServiceWorker.activate cs)
     = Caches.lookup ServiceWorker.CACHE_NAME cs.
Proof.
  rewrite activate_filter. split.
  - apply List.Forall_forall. intros key Hkey. unfold Caches.keys in Hkey.
    apply in_map_iff in Hkey as (c & <- & Hc).
    apply filter_In in Hc as [_ Hc]. now apply String.eqb_eq.
  - unfold Caches.lookup. induction cs as [|c cs IH]; [reflexivity|].
    cbn [List.filter List.find].
    destruct (String.eqb (fst c) ServiceWorker.CACHE_NAME) eqn:E.
    + cbn [List.find]. now rewrite E.
    + exact IH.
Qed.

Lemma fetchAll_In network urls : forall responses url,
  ServiceWorker.fetchAll network urls = Some responses ->
  In url urls ->
  exists response,
    network url = Some response /\ Response.ok response = true
    /\ In (url, response) responses.
Proof.
  induction urls as [|first rest IH]; intros responses url Hf Hin; [contradiction|].
  cbn [ServiceWorker.fetchAll] in Hf.
  destruct (network first) as [r|] eqn:Hr; [|discriminate].
  destruct (Response.ok r) eqn:Hok; [|discriminate].
  destruct (ServiceWorker.fetchAll network rest) as [rs|] eqn:Hrs; [|discriminate].
  injection Hf as <-.
  destruct Hin as [<-|Hin].
  - exists r. repeat split; [exact Hr|exact Hok|now left].
  - destruct (IH rs url eq_refl Hin) as (r' & H1 & H2 & H3).
    exists r'. repeat split; [exact H1|exact H2|now right].
Qed.

Lemma fetchAll_network network urls : forall responses url response,
  ServiceWorker.fetchAll network urls = Some responses ->
  In (url, response) responses -> network url = Some response.
Proof.
  induction urls as [|first rest IH]; intros responses url response Hf Hin.
  - injection Hf as <-. contradiction.
  - cbn [ServiceWorker.fetchAll] in Hf.
    destruct (network first) as [r|] eqn:Hr; [|discriminate].
    destruct (Response.ok r); [|discriminate].
    destruct (ServiceWorker.fetchAll network rest) as [rs|] eqn:Hrs; [|discriminate].
    injection Hf as <-.
    destruct Hin as [[= <- <-]|Hin]; [exact Hr|].
    exact (IH rs url response eq_refl Hin).
Qed.

Lemma put_all_lookup (responses : list (string * Response.t)) :
  forall (c : gmap string Response.t) url r,
  (forall r', In (url, r') responses -> r' = r) ->
  In (url, r) responses \/ c !! url = Some r ->
  fold_left (fun c r => <[fst r := snd r]> c) responses c !! url = Some r.
Proof.
  induction responses as [|[u r0] rest IH]; intros c url r Hfun Hin; cbn [fold_left].
  - now destruct Hin.
  - apply IH; [intros r' Hr'; apply Hfun; now right|].
    cbn [fst snd].
    destruct (String.eqb u url) eqn:E.
    + apply String.eqb_eq in E. subst u. right.
      rewrite lookup_insert_eq. f_equal. apply Hfun. now left.
    + apply String.eqb_neq in E.
      destruct Hin as [[H|H]|H].
      * injection H as -> _. contradiction.
      * now left.
      * right. now rewrite lookup_insert_ne.
Qed.

Lemma match_current url (c : Caches.cache) r : forall cs : Caches.t,
  existsb (fun c => String.eqb (fst c) ServiceWorker.CACHE_NAME) cs = true ->
  c !! url = Some r ->
  Caches.match_ url
    (List.filter (fun c => String.eqb (fst c) ServiceWorker.CACHE_NAME)
                 (Caches.store ServiceWorker.CACHE_NAME c cs))
  = Some r.
Proof.
  induction cs as [|c0 cs IH]; intros Hex Hc; [discriminate|].
  cbn [Caches.store map List.filter].
  destruct (String.eqb (fst c0) ServiceWorker.CACHE_NAME) eqn:E.
  - cbn [fst]. rewrite E. cbn [Caches.match_ snd]. now rewrite Hc.
  - rewrite E. cbn [existsb] in Hex. rewrite E in Hex. now apply IH.
Qed.

Lemma open_exists name (cs : Caches.t) :
  existsb (fun c => String.eqb (fst c) name) (Caches.open name cs) = true.
Proof.
  unfold Caches.open. destruct (existsb _ cs) eqn:E; [exact E|].
  rewrite existsb_app. cbn. now rewrite String.eqb_refl, orb_true_r.
Qed.

(** X23: the application works offline.  When the [install] listener
    has succeeded and the [activate] listener has run, the [fetch]
    listener answers a GET request for any asset of the list with the
    response fetched at installation, whatever the network does then
    and whatever older caches there were; a request with another
    method is left to the browser. *)
Theorem assets_served_offline (network network' : string -> option Response.t)
    (cs cs' : Caches.t) (url : string) :
  ServiceWorker.install network cs = (cs', true) ->
  In url ServiceWorker.ASSETS ->
  exists response,
    network url = Some response
    /\ Response.ok response = true
    /\ ServiceWorker.fetch network' "GET" url (ServiceWorker.activate cs')
       = Some (Some response)
    /\ forall method,
         method <> "GET" ->
         ServiceWorker.fetch network' method url (ServiceWorker.activate cs') = None.
Proof.
  unfold ServiceWorker.install. cbn zeta.
  destruct (Caches.lookup _ _) as [c|]; [|discriminate].
  unfold ServiceWorker.addAll.
  destruct (ServiceWorker.fetchAll network ServiceWorker.ASSETS) as [rs|] eqn:Hrs;
    [|discriminate].
  intros [= <-] Hin.
  destruct (fetchAll_In network _ rs url Hrs Hin) as (r & Hr & Hok & Hrin).
  exists r. split; [exact Hr|]. split; [exact Hok|]. split.
  2: { intros method Hm. unfold ServiceWorker.fetch.
       now destruct (String.eqb_spec method "GET"). }
  unfold ServiceWorker.fetch. cbn [String.eqb Ascii.eqb Bool.eqb negb].
  rewrite activate_filter, (match_current url _ r); [reflexivity|apply open_exists|].
  unfold Caches.cache in *. apply put_all_lookup; [|now left].
  intros r' Hr'. apply (fetchAll_network network _ rs url r' Hrs) in Hr'. congruence.
Qed.

Lemma assets_served_offline_witness :
  (exists cs', ServiceWorker.install online oldCaches = (cs', true)
               /\ ServiceWorker.fetch offline "GET" "./app.js" (ServiceWorker.activate cs')
                  = Some (Some {| Response.ok := true; Response.body := "./app.js" |}))
  /\ In "./app.js" ServiceWorker.ASSETS
  /\ ServiceWorker.fetch offline "GET" "./app.js" oldCaches
     = Some (Some {| Response.ok := true; Response.body := "old" |}).
Proof.
  assert (Hin : In "./app.js" ServiceWorker.ASSETS) by (cbn; tauto).
  split; [|split; [exact Hin|reflexivity]].
  eexists. split; [reflexivity|].
  match goal with |- ServiceWorker.fetch _ _ _ (ServiceWorker.activate ?cs') = _ =>
    destruct (assets_served_offline online offline oldCaches cs' "./app.js" eq_refl Hin)
      as (r & Hr & _ & Hf & _)
  end.
  injection Hr as <-. exact Hf.
Defined.

(** ** The status line *)

Lemma clearStatusTimeout_clears sl :
  remembered sl -> StatusLine.reverts (clearStatusTimeout sl) = [].
Proof.
  unfold remembered, clearStatusTimeout. destruct sl as [text st rs h]. cbn.
  intros [->|(id & -> & ->)]; [now destruct st|].
  cbn. now rewrite Pos.eqb_refl.
Qed.

Lemma statusHandle_remembered defaultDropText ev sl :
  statusEnabled ev sl = true -> remembered sl ->
  remembered (statusHandle defaultDropText ev sl).
Proof.
  intros Hen Hr. destruct ev as [n|message revert|id n|]; cbn [statusHandle].
  - left. unfold updateDropZoneMessage. cbn. now apply clearStatusTimeout_clears.
  - unfold showStatus. cbn zeta.
    rewrite (clearStatusTimeout_clears sl Hr).
    destruct revert; [right|left]; cbn; eauto.
  - left. unfold revertStatus, updateDropZoneMessage. cbn. cbn in Hen.
    destruct Hr as [Hr|(id' & Hr & _)]; rewrite Hr in Hen |- *; [discriminate|].
    cbn in Hen |- *. rewrite orb_false_r in Hen. apply Pos.eqb_eq in Hen. subst id'.
    now rewrite Pos.eqb_refl.
  - left. now apply clearStatusTimeout_clears.
Qed.

Lemma statusReachable_remembered defaultDropText sl :
  statusReachable defaultDropText sl -> remembered sl.
Proof.
  induction 1 as [sl H|sl ev _ IH Hen]; [now left|].
  now apply statusHandle_remembered.
Qed.

(** X24: a status does not stay for ever.  The browser never holds
    more than one revert callback, and the one it holds is the one
    [statusTimeout] remembers, so a newer status or an update always
    cancels the older revert; and when the callback runs, the line
    shows the count of the gallery again (the text of the document for
    an empty gallery, [1 image ready.], [n images ready.]) and nothing
    is left waiting. *)
Theorem status_reverts defaultDropText (sl : StatusLine.t) (id : positive) (n : nat) :
  statusReachable defaultDropText sl ->
  remembered sl
  /\ (statusEnabled (RevertFired id n) sl = true ->
      StatusLine.statusTimeout sl = Some id
      /\ StatusLine.textContent (revertStatus defaultDropText id n sl)
         = readyText defaultDropText n
      /\ StatusLine.reverts (revertStatus defaultDropText id n sl) = []
      /\ StatusLine.statusTimeout (revertStatus defaultDropText id n sl) = None).
Proof.
  intros Hreach. pose proof (statusReachable_remembered _ sl Hreach) as Hr.
  split; [exact Hr|]. cbn [statusEnabled]. intros Hen.
  destruct Hr as [Hr|(id' & Hr & Hs)]; rewrite Hr in Hen; [discriminate|].
  cbn in Hen. rewrite orb_false_r in Hen. apply Pos.eqb_eq in Hen. subst id'.
  split; [exact Hs|]. unfold revertStatus, updateDropZoneMessage. cbn.
  rewrite Hr. cbn. now rewrite Pos.eqb_refl.
Qed.

Lemma status_reverts_witness :
  statusReachable "Drop images here" statusDemo
  /\ StatusLine.textContent statusDemo = "Added 2 slides."
  /\ StatusLine.textContent (revertStatus "Drop images here" 1 2 statusDemo)
     = "2 images ready."
  /\ StatusLine.reverts (revertStatus "Drop images here" 1 2 statusDemo) = [].
Proof.
  assert (Hreach : statusReachable "Drop images here" statusDemo).
  { apply (status_event _ _ (ShowStatus "Added 2 slides." true)); [|reflexivity].
    apply (status_event _ _ (ShowStatus "Processing a.pdf ..." false)); [|reflexivity].
    now apply status_initial. }
  destruct (status_reverts "Drop images here" statusDemo 1 2 Hreach) as (_ & Hfire).
  destruct (Hfire eq_refl) as (_ & Ht & Hr & _).
  split; [exact Hreach|]. split; [reflexivity|].
  split; [rewrite Ht; vm_compute; reflexivity|exact Hr].
Defined.
